(** * Ingestion orchestration of bridgewell_gpt: a shallow embedding

    Sources embedded here:
    - [backend/bridgewell_gpt/components/ingest/ingest_component.py]
    - [backend/bridgewell_gpt/components/extraction/extraction_component.py]

    Python dictionaries are finite maps ([gmap string _]), whose equality is
    the extensional one of Python's [==] on dicts.  Python lists are lists.
    Code that raises, returns early or runs a [finally] block is written in a
    small exception monad over an explicit world.  The faults of the
    collaborators ([fault] of [env]) are instances of [Exception], which every
    [except Exception] clause of the sources catches; [extract_document] and
    the extraction thread are followed a second time, in [Interrupted], with
    exceptions outside [Exception] as well. *)

From Stdlib Require Import ZArith Lia Ascii.
From stdpp Require Import base option list strings pretty gmap fin_maps.

#[local] Set Warnings "-register-all".
#[local] Open Scope Z_scope.
#[local] Open Scope string_scope.
#[local] Open Scope list_scope.

(** ** JSON values, as [json.load] produces them *)

Inductive json : Type :=
  | JNull
  | JBool (b : bool)
  | JNum (z : Z)
  | JStr (s : string)
  | JList (l : list json)
  | JDict (m : gmap string json).

(** [isinstance(v, dict)] *)
Definition is_dict (v : json) : bool :=
  match v with JDict _ => true | _ => false end.

(** Python truthiness of a JSON value: [bool(v)]. *)
Definition truthy (v : json) : bool :=
  match v with
  | JNull => false
  | JBool b => b
  | JNum z => negb (Z.eqb z 0)
  | JStr s => negb (String.eqb s "")
  | JList l => match l with [] => false | _ => true end
  | JDict m => if decide (m = ∅) then false else true
  end.

(** [d.get(k)] with Python's [None] for a missing key. *)
Definition dict_get (d : gmap string json) (k : string) : json :=
  default JNull (d !! k).

Module DeepUpdate.

(** The value [deep_update] stores at key [k], from the value [old] the base
    holds there ([None] when the key is absent) and the overlay value [v];
    [rec] is the recursive call.

<<
    if isinstance(v, dict):
        if not isinstance(d.get(k), dict) or not d.get(k):
            d[k] = v
        else:
            d[k] = deep_update(d.get(k, {}), v)
    else:
        d[k] = v
>> *)
Definition stored (rec : gmap string json → json → gmap string json)
    (old : option json) (v : json) : json :=
  match v with
  | JDict _ =>
      match old with
      | Some (JDict dk) =>
          if decide (dk = ∅) then v else JDict (rec dk v)
      | _ => v
      end
  | _ => v
  end.

(** [deep_update(d, u)] of both [save_task]s (ingest_component.py, lines
    295-306 and 668-680).  The loop [for k, v in u.items()] is the fold over
    the overlay; the dictionary [d], updated in place and returned, is the
    accumulator.  The arguments are JSON trees ([json.load] output and
    fresh answers of the query service), on which the in-place update and
    this functional one agree. *)
Fixpoint deep_update (d : gmap string json) (u : json) {struct u}
    : gmap string json :=
  match u with
  | JDict um =>
      map_fold (λ k v d, <[k := stored deep_update (d !! k) v]> d) d um
  | _ => d
  end.

#[global] Arguments deep_update : simpl never.

End DeepUpdate.

(** Size of a JSON value, the measure behind induction on nested
    dictionaries. *)
Fixpoint json_size (j : json) : nat :=
  match j with
  | JList l => S (foldr (λ x n, json_size x + n)%nat 0%nat l)
  | JDict m => S (map_fold (λ _ v n, json_size v + n)%nat 0%nat m)
  | _ => 1%nat
  end.

(** The value has a field at the path of keys [p]. *)
Fixpoint has_path (p : list string) (v : json) : Prop :=
  match p with
  | [] => True
  | k :: p' =>
      match v with
      | JDict m =>
          match m !! k with
          | Some v' => has_path p' v'
          | None => False
          end
      | _ => False
      end
  end.

(** ** Slicing in batches

<<
    def batch_fields(fields, batch_size):
        for i in range(0, len(fields), batch_size):
            yield fields[i:i+batch_size]
>>
    [batch_nodes] at the end of ingest_component.py is the same generator. *)

(** [range(0, stop, step)] for a positive [step]. *)
Definition py_range0 (stop step : nat) : list nat :=
  (λ j, j * step)%nat <$> seq 0 ((stop + step - 1) / step)%nat.

(** [l[i:i+n]] *)
Definition py_slice {A} (l : list A) (i n : nat) : list A :=
  take n (drop i l).

Definition batch_fields {A} (fields : list A) (batch_size : nat)
    : list (list A) :=
  (λ i, py_slice fields i batch_size) <$> py_range0 (length fields) batch_size.

Definition batch_nodes {A} := @batch_fields A.

(** ** Python control flow: exceptions, early [return], [finally] *)

Module Py.

(** An instance of [Exception]; [str(e)] is the message.  Every exception
    of a block of [Py] is one: the exceptions outside [Exception], which a
    clause [except Exception] lets through, are in [PyBase]. *)
Inductive exn : Type := Exception (msg : string).

Definition str_of_exn (e : exn) : string :=
  match e with Exception msg => msg end.

(** How a block of statements ends: it falls through with a value, raises,
    or executes [return r]. *)
Inductive outcome (R A : Type) : Type :=
  | Normal (a : A)
  | Raise (e : exn)
  | Return (r : R).
#[global] Arguments Normal {R A} a.
#[global] Arguments Raise {R A} e.
#[global] Arguments Return {R A} r.

(** A block over a world [W], inside a function that returns an [R]. *)
Definition M (W R A : Type) : Type := W → outcome R A * W.

Section Combinators.
Context {W R : Type}.

Definition ret {A} (a : A) : M W R A := λ w, (Normal a, w).

Definition bind {A B} (m : M W R A) (f : A → M W R B) : M W R B :=
  λ w, match m w with
       | (Normal a, w') => f a w'
       | (Raise e, w') => (Raise e, w')
       | (Return r, w') => (Return r, w')
       end.

Definition raise {A} (e : exn) : M W R A := λ w, (Raise e, w).

(** [return r] *)
Definition return_ {A} (r : R) : M W R A := λ w, (Return r, w).

Definition get : M W R W := λ w, (Normal w, w).

Definition modify (f : W → W) : M W R unit := λ w, (Normal tt, f w).

(** [try: body / except Exception as e: handler e]: every [e] here is an
    instance of [Exception], so the clause catches it. *)
Definition try_except {A} (body : M W R A) (handler : exn → M W R A)
    : M W R A :=
  λ w, match body w with
       | (Raise e, w') => handler e w'
       | r => r
       end.

(** [try: body / finally: fin].  The [finally] block always runs; when it
    ends normally the outcome of the body stands, otherwise its own
    outcome replaces it. *)
Definition try_finally {A} (body : M W R A) (fin : M W R unit)
    : M W R A :=
  λ w, match body w with
       | (o, w') =>
           match fin w' with
           | (Normal _, w'') => (o, w'')
           | (Raise e, w'') => (Raise e, w'')
           | (Return r, w'') => (Return r, w'')
           end
       end.

(** [for x in xs: body x] *)
Fixpoint for_each {A} (xs : list A) (body : A → M W R unit) : M W R unit :=
  match xs with
  | [] => ret tt
  | x :: xs' => bind (body x) (λ _, for_each xs' body)
  end.

(** [for x in xs: acc = body acc x], for a loop that rebinds a local. *)
Fixpoint fold_each {A B} (xs : list A) (acc : B) (body : B → A → M W R B)
    : M W R B :=
  match xs with
  | [] => ret acc
  | x :: xs' => bind (body acc x) (λ acc', fold_each xs' acc' body)
  end.

(** [if c: body] *)
Definition when (c : bool) (body : M W R unit) : M W R unit :=
  if c then body else ret tt.
End Combinators.

(** Calling a function whose body is [body]: an early [return r] yields [r],
    falling off the end yields [dflt] (Python's [None]). *)
Definition call {W R R'} (dflt : R) (body : M W R unit) : M W R' R :=
  λ w, match body w with
       | (Normal _, w') => (Normal dflt, w')
       | (Return r, w') => (Normal r, w')
       | (Raise e, w') => (Raise e, w')
       end.

(** [t = threading.Thread(target=...); t.start(); ...; t.join()], run to
    completion.  [shared] is the state of the objects the thread shares with
    its parent; the target yields their state after its in-place updates.
    An exception that escapes the target ends that thread only. *)
Definition thread_run {W R A} (shared : A) (target : A → M W unit A)
    : M W R A :=
  λ w, match target shared w with
       | (Normal a, w') => (Normal a, w')
       | (_, w') => (Normal shared, w')
       end.

(** Running a block over a component [V] of the world [W]. *)
Definition zoom {W V R A} (proj : W → V) (inj : V → W → W) (m : M V R A)
    : M W R A :=
  λ w, match m (proj w) with (o, v') => (o, inj v' w) end.

(** The blocks form a monad; stdpp's [x ← m; k] and [m ;; k] sequence
    statements. *)
#[global] Instance M_ret {W R} : MRet (M W R) := @ret W R.
#[global] Instance M_bind {W R} : MBind (M W R) := λ A B f m, bind m f.

End Py.

(** A block [respects] a relation on worlds when every run of it, however
    it ends, takes a world to a related one. *)
Definition respects {W R A} (Rel : relation W) (m : Py.M W R A) : Prop :=
  ∀ w, Rel w (snd (m w)).

(** ** Documents, nodes and the world the components act on *)

(** llama_index [Document]: [doc.doc_id], [doc.text], [doc.metadata]. *)
Record Document : Type := mkDocument {
  doc_id : string;
  text : string;
  metadata : gmap string json;
}.

(** [document.get_doc_id()] *)
Definition get_doc_id (document : Document) : string := doc_id document.

(** llama_index [BaseNode], as [run_transformations] produces them. *)
Record BaseNode : Type := mkNode {
  node_text : string;
  node_metadata : gmap string json;
}.

(** Everything outside the Python process that the two source files read or
    write. *)
Record world : Type := mkWorld {
  (* number of [uuid.uuid4()] calls so far *)
  uuid_count : nat;
  (* [IngestionHelper.store_original_file] calls: file name and data path *)
  original_files : list (string * string);
  (* [extraction_results/<id>/chunks.json] *)
  chunk_files : gmap string json;
  (* [extraction_results/<id>/result.json] *)
  result_files : gmap string json;
  (* temporary files that exist, by path *)
  temp_files : list string;
  (* [DocumentTypeService().update_document_phase] calls, oldest first *)
  phase_log : list (string * string);
  (* [self._index.insert_nodes] calls, oldest first *)
  insert_log : list (list BaseNode);
  (* [docstore.set_document_hash] calls, by document id *)
  hash_log : list string;
  (* number of [self._save_index()] calls *)
  persist_count : nat;
  (* [ExtractionService._extract_with_rag] calls: the [missing_fields]
      argument of each *)
  rag_calls : list (list string);
  (* background threads started: [(file_name, stored_file_path, doc_id)] *)
  threads : list (string * string * string);
}.

Definition set_uuid_count (f : nat → nat) (w : world) : world :=
  mkWorld (f (uuid_count w)) (original_files w) (chunk_files w)
    (result_files w) (temp_files w) (phase_log w) (insert_log w) (hash_log w)
    (persist_count w) (rag_calls w) (threads w).
Definition set_original_files (f : list (string * string) → list (string * string))
    (w : world) : world :=
  mkWorld (uuid_count w) (f (original_files w)) (chunk_files w)
    (result_files w) (temp_files w) (phase_log w) (insert_log w) (hash_log w)
    (persist_count w) (rag_calls w) (threads w).
Definition set_chunk_files (f : gmap string json → gmap string json)
    (w : world) : world :=
  mkWorld (uuid_count w) (original_files w) (f (chunk_files w))
    (result_files w) (temp_files w) (phase_log w) (insert_log w) (hash_log w)
    (persist_count w) (rag_calls w) (threads w).
Definition set_result_files (f : gmap string json → gmap string json)
    (w : world) : world :=
  mkWorld (uuid_count w) (original_files w) (chunk_files w)
    (f (result_files w)) (temp_files w) (phase_log w) (insert_log w)
    (hash_log w) (persist_count w) (rag_calls w) (threads w).
Definition set_temp_files (f : list string → list string) (w : world) : world :=
  mkWorld (uuid_count w) (original_files w) (chunk_files w)
    (result_files w) (f (temp_files w)) (phase_log w) (insert_log w)
    (hash_log w) (persist_count w) (rag_calls w) (threads w).
Definition set_phase_log (f : list (string * string) → list (string * string))
    (w : world) : world :=
  mkWorld (uuid_count w) (original_files w) (chunk_files w)
    (result_files w) (temp_files w) (f (phase_log w)) (insert_log w)
    (hash_log w) (persist_count w) (rag_calls w) (threads w).
Definition set_insert_log (f : list (list BaseNode) → list (list BaseNode))
    (w : world) : world :=
  mkWorld (uuid_count w) (original_files w) (chunk_files w)
    (result_files w) (temp_files w) (phase_log w) (f (insert_log w))
    (hash_log w) (persist_count w) (rag_calls w) (threads w).
Definition set_hash_log (f : list string → list string) (w : world) : world :=
  mkWorld (uuid_count w) (original_files w) (chunk_files w)
    (result_files w) (temp_files w) (phase_log w) (insert_log w)
    (f (hash_log w)) (persist_count w) (rag_calls w) (threads w).
Definition set_persist_count (f : nat → nat) (w : world) : world :=
  mkWorld (uuid_count w) (original_files w) (chunk_files w)
    (result_files w) (temp_files w) (phase_log w) (insert_log w) (hash_log w)
    (f (persist_count w)) (rag_calls w) (threads w).
Definition set_rag_calls (f : list (list string) → list (list string))
    (w : world) : world :=
  mkWorld (uuid_count w) (original_files w) (chunk_files w)
    (result_files w) (temp_files w) (phase_log w) (insert_log w) (hash_log w)
    (persist_count w) (f (rag_calls w)) (threads w).
Definition set_threads
    (f : list (string * string * string) → list (string * string * string))
    (w : world) : world :=
  mkWorld (uuid_count w) (original_files w) (chunk_files w)
    (result_files w) (temp_files w) (phase_log w) (insert_log w) (hash_log w)
    (persist_count w) (rag_calls w) (f (threads w)).

Definition empty_world : world :=
  mkWorld 0 [] ∅ ∅ [] [] [] [] 0 [] [].

(** Two worlds agree on a component. *)
Definition same_on {X} (f : world → X) : relation world :=
  λ w w', f w = f w'.

(** The later world has the phase writes of the earlier one, and possibly
    more after them. *)
Definition phase_extends : relation world :=
  λ w w', phase_log w `prefix_of` phase_log w'.

(** The calls into collaborators that may raise. *)
Inductive op : Type :=
  | OpStoreOriginalFile     (* IngestionHelper.store_original_file *)
  | OpWaitEntry             (* DocumentTypeService()._load_data *)
  | OpTransformFile         (* IngestionHelper.transform_file_into_documents *)
  | OpRunTransformations    (* run_transformations *)
  | OpInsertNodes           (* self._index.insert_nodes *)
  | OpSetDocumentHash       (* self._index.docstore.set_document_hash *)
  | OpSaveIndex             (* self._save_index *)
  | OpStoreExtractionData   (* self._store_extraction_data *)
  | OpGetAgent              (* self.llama_extract.get_agent *)
  | OpCreateAgent           (* self.llama_extract.create_agent *)
  | OpTempFile              (* tempfile.NamedTemporaryFile *)
  | OpDumpContent           (* json.dump(content, temp_file) *)
  | OpAgentExtract          (* benefit_agent.extract *)
  | OpDumpsResult           (* json.dumps(result, indent=2) *)
  | OpMkdir                 (* result_path.parent.mkdir *)
  | OpWriteResult           (* open(result_path, "w") and json.dump *)
  | OpUnlink                (* os.unlink(temp_path) *)
  | OpLoadResult            (* open(result_file) and json.load *)
  | OpExtractionService     (* ExtractionService(...) *)
  | OpHasMissingFields      (* extraction_service._has_missing_fields *)
  | OpLoadCompanyConfig     (* extraction_service._load_company_config *)
  | OpExtractWithRag        (* extraction_service._extract_with_rag *)
  | OpDumpsRag              (* json.dumps(all_rag_results, indent=2) *)
  | OpWriteBack.            (* open(result_file, 'w') and json.dump *)

#[global] Instance op_eq_dec : EqDecision op.
Proof. solve_decision. Defined.

(** The collaborators: what each call returns and whether it raises, both
    possibly depending on everything that happened before (the world). *)
Record env : Type := mkEnv {
  fault : op → world → option Py.exn;
  uuid4 : nat → string;
  stored_path : string → string → string;
  entry_present : world → bool;
  transform_file_into_documents : string → string → list Document;
  run_transformations : list Document → list BaseNode;
  attr_batch_size : option Z;
  attr_embed_batch_size : option Z;
  temp_name : world → string;
  agent_extract_data : json → json;
  now_isoformat : world → string;
  has_missing_fields : json → list string;
  company_config : json;
  extract_with_rag : world → string → list string → json → json;
  embedding_first : bool;
}.

Section External.
Context (E : env) {R : Type}.

(** A call into a collaborator: raises when the environment says so. *)
Definition ext (o : op) : Py.M world R unit :=
  λ w, match fault E o w with
       | Some e => (Py.Raise e, w)
       | None => (Py.Normal tt, w)
       end.

(** [str(uuid.uuid4())] *)
Definition new_uuid : Py.M world R string :=
  λ w, (Py.Normal (uuid4 E (uuid_count w)), set_uuid_count S w).
End External.

(** ** extraction_component.py: [ExtractionComponent] *)

Module ExtractionComponent.
Import Py.

Definition is_none (v : json) : bool :=
  match v with JNull => true | _ => false end.

(** One entry of [chunks] (lines 54-62): the three metadata keys, without
    those whose value is [None]. *)
Definition chunk_of (doc : Document) : json :=
  let md : gmap string json :=
    {[ "page" := dict_get (metadata doc) "page";
       "bbox" := dict_get (metadata doc) "bbox";
       "chunk_type" := dict_get (metadata doc) "chunk_type" ]} in
  JDict {[ "text" := JStr (text doc);
           "metadata" := JDict (filter (λ kv, is_none kv.2 = false) md) ]}.

(** [_get_agent_name_for_type] *)
Definition _get_agent_name_for_type (document_type : string) : string :=
  if String.eqb document_type "Insurance" then "insurance-parser"
  else if String.eqb document_type "Contract" then "contract-parser"
  else if String.eqb document_type "Invoice" then "invoice-parser"
  else if String.eqb document_type "Benefit" then "benefit-summary-parser"
  else "default-parser".

(** The record written to [result.json] (lines 124-132). *)
Definition result_record (extraction_id doc_id document_type file_name : string)
    (result : json) (timestamp : string) : json :=
  JDict {[ "extraction_id" := JStr extraction_id;
           "doc_id" := JStr doc_id;
           "document_type" := JStr document_type;
           "file_name" := JStr file_name;
           "status" := JStr "completed";
           "result" := result;
           "timestamp" := JStr timestamp ]}.

(** The mapping returned on success (lines 136-143). *)
Definition completed_mapping
    (extraction_id doc_id document_type file_name : string) (result : json)
    : json :=
  JDict {[ "extraction_id" := JStr extraction_id;
           "doc_id" := JStr doc_id;
           "document_type" := JStr document_type;
           "file_name" := JStr file_name;
           "status" := JStr "completed";
           "result" := result ]}.

(** The mapping returned from the [except] clause (lines 151-156). *)
Definition error_mapping (e : exn) (document_type file_name : string) : json :=
  JDict {[ "error" := JStr (str_of_exn e);
           "document_type" := JStr document_type;
           "file_name" := JStr file_name;
           "status" := JStr "error" ]}.

Section Methods.
Context (E : env).

(** [_store_extraction_data]: writes [<storage>/<extraction_id>/chunks.json]. *)
Definition _store_extraction_data {R} (extraction_id : string)
    (chunks : list json) (document_type file_name : string)
    : M world R unit :=
  ext E OpStoreExtractionData;;
  modify (set_chunk_files
    <[extraction_id := JDict {[ "chunks" := JList chunks;
                                "document_type" := JStr document_type;
                                "file_name" := JStr file_name ]}]>).

(** Lines 109-147: the inner [try ... finally] inside the [with] block. *)
Definition extract_and_store (content : json) (temp_path : string)
    (extraction_id doc_id document_type file_name : string)
    : M world json unit :=
  try_finally
    (ext E OpAgentExtract;;
     let result := agent_extract_data E content in
     ext E OpDumpsResult;;
     ext E OpMkdir;;
     ext E OpWriteResult;;
     w ← get;
     modify (set_result_files
       <[doc_id := result_record extraction_id doc_id document_type
                     file_name result (now_isoformat E w)]>);;
     return_ (completed_mapping extraction_id doc_id document_type
                file_name result))
    (ext E OpUnlink;;
     modify (set_temp_files (filter (λ p, p ≠ temp_path)))).

(** Lines 50-147: the body of the outer [try]. *)
Definition extract_body (documents : list Document)
    (document_type file_name doc_id : string) (agent_name : option string)
    : M world json unit :=
  let chunks := chunk_of <$> documents in
  let agent_name :=
    match agent_name with
    | Some n => if String.eqb n "" then _get_agent_name_for_type document_type
                else n
    | None => _get_agent_name_for_type document_type
    end in
  extraction_id ← new_uuid E;
  _store_extraction_data doc_id chunks document_type file_name;;
  let content := JDict {[ "chunks" := JList chunks ]} in
  try_except (ext E OpGetAgent) (λ _, ext E OpCreateAgent);;
  ext E OpTempFile;;
  w ← get;
  let temp_path := temp_name E w in
  modify (set_temp_files (λ l, l ++ [temp_path]));;
  ext E OpDumpContent;;
  extract_and_store content temp_path extraction_id doc_id document_type
    file_name.

(** [extract_document] (lines 29-156). *)
Definition extract_document {R} (documents : list Document)
    (document_type file_name doc_id : string) (agent_name : option string)
    : M world R json :=
  call JNull
    (try_except
       (extract_body documents document_type file_name doc_id agent_name)
       (λ e, return_ (error_mapping e document_type file_name))).

(** [get_extraction_result] *)
Definition get_extraction_result (doc_id : string) (w : world) : option json :=
  result_files w !! doc_id.
End Methods.

End ExtractionComponent.

(** ** ingest_component.py: the closures of [_background_save_docs]

    [SimpleIngestComponent] and [ParallelizedIngestComponent] define
    [update_phase], [wait_for_document_entry] and [parse_documents] with the
    same text; they are embedded once.  [doc_id] has type [str] in both, so
    the guards [if doc_id is not None] always pass.  Locks are not modelled:
    one background task is run at a time. *)

Module Background.
Import Py.

Section Closures.
Context (E : env) (file_name stored_file_path doc_id : string).

(** Modelled from the spec: [DocumentTypeService.update_document_phase]
    is not among the sources.  By the spec's PhaseTracker interface,
    [update_phase(doc_id, phase)] records the phase of the id, and a write
    for an id that has no entry yet is a no-op write miss, not a fault:
    the call returns.  The write is recorded in [phase_log]. *)
Definition update_phase {R} (doc_id phase : string) : M world R unit :=
  modify (set_phase_log (λ l, l ++ [(doc_id, phase)])).

(** The bounded poll: [True] when the entry shows up before the timeout. *)
Definition wait_for_document_entry {R} (doc_id : string) : M world R bool :=
  ext E OpWaitEntry;;
  w ← get;
  mret (entry_present E w).

Definition parse_documents {R} : M world R (list Document) :=
  ext E OpTransformFile;;
  let documents := transform_file_into_documents E file_name stored_file_path in
  mret ((λ doc, mkDocument doc_id (text doc)
                  (<["doc_id" := JStr doc_id]>
                     (<["file_name" := JStr file_name]> (metadata doc))))
        <$> documents).

(** The metadata [run_extraction] stores on a document when the extraction
    completed. *)
Definition with_extraction (extraction : gmap string json) (doc : Document)
    : Document :=
  mkDocument (get_doc_id doc) (text doc)
    (<["document_type" := dict_get extraction "document_type"]>
       (<["extraction_id" := dict_get extraction "extraction_id"]>
          (<["extraction" := default (JDict ∅) (extraction !! "result")]>
             (metadata doc)))).

(** [if extraction and extraction.get("status") == "completed": ...] *)
Definition store_extraction (extraction : json) (documents : list Document)
    : list Document :=
  match extraction with
  | JDict ex =>
      match ex !! "status" with
      | Some (JStr st) =>
          if String.eqb st "completed" then with_extraction ex <$> documents
          else documents
      | _ => documents
      end
  | _ => documents
  end.

(** [self._index.insert_nodes(nodes)] *)
Definition insert_nodes {R} (nodes : list BaseNode) : M world R unit :=
  modify (set_insert_log (λ l, l ++ [nodes]));;
  ext E OpInsertNodes.

(** The insertion part of [run_embedding] and of [_save_docs]:
    [n_batches = math.ceil(len(nodes) / batch_size)] divides by
    [batch_size], and [range] has an empty run for a negative step. *)
Definition insert_in_batches {R} (nodes : list BaseNode) (batch_size : Z)
    : M world R unit :=
  if Z.eqb batch_size 0 then raise (Exception "division by zero")
  else
    for_each
      (if Z.ltb batch_size 0 then []
       else batch_nodes nodes (Z.to_nat batch_size))
      insert_nodes.

Definition set_document_hashes {R} (documents : list Document)
    : M world R unit :=
  for_each documents (λ document,
    ext E OpSetDocumentHash;;
    modify (set_hash_log (λ l, l ++ [get_doc_id document]))).

Definition _save_index {R} : M world R unit :=
  ext E OpSaveIndex;;
  modify (set_persist_count S).

(** [extraction_service._extract_with_rag(doc_id=..., missing_fields=...,
    company_config=...)] *)
Definition _extract_with_rag {R} (missing_fields : list string)
    (config : json) : M world R json :=
  modify (set_rag_calls (λ l, l ++ [missing_fields]));;
  ext E OpExtractWithRag;;
  w ← get;
  mret (extract_with_rag E w doc_id missing_fields config).

(** [extraction_data.get("result", {})] *)
Definition get_result {R} (extraction_data : json) : M world R json :=
  match extraction_data with
  | JDict m => mret (default (JDict ∅) (m !! "result"))
  | _ => raise (Exception "object has no attribute 'get'")
  end.

(** [extraction_data["result"] = final_data] and the write to
    [result.json] (lines 314-315 and 687-688).  [open(result_file, 'w')]
    and [json.dump] are one call here: the world has the whole new file
    when the call does not raise.  When it raises the world keeps the old
    file, while the source has truncated it on [open] and may have written
    a part of the new one; the statements about the stored result are
    about writes that do not raise. *)
Definition write_back {R} (extraction_data : json)
    (final_data : gmap string json) : M world R unit :=
  match extraction_data with
  | JDict m =>
      ext E OpWriteBack;;
      modify (set_result_files
                <[doc_id := JDict (<["result" := JDict final_data]> m)]>)
  | _ => raise (Exception "object does not support item assignment")
  end.

(** [thread = threading.Thread(target=save_task, args=(doc_id,));
    thread.start()]: the thread is recorded by the variables its target
    captured; [thread_target] of the component gives the target back. *)
Definition start_save_task {R} : M world R unit :=
  modify (set_threads (λ l, l ++ [(file_name, stored_file_path, doc_id)])).
End Closures.

End Background.

(** ** [SimpleIngestComponent] *)

Module SimpleIngestComponent.
Import Py DeepUpdate ExtractionComponent Background.

Section Methods.
Context (E : env).

Section BackgroundSaveDocs.
Context (file_name stored_file_path doc_id : string).

(** [run_extraction] (lines 179-193); yields the documents with the
    metadata it stored on them. *)
Definition run_extraction (documents : list Document)
    : M world unit (list Document) :=
  update_phase doc_id "extraction";;
  extraction ← extract_document E documents "Benefit" file_name doc_id None;
  update_phase doc_id "embedding";;
  mret (store_extraction extraction documents).

(** [run_embedding] (lines 195-217). *)
Definition run_embedding (documents : list Document)
    : M world unit (list Document) :=
  all_nodes ← fold_each documents [] (λ all_nodes doc,
    ext E OpRunTransformations;;
    mret (all_nodes ++ run_transformations E [doc]));
  let batch_size := default 32 (attr_batch_size E) in
  insert_in_batches E all_nodes batch_size;;
  set_document_hashes E documents;;
  _save_index E;;
  mret documents.

(** Lines 286-318: the branch [if missing_fields:]. *)
Definition reconcile (extraction_data extraction_result : json)
    (missing_fields : list string) : M world unit unit :=
  ext E OpLoadCompanyConfig;;
  let company_config := company_config E in
  let batch_size := 10%nat in
  all_rag_results ← fold_each (batch_fields missing_fields batch_size) ∅
    (λ all_rag_results batch,
       rag_results ← _extract_with_rag E doc_id batch company_config;
       mret (deep_update all_rag_results rag_results));
  ext E OpDumpsRag;;
  match extraction_result with
  | JDict er =>
      let final_data := deep_update er (JDict all_rag_results) in
      write_back E doc_id extraction_data final_data
  | _ => mret tt
  end.

(** Lines 238-323: the body of the inner [try]. *)
Definition rag_block (documents : list Document) : M world unit unit :=
  match documents with
  | [] => raise (Exception "list index out of range")
  | doc0 :: _ =>
      let doc_file_name := dict_get (metadata doc0) "file_name" in
      if negb (truthy doc_file_name) then return_ tt else
      if String.eqb doc_id "" then return_ tt else
      let document_type := dict_get (metadata doc0) "document_type" in
      if negb (truthy document_type) then return_ tt else
      w ← get;
      match result_files w !! doc_id with
      | None => return_ tt
      | Some extraction_data =>
          ext E OpLoadResult;;
          extraction_result ← get_result extraction_data;
          if negb (truthy extraction_result) then return_ tt else
          ext E OpExtractionService;;
          ext E OpHasMissingFields;;
          let missing_fields := has_missing_fields E extraction_result in
          match missing_fields with
          | [] => mret tt
          | _ => reconcile extraction_data extraction_result missing_fields
          end;;
          update_phase doc_id "completed"
      end
  end.

(** The two threads of lines 227-232, started and joined. *)
Definition fork_join (documents : list Document)
    : M world unit (list Document) :=
  if embedding_first E then
    thread_run documents run_embedding;;
    thread_run documents run_extraction
  else
    documents ← thread_run documents run_extraction;
    thread_run documents run_embedding.

(** [save_task] (lines 219-333). *)
Definition save_task : M world unit unit :=
  try_finally
    (try_except
       (wait_for_document_entry E doc_id;;
        update_phase doc_id "parsing";;
        documents ← parse_documents E file_name stored_file_path doc_id;
        documents ← fork_join documents;
        update_phase doc_id "rag";;
        try_except (rag_block documents)
          (λ e, update_phase doc_id "completed"))
       (λ e, update_phase doc_id "error"))
    (update_phase doc_id "completed").

(** [_background_save_docs]: starts the thread and returns. *)
Definition _background_save_docs {R} : M world R unit :=
  start_save_task file_name stored_file_path doc_id.
End BackgroundSaveDocs.

(** The target of a started thread: a thread is recorded in [threads] by
    what its target, the closure [save_task] of that call of
    [_background_save_docs], captured, and this is what it runs once it is
    scheduled. *)
Definition thread_target (thread : string * string * string)
    : M world unit unit :=
  save_task thread.1.1 thread.1.2 thread.2.

(** [ingest] (lines 132-141). *)
Definition ingest {R} (file_name file_data : string)
    : M world R (list Document) :=
  ext E OpStoreOriginalFile;;
  modify (set_original_files (λ l, l ++ [(file_name, file_data)]));;
  let stored_file_path := stored_path E file_name file_data in
  doc_id ← new_uuid E;
  let doc := mkDocument doc_id ""
               {[ "file_name" := JStr file_name; "doc_id" := JStr doc_id ]} in
  _background_save_docs file_name stored_file_path doc_id;;
  mret [doc].
End Methods.

End SimpleIngestComponent.

(** ** [ParallelizedIngestComponent] *)

Module ParallelizedIngestComponent.
Import Py DeepUpdate ExtractionComponent Background.

Section Methods.
(** [extraction_component] is the truth value of
    [self.extraction_component]. *)
Context (E : env) (extraction_component : bool).

Section BackgroundSaveDocs.
Context (file_name stored_file_path doc_id : string).

(** [run_extraction] (lines 559-572). *)
Definition run_extraction (documents : list Document)
    : M world unit (list Document) :=
  update_phase doc_id "extraction";;
  extraction ← extract_document E documents "Benefit" file_name doc_id None;
  mret (store_extraction extraction documents).

(** [run_embedding] (lines 574-597). *)
Definition run_embedding (documents : list Document)
    : M world unit (list Document) :=
  update_phase doc_id "embedding";;
  all_nodes ← fold_each documents [] (λ all_nodes doc,
    ext E OpRunTransformations;;
    mret (all_nodes ++ run_transformations E [doc]));
  let batch_size := default 32 (attr_embed_batch_size E) in
  insert_in_batches E all_nodes batch_size;;
  set_document_hashes E documents;;
  _save_index E;;
  mret documents.

(** Lines 654-691: the branch [if missing_fields:].  The two logging
    statements of lines 664-665 call [rag_results.keys()] and
    [json.dumps]. *)
Definition reconcile (extraction_data extraction_result : json)
    (missing_fields : list string) : M world unit unit :=
  ext E OpLoadCompanyConfig;;
  let company_config := company_config E in
  rag_results ← _extract_with_rag E doc_id missing_fields company_config;
  match rag_results with
  | JDict _ => mret tt
  | _ => raise (Exception "object has no attribute 'keys'")
  end;;
  ext E OpDumpsRag;;
  match extraction_result with
  | JDict er =>
      let final_data := deep_update er rag_results in
      write_back E doc_id extraction_data final_data
  | _ => mret tt
  end.

(** Lines 618-696: the body of the inner [try]. *)
Definition rag_block (documents : list Document) : M world unit unit :=
  match documents with
  | [] => raise (Exception "list index out of range")
  | doc0 :: _ =>
      let doc_file_name := dict_get (metadata doc0) "file_name" in
      if negb (truthy doc_file_name) then return_ tt else
      let document_type := dict_get (metadata doc0) "document_type" in
      if negb (truthy document_type) then return_ tt else
      w ← get;
      match result_files w !! doc_id with
      | None => return_ tt
      | Some extraction_data =>
          ext E OpLoadResult;;
          extraction_result ← get_result extraction_data;
          if negb (truthy extraction_result) then return_ tt else
          ext E OpExtractionService;;
          ext E OpHasMissingFields;;
          let missing_fields := has_missing_fields E extraction_result in
          match missing_fields with
          | [] => mret tt
          | _ => reconcile extraction_data extraction_result missing_fields
          end;;
          update_phase doc_id "completed"
      end
  end.

(** The two threads of lines 607-612, started and joined. *)
Definition fork_join (documents : list Document)
    : M world unit (list Document) :=
  if embedding_first E then
    thread_run documents run_embedding;;
    thread_run documents run_extraction
  else
    documents ← thread_run documents run_extraction;
    thread_run documents run_embedding.

(** [save_task] (lines 599-706). *)
Definition save_task : M world unit unit :=
  try_finally
    (try_except
       (wait_for_document_entry E doc_id;;
        update_phase doc_id "parsing";;
        documents ← parse_documents E file_name stored_file_path doc_id;
        documents ← fork_join documents;
        update_phase doc_id "rag";;
        try_except (rag_block documents)
          (λ e, update_phase doc_id "completed"))
       (λ e, update_phase doc_id "error"))
    (update_phase doc_id "completed").

Definition _background_save_docs {R} : M world R unit :=
  start_save_task file_name stored_file_path doc_id.
End BackgroundSaveDocs.

(** The target of a started thread: the closure [save_task] of the call of
    [_background_save_docs] that started it. *)
Definition thread_target (thread : string * string * string)
    : M world unit unit :=
  save_task thread.1.1 thread.1.2 thread.2.

(** [_save_docs] (lines 728-749). *)
Definition _save_docs {R} (documents : list Document)
    : M world R (list Document) :=
  ext E OpRunTransformations;;
  let nodes := run_transformations E documents in
  let batch_size := default 32 (attr_embed_batch_size E) in
  insert_in_batches E nodes batch_size;;
  set_document_hashes E documents;;
  _save_index E;;
  mret documents.

(** [ingest] (lines 494-520). *)
Definition ingest {R} (file_name file_data : string)
    : M world R (list Document) :=
  ext E OpStoreOriginalFile;;
  modify (set_original_files (λ l, l ++ [(file_name, file_data)]));;
  let stored_file_path := stored_path E file_name file_data in
  doc_id ← new_uuid E;
  let doc := mkDocument doc_id ""
               {[ "file_name" := JStr file_name; "doc_id" := JStr doc_id ]} in
  if extraction_component then
    _background_save_docs file_name stored_file_path doc_id;;
    mret [doc]
  else
    ext E OpTransformFile;;
    let documents :=
      transform_file_into_documents E file_name stored_file_path in
    _save_docs documents.
End Methods.

End ParallelizedIngestComponent.

(** ** Exceptions outside [Exception]

    [KeyboardInterrupt], [SystemExit], [GeneratorExit] and
    [asyncio.CancelledError] derive from [BaseException] and not from
    [Exception]: a clause [except Exception] lets them through, a [finally]
    block still runs.  [Py] has instances of [Exception] only; [PyBase] is
    the same control flow with both kinds of exception. *)

Module PyBase.

(** What a [raise] carries: an instance of [Exception], or an exception
    outside [Exception], by the name of its class. *)
Inductive raised : Type :=
  | IsException (e : Py.exn)
  | NotException (class_name : string).

Inductive outcome (R A : Type) : Type :=
  | Normal (a : A)
  | Raise (e : raised)
  | Return (r : R).
#[global] Arguments Normal {R A} a.
#[global] Arguments Raise {R A} e.
#[global] Arguments Return {R A} r.

Definition M (W R A : Type) : Type := W → outcome R A * W.

Section Combinators.
Context {W R : Type}.

Definition ret {A} (a : A) : M W R A := λ w, (Normal a, w).

Definition bind {A B} (m : M W R A) (f : A → M W R B) : M W R B :=
  λ w, match m w with
       | (Normal a, w') => f a w'
       | (Raise e, w') => (Raise e, w')
       | (Return r, w') => (Return r, w')
       end.

(** [return r] *)
Definition return_ {A} (r : R) : M W R A := λ w, (Return r, w).

Definition get : M W R W := λ w, (Normal w, w).

Definition modify (f : W → W) : M W R unit := λ w, (Normal tt, f w).

(** [try: body / except Exception as e: handler e]: an exception outside
    [Exception] passes the clause. *)
Definition try_except {A} (body : M W R A) (handler : Py.exn → M W R A)
    : M W R A :=
  λ w, match body w with
       | (Raise (IsException e), w') => handler e w'
       | r => r
       end.

(** [try: body / finally: fin] *)
Definition try_finally {A} (body : M W R A) (fin : M W R unit)
    : M W R A :=
  λ w, match body w with
       | (o, w') =>
           match fin w' with
           | (Normal _, w'') => (o, w'')
           | (Raise e, w'') => (Raise e, w'')
           | (Return r, w'') => (Return r, w'')
           end
       end.
End Combinators.

(** A block of [Py], whose exceptions are instances of [Exception]. *)
Definition lift {W R A} (m : Py.M W R A) : M W R A :=
  λ w, match m w with
       | (Py.Normal a, w') => (Normal a, w')
       | (Py.Raise e, w') => (Raise (IsException e), w')
       | (Py.Return r, w') => (Return r, w')
       end.

(** Calling a function whose body is [body]: an exception of either kind
    that leaves the body leaves the call. *)
Definition call {W R R'} (dflt : R) (body : M W R unit) : M W R' R :=
  λ w, match body w with
       | (Normal _, w') => (Normal dflt, w')
       | (Return r, w') => (Normal r, w')
       | (Raise e, w') => (Raise e, w')
       end.

(** A thread started and joined: [Thread._bootstrap_inner] runs the target
    under a bare [except:], so an exception of either kind that leaves the
    target ends that thread only. *)
Definition thread_run {W R A} (shared : A) (target : A → M W unit A)
    : M W R A :=
  λ w, match target shared w with
       | (Normal a, w') => (Normal a, w')
       | (_, w') => (Normal shared, w')
       end.

#[global] Instance M_ret {W R} : MRet (M W R) := @ret W R.
#[global] Instance M_bind {W R} : MBind (M W R) := λ A B f m, bind m f.

End PyBase.

(** ** [extract_document] and the extraction thread, with the exceptions
    outside [Exception]

    The same statements as in [ExtractionComponent] and in
    [run_extraction] of the two orchestrators, over [PyBase]: a call into a
    collaborator can raise an exception outside [Exception] too. *)

Module Interrupted.
Import PyBase ExtractionComponent.

Section Methods.
(** [interrupt o w] is the class of the exception outside [Exception] that
    the call [o] raises in the world [w], if it raises one. *)
Context (E : env) (interrupt : op → world → option string).

(** A call into a collaborator. *)
Definition ext {R} (o : op) : M world R unit :=
  λ w, match interrupt o w with
       | Some class_name => (Raise (NotException class_name), w)
       | None =>
           match fault E o w with
           | Some e => (Raise (IsException e), w)
           | None => (Normal tt, w)
           end
       end.

(** [str(uuid.uuid4())] *)
Definition new_uuid {R} : M world R string :=
  λ w, (Normal (uuid4 E (uuid_count w)), set_uuid_count S w).

Definition update_phase {R} (doc_id phase : string) : M world R unit :=
  modify (set_phase_log (λ l, l ++ [(doc_id, phase)])).

(** [_store_extraction_data] *)
Definition _store_extraction_data {R} (extraction_id : string)
    (chunks : list json) (document_type file_name : string)
    : M world R unit :=
  ext OpStoreExtractionData;;
  modify (set_chunk_files
    <[extraction_id := JDict {[ "chunks" := JList chunks;
                                "document_type" := JStr document_type;
                                "file_name" := JStr file_name ]}]>).

(** Lines 109-147: the inner [try ... finally] inside the [with] block. *)
Definition extract_and_store (content : json) (temp_path : string)
    (extraction_id doc_id document_type file_name : string)
    : M world json unit :=
  try_finally
    (ext OpAgentExtract;;
     let result := agent_extract_data E content in
     ext OpDumpsResult;;
     ext OpMkdir;;
     ext OpWriteResult;;
     w ← get;
     modify (set_result_files
       <[doc_id := result_record extraction_id doc_id document_type
                     file_name result (now_isoformat E w)]>);;
     return_ (completed_mapping extraction_id doc_id document_type
                file_name result))
    (ext OpUnlink;;
     modify (set_temp_files (filter (λ p, p ≠ temp_path)))).

(** Lines 50-147: the body of the outer [try]. *)
Definition extract_body (documents : list Document)
    (document_type file_name doc_id : string) (agent_name : option string)
    : M world json unit :=
  let chunks := chunk_of <$> documents in
  let agent_name :=
    match agent_name with
    | Some n => if String.eqb n "" then _get_agent_name_for_type document_type
                else n
    | None => _get_agent_name_for_type document_type
    end in
  extraction_id ← new_uuid;
  _store_extraction_data doc_id chunks document_type file_name;;
  let content := JDict {[ "chunks" := JList chunks ]} in
  try_except (ext OpGetAgent) (λ _, ext OpCreateAgent);;
  ext OpTempFile;;
  w ← get;
  let temp_path := temp_name E w in
  modify (set_temp_files (λ l, l ++ [temp_path]));;
  ext OpDumpContent;;
  extract_and_store content temp_path extraction_id doc_id document_type
    file_name.

(** [extract_document] (lines 29-156): the clause of line 149 is
    [except Exception as e]. *)
Definition extract_document {R} (documents : list Document)
    (document_type file_name doc_id : string) (agent_name : option string)
    : M world R json :=
  call JNull
    (try_except
       (extract_body documents document_type file_name doc_id agent_name)
       (λ e, return_ (error_mapping e document_type file_name))).

Section Threads.
Context (file_name doc_id : string).

(** [run_extraction] of [SimpleIngestComponent] (lines 179-193). *)
Definition simple_run_extraction (documents : list Document)
    : M world unit (list Document) :=
  update_phase doc_id "extraction";;
  extraction ← extract_document documents "Benefit" file_name doc_id None;
  update_phase doc_id "embedding";;
  mret (Background.store_extraction extraction documents).

(** [run_extraction] of [ParallelizedIngestComponent] (lines 559-572). *)
Definition parallelized_run_extraction (documents : list Document)
    : M world unit (list Document) :=
  update_phase doc_id "extraction";;
  extraction ← extract_document documents "Benefit" file_name doc_id None;
  mret (Background.store_extraction extraction documents).

(** The two threads of [save_task], started and joined (lines 227-232 and
    607-612).  The embedding thread is the one of the orchestrator; the
    exceptions of its index calls are instances of [Exception]. *)
Definition simple_fork_join (documents : list Document)
    : M world unit (list Document) :=
  let run_embedding documents :=
    lift (SimpleIngestComponent.run_embedding E documents) in
  if embedding_first E then
    thread_run documents run_embedding;;
    thread_run documents simple_run_extraction
  else
    documents ← thread_run documents simple_run_extraction;
    thread_run documents run_embedding.

Definition parallelized_fork_join (documents : list Document)
    : M world unit (list Document) :=
  let run_embedding documents :=
    lift (ParallelizedIngestComponent.run_embedding E doc_id documents) in
  if embedding_first E then
    thread_run documents run_embedding;;
    thread_run documents parallelized_run_extraction
  else
    documents ← thread_run documents parallelized_run_extraction;
    thread_run documents run_embedding.
End Threads.
End Methods.

(** An agent whose [extract] is cancelled: [asyncio.CancelledError] is no
    instance of [Exception]. *)
Definition cancelled_extract : op → world → option string :=
  λ o _, if decide (o = OpAgentExtract) then Some "asyncio.CancelledError"
         else None.

(** No call raises an exception outside [Exception]. *)
Definition no_interrupt : op → world → option string := λ _ _, None.

End Interrupted.

(** What the index calls of a flush of [PipelineIngestComponent] leave when
    none of them raises: one insert of the nodes, the hash of every document,
    one persist. *)
Definition flushed (nodes : list BaseNode) (documents : list Document)
    (w : world) : world :=
  set_persist_count S
    (set_hash_log (λ l, l ++ (get_doc_id <$> documents))
       (set_insert_log (λ l, l ++ [nodes]) w)).

(** ** [PipelineIngestComponent] *)

Module PipelineIngestComponent.
Import Py Background.

(** [NODE_FLUSH_COUNT = 5000  # Save the index every # nodes.] *)
Definition NODE_FLUSH_COUNT : Z := 5000.

(** The attributes [__init__] sets that bound the pipeline: the initial
    value of [doc_semaphore] and the [maxsize] of the two queues. *)
Record component : Type := mkComponent {
  count_workers : Z;
  doc_semaphore : Z;
  doc_q_maxsize : Z;
  node_q_maxsize : Z;
}.

(** [__init__] (lines 784-821); [transformations] is
    [len(self.transformations)].  A failed [assert] raises. *)
Definition __init__ (transformations : nat) (count_workers : Z)
    : exn + component :=
  if negb (Z.leb 2 (Z.of_nat transformations)) then
    inl (Exception "Embeddings must be in the transformations")
  else if negb (Z.ltb 0 count_workers) then
    inl (Exception "count_workers must be > 0")
  else
    inr {| count_workers := count_workers;
           doc_semaphore := count_workers;
           doc_q_maxsize := 20;
           node_q_maxsize := 40 |}.

(** An item of [node_q]: [("process", file_name, documents, nodes)],
    [("flush", None, None, None)] or [("quit", ...)]. *)
Inductive item : Type :=
  | Process (file_name : string) (documents : list Document)
      (nodes : list BaseNode)
  | Flush
  | Quit.

(** The writer thread: the index it writes to, its three local stacks, and
    two counters kept for the statements below ([_save_docs] calls and
    [node_q.task_done()] calls). *)
Record writer : Type := mkWriter {
  index : world;
  node_stack : list BaseNode;
  doc_stack : list Document;
  file_stack : list string;
  save_calls : nat;
  tasks_done : nat;
}.

Definition new_writer (w : world) : writer := mkWriter w [] [] [] 0 0.

Definition set_index (v : world) (s : writer) : writer :=
  mkWriter v (node_stack s) (doc_stack s) (file_stack s) (save_calls s)
    (tasks_done s).

Section Methods.
Context (E : env).

(** [_save_docs(file_stack, doc_stack, node_stack)] (lines 857-877): the
    three arguments are the writer's own stacks, cleared in place. *)
Definition _save_docs {R} : M writer R unit :=
  modify (λ s, mkWriter (index s) (node_stack s) (doc_stack s)
                 (file_stack s) (S (save_calls s)) (tasks_done s));;
  try_finally
    (try_except
       (s ← get;
        zoom index set_index
          (insert_nodes E (node_stack s);;
           set_document_hashes E (doc_stack s);;
           _save_index E))
       (λ _, mret tt))
    (modify (λ s, mkWriter (index s) [] [] [] (save_calls s) (tasks_done s))).

(** One turn of the loop of [_write_nodes] (lines 885-900), for the item
    [node_q.get] delivered; [true] stands for [break]. *)
Definition write_item {R} (it : item) : M writer R bool :=
  try_finally
    (match it with
     | Process file_name documents nodes =>
         modify (λ s, mkWriter (index s) (node_stack s ++ nodes)
                        (doc_stack s ++ documents)
                        (file_stack s ++ [file_name])
                        (save_calls s) (tasks_done s));;
         s ← get;
         when (Z.leb NODE_FLUSH_COUNT (Z.of_nat (length (node_stack s))))
           _save_docs;;
         mret false
     | Flush =>
         s ← get;
         when (match file_stack s with [] => false | _ => true end)
           _save_docs;;
         mret false
     | Quit =>
         s ← get;
         when (match file_stack s with [] => false | _ => true end)
           _save_docs;;
         mret true
     end)
    (modify (λ s, mkWriter (index s) (node_stack s) (doc_stack s)
                    (file_stack s) (save_calls s) (S (tasks_done s)))).

(** [_write_nodes] on the items the queue delivers, in order; it stops at
    [quit] and otherwise blocks in [node_q.get] once they are consumed. *)
Fixpoint _write_nodes {R} (queue : list item) : M writer R unit :=
  match queue with
  | [] => mret tt
  | it :: rest =>
      stop ← write_item it;
      if stop : bool then mret tt else _write_nodes rest
  end.
End Methods.

(** The nodes an item carries. *)
Definition item_nodes (it : item) : list BaseNode :=
  match it with Process _ _ nodes => nodes | _ => [] end.

(** The items the writer consumes: all of them up to the first [quit]. *)
Fixpoint consumed (queue : list item) : list item :=
  match queue with
  | [] => []
  | Quit :: _ => [Quit]
  | it :: rest => it :: consumed rest
  end.

(** The [process] item [_doc_to_node_worker] puts on [node_q]. *)
Definition process_item (p : string * list Document * list BaseNode) : item :=
  Process p.1.1 p.1.2 p.2.

(** The threshold rule in the spec's words: count nodes as they accumulate,
    flush once and start from zero whenever the count reaches the threshold.
    Yields the number of flushes and the count left pending. *)
Fixpoint threshold_flushes (pending : Z) (batches : list Z) : nat * Z :=
  match batches with
  | [] => (0%nat, pending)
  | n :: rest =>
      if Z.leb NODE_FLUSH_COUNT (pending + n) then
        let '(k, p) := threshold_flushes 0 rest in (S k, p)
      else threshold_flushes (pending + n) rest
  end.

End PipelineIngestComponent.

(** What C1 asks of the phase writes of one background task: the last one
    marks the document ['completed'], and every ['error'] write for the
    document has a later ['completed'] write. *)
Definition completes_after_error (doc_id : string)
    (writes : list (string * string)) : Prop :=
  last writes = Some (doc_id, "completed")
  ∧ ∀ i, writes !! i = Some (doc_id, "error") →
         ∃ j, (i < j)%nat ∧ writes !! j = Some (doc_id, "completed").

(** ** Scenarios

    Concrete collaborators on which the components are run below: a parser
    that yields one page, a backend that extracts one populated section, a
    schema check that reports [n] missing fields and a query service that
    answers every field it is asked. *)

Module Scenario.
Import Py.

Definition no_fault : op → world → option exn := λ _ _, None.

(** Only the collaborator call [o] raises. *)
Definition fault_at (o : op) (msg : string) : op → world → option exn :=
  λ o' _, if decide (o' = o) then Some (Exception msg) else None.

Definition page : Document :=
  mkDocument "" "Deductible: 500" {[ "page" := JNum 1 ]}.

Definition extracted : json :=
  JDict {[ "plan" := JDict {[ "name" := JStr "Gold" ]} ]}.

Definition field_names (n : nat) : list string :=
  (λ i, "field" +:+ pretty i) <$> seq 1 n.

(** The query service answers each field of a call under the section
    ["benefits"]. *)
Definition answers (fields : list string) : json :=
  JDict {[ "benefits" :=
             JDict (list_to_map ((λ f, (f, JStr "found")) <$> fields)) ]}.

Definition collaborators (faults : op → world → option exn) (missing : nat)
    : env :=
  {| fault := faults;
     uuid4 := λ n, "uuid-" +:+ pretty n;
     stored_path := λ file_name _, "original_files/" +:+ file_name;
     entry_present := λ _, true;
     transform_file_into_documents := λ _ _, [page];
     run_transformations :=
       fmap (λ d, mkNode (text d) (metadata d));
     attr_batch_size := None;
     attr_embed_batch_size := None;
     temp_name := λ w, "/tmp/tmp" +:+ pretty (length (temp_files w)) +:+ ".json";
     agent_extract_data := λ _, extracted;
     now_isoformat := λ _, "2025-01-01T00:00:00";
     has_missing_fields := λ _, field_names missing;
     company_config := JDict ∅;
     extract_with_rag := λ _ _ fields _, answers fields;
     embedding_first := false |}.

(** The section ["benefits"] of the stored result of a document, if any. *)
Definition stored_benefits (w : world) (doc_id : string)
    : option (gmap string json) :=
  match result_files w !! doc_id with
  | Some (JDict record) =>
      match record !! "result" with
      | Some (JDict result) =>
          match result !! "benefits" with
          | Some (JDict section) => Some section
          | _ => None
          end
      | _ => None
      end
  | _ => None
  end.

(** The status of the stored result of a document, if any. *)
Definition stored_status (w : world) (doc_id : string) : option json :=
  match result_files w !! doc_id with
  | Some (JDict record) => record !! "status"
  | _ => None
  end.

(** Collaborators that never raise. *)
Definition quiet : env := collaborators no_fault 0.

(** What the embedding workers hand to the writer: one file of 4999 nodes,
    then one of a single node. *)
Definition threshold_payloads
    : list (string * list Document * list BaseNode) :=
  [("a.pdf", [page], replicate 4999 (mkNode "chunk" ∅))].

Definition threshold_last : string * list Document * list BaseNode :=
  ("b.pdf", [page], [mkNode "last" ∅]).

End Scenario.


(** ** extraction_component.py: reading and writing stored results *)

Module ExtractionStore.
Import Py.


(** [extraction_dir.exists()] / [extraction_dir.is_dir()]: the directory of
    an id exists once [chunks.json] or [result.json] was written under it. *)
Definition dir_exists (w : world) (id : string) : bool :=
  match chunk_files w !! id, result_files w !! id with
  | None, None => false
  | _, _ => true
  end.



Section Methods.
Context (E : env).

(** [get_extraction_result] (lines 188-197). *)
Definition get_extraction_result {R} (doc_id : string)
    : M world R (option json) :=
  w ← get;
  if negb (dir_exists w doc_id) then mret None else
  match result_files w !! doc_id with
  | Some stored => ext E OpLoadResult;; mret (Some stored)
  | None => mret None
  end.

(** [get_latest_extraction_by_doc_id] (lines 199-201). *)
Definition get_latest_extraction_by_doc_id {R} (doc_id : string)
    : M world R (option json) :=
  get_extraction_result doc_id.



End Methods.


End ExtractionStore.

(** ** [_save_docs], [ingest] and [bulk_ingest] of the synchronous
    orchestrators

    [parse_fault] lets the parser fail on some files and not on others,
    besides the faults of [E]. *)

Section ParseFile.
Import Py.
Context (E : env) (parse_fault : string → string → option exn).

(** [IngestionHelper.transform_file_into_documents(file_name, file_data)] *)
Definition parse_file {R} (file_name file_data : string)
    : M world R (list Document) :=
  match parse_fault file_name file_data with
  | Some e => raise e
  | None =>
      ext E OpTransformFile;;
      mret (transform_file_into_documents E file_name file_data)
  end.
End ParseFile.

Module SimpleIngestComponentBulk.
Import Py Background.

Section Methods.
Context (E : env) (parse_fault : string → string → option exn).

(** [SimpleIngestComponent._save_docs] (lines 347-368). *)
Definition _save_docs {R} (documents : list Document)
    : M world R (list Document) :=
  ext E OpRunTransformations;;
  let nodes := run_transformations E documents in
  let batch_size := default 32 (attr_embed_batch_size E) in
  insert_in_batches E nodes batch_size;;
  set_document_hashes E documents;;
  _save_index E;;
  mret documents.

(** [SimpleIngestComponent.bulk_ingest] (lines 338-345). *)
Definition bulk_ingest {R} (files : list (string * string))
    : M world R (list Document) :=
  fold_each files [] (λ saved_documents file,
    documents ← parse_file E parse_fault file.1 file.2;
    saved ← _save_docs documents;
    mret (saved_documents ++ saved)).
End Methods.

End SimpleIngestComponentBulk.

Module BatchIngestComponent.
Import Py Background.

(** [__init__] (lines 377-397): the two assertions; yields
    [self.count_workers]. *)
Definition __init__ (transformations : nat) (count_workers : Z) : exn + Z :=
  if negb (Z.leb 2 (Z.of_nat transformations)) then
    inl (Exception "Embeddings must be in the transformations")
  else if negb (Z.ltb 0 count_workers) then
    inl (Exception "count_workers must be > 0")
  else inr count_workers.

Section Methods.
Context (E : env) (parse_fault : string → string → option exn).

(** [BatchIngestComponent._save_docs] (lines 423-444). *)
Definition _save_docs {R} (documents : list Document)
    : M world R (list Document) :=
  ext E OpRunTransformations;;
  let nodes := run_transformations E documents in
  let batch_size := default 32 (attr_embed_batch_size E) in
  insert_in_batches E nodes batch_size;;
  set_document_hashes E documents;;
  _save_index E;;
  mret documents.

(** [BatchIngestComponent.ingest] (lines 399-406). *)
Definition ingest {R} (file_name file_data : string)
    : M world R (list Document) :=
  documents ← parse_file E parse_fault file_name file_data;
  _save_docs documents.

(** [BatchIngestComponent.bulk_ingest] (lines 408-421): [starmap] parses
    every file, and raises if one of them raised; the documents of all files
    are then saved at once. *)
Definition bulk_ingest {R} (files : list (string * string))
    : M world R (list Document) :=
  documents ← fold_each files [] (λ documents file,
    parsed ← parse_file E parse_fault file.1 file.2;
    mret (documents ++ parsed));
  _save_docs documents.
End Methods.

End BatchIngestComponent.

Module ParallelizedIngestComponentBulk.
Import Py.

Section Methods.
Context (E : env).

(** [ParallelizedIngestComponent.bulk_ingest] (lines 711-718), the branch
    [if self.extraction_component:]. *)
Definition bulk_ingest {R} (files : list (string * string))
    : M world R (list Document) :=
  fold_each files [] (λ saved_documents file,
    docs ← ParallelizedIngestComponent.ingest E true file.1 file.2;
    mret (saved_documents ++ docs)).
End Methods.

End ParallelizedIngestComponentBulk.

(** The value at the path of keys [p], if the path exists. *)
Fixpoint get_path (p : list string) (v : json) : option json :=
  match p with
  | [] => Some v
  | k :: p' =>
      match v with
      | JDict m =>
          match m !! k with
          | Some v' => get_path p' v'
          | None => None
          end
      | _ => None
      end
  end.

Module Scenario2.
Import Py.




(** A stored result and what the query service found for it. *)
Definition stored_result : gmap string json :=
  {[ "plan" := JDict {[ "name" := JStr "Gold" ]};
     "carrier" := JStr "Acme" ]}.

Definition found_fields : gmap string json :=
  {[ "plan" := JDict {[ "deductible" := JNum 500 ]} ]}.

End Scenario2.

(** The three copies of [_save_docs]: of [SimpleIngestComponent],
    [BatchIngestComponent] and [ParallelizedIngestComponent]. *)
Definition save_docs_copies (E : env) {R}
    : list (list Document → Py.M world R (list Document)) :=
  [ SimpleIngestComponentBulk._save_docs E;
    BatchIngestComponent._save_docs E;
    ParallelizedIngestComponent._save_docs E ].

(** [getattr(self.embed_model, 'embed_batch_size', 32)] *)
Definition embed_batch_size (E : env) : Z :=
  default 32 (attr_embed_batch_size E).

Module Scenario3.
Import Py.

(** A parser that fails on the file named ["bad.pdf"]. *)
Definition corrupt_bad_pdf : string → string → option exn :=
  λ file_name _,
    if String.eqb file_name "bad.pdf" then Some (Exception "corrupt file")
    else None.

Definition no_parse_fault : string → string → option exn := λ _ _, None.

Definition three_files : list (string * string) :=
  [("a.pdf", "/in/a.pdf"); ("bad.pdf", "/in/bad.pdf"); ("c.pdf", "/in/c.pdf")].

(** Quiet collaborators whose embedding model has this
    [embed_batch_size]. *)
Definition with_embed_batch_size (n : Z) : env :=
  {| fault := Scenario.no_fault;
     uuid4 := uuid4 Scenario.quiet;
     stored_path := stored_path Scenario.quiet;
     entry_present := entry_present Scenario.quiet;
     transform_file_into_documents :=
       transform_file_into_documents Scenario.quiet;
     run_transformations := run_transformations Scenario.quiet;
     attr_batch_size := None;
     attr_embed_batch_size := Some n;
     temp_name := temp_name Scenario.quiet;
     agent_extract_data := agent_extract_data Scenario.quiet;
     now_isoformat := now_isoformat Scenario.quiet;
     has_missing_fields := has_missing_fields Scenario.quiet;
     company_config := company_config Scenario.quiet;
     extract_with_rag := extract_with_rag Scenario.quiet;
     embedding_first := false |}.

End Scenario3.

(** The later world has the phase writes of the earlier one, followed by
    writes of other phases than ['error']. *)
Definition writes_no_error : relation world :=
  λ w w', ∃ writes,
    phase_log w' = phase_log w ++ writes
    ∧ Forall (λ write : string * string, write.2 ≠ "error") writes.

(** A block that falls through or returns, whatever the world. *)
Definition never_raises {W R A} (m : Py.M W R A) : Prop :=
  ∀ w e, (m w).1 ≠ Py.Raise e.

(** What a stored record may become under reconciliation: nothing changes,
    or its ["result"] is replaced by a mapping that has every top-level
    field of the old result. *)
Definition only_result_grows (doc_id : string)
    (record result : gmap string json) (w w' : world) : Prop :=
  result_files w' = result_files w
  ∨ ∃ final,
      result_files w'
      = <[doc_id := JDict (<["result" := JDict final]> record)]>
          (result_files w)
      ∧ ∀ k, is_Some (result !! k) → is_Some (final !! k).

(** The stacks of the writer are filled together: with no file pending, no
    node and no document is. *)
Definition stacks_in_step (s : PipelineIngestComponent.writer) : Prop :=
  PipelineIngestComponent.file_stack s = [] →
  PipelineIngestComponent.node_stack s = []
  ∧ PipelineIngestComponent.doc_stack s = [].

(** ** What a background thread of [ingest] does *)

Section ThreadWork.
Context (E : env) (file_name stored_file_path doc_id : string).




End ThreadWork.

(** ** The threads of [PipelineIngestComponent]

    The dispatcher thread [_doc_to_node], the pool workers
    [_doc_to_node_worker], the writer thread [_write_nodes] and one caller of
    [ingest] or [bulk_ingest], as a machine that takes one atomic step of
    one thread at a time; a schedule names the thread of each step.  The
    queues follow [queue.Queue]: [put] blocks while the queue holds
    [maxsize] items and counts the item as unfinished, [get] blocks on an
    empty queue, [task_done] raises [ValueError] when nothing is unfinished,
    [join] blocks until nothing is.  A blocked step is [None]. *)

Module PipelineThreads.
Import Py Background PipelineIngestComponent.

(** What a [process] item of [doc_q] carries. *)
Definition payload : Type := string * list Document.

(** An item of [doc_q]: [("process", file_name, documents)],
    [("flush", None, None)] or [("quit", ...)]. *)
Inductive doc_item : Type :=
  | DocProcess (file_name : string) (documents : list Document)
  | DocFlush
  | DocQuit.

(** Where [_doc_to_node] stands (lines 823-842): in [doc_q.get], in
    [doc_semaphore.acquire()], before [pool.apply_async], in the
    [doc_q.task_done()] of the [finally], or out of the loop. *)
Inductive dispatcher_at : Type :=
  | DispatcherGet
  | DispatcherAcquire (file_name : string) (documents : list Document)
  | DispatcherApply (file_name : string) (documents : list Document)
  | DispatcherTaskDone (quit : bool)
  | DispatcherReturned
  | DispatcherDead (e : exn).

(** Where a call of [_doc_to_node_worker] stands (lines 844-855): in
    [run_transformations], in [node_q.put], in [doc_semaphore.release()] or
    in [doc_q.task_done()]. *)
Inductive worker_at : Type :=
  | WorkerTransform (file_name : string) (documents : list Document)
  | WorkerPut (file_name : string) (documents : list Document)
      (nodes : list BaseNode)
  | WorkerRelease
  | WorkerTaskDone.

(** Where [_write_nodes] stands: in [node_q.get], or holding an item. *)
Inductive writer_at : Type :=
  | WriterGet
  | WriterItem (it : item)
  | WriterReturned
  | WriterDead (e : exn).

(** Where the caller stands: in the loop of [bulk_ingest] with the parsed
    files still to put (for [ingest], the one file), with [CallerPut []] the
    first [put] of [_flush]; then [doc_q.join()], the second [put] and
    [node_q.join()] (lines 902-906). *)
Inductive caller_at : Type :=
  | CallerPut (rest : list payload)
  | CallerJoinDoc
  | CallerPutNode
  | CallerJoinNode
  | CallerReturned.

(** The state of the machine.  [dropped] and [node_q_history] are logs kept
    for the statements below: the files whose transformation raised, and
    every item put on [node_q] so far. *)
Record pipeline : Type := mkPipeline {
  doc_q : list doc_item;
  doc_q_unfinished : nat;
  node_q : list item;
  node_q_unfinished : nat;
  semaphore : nat;
  dispatcher : dispatcher_at;
  workers : list worker_at;
  writer_thread : writer_at;
  writer_state : writer;
  caller : caller_at;
  dropped : list payload;
  node_q_history : list item;
}.

(** [Queue.put]'s test: [maxsize <= 0] is an unbounded queue. *)
Definition queue_full {A} (maxsize : Z) (q : list A) : bool :=
  Z.ltb 0 maxsize && Z.leb maxsize (Z.of_nat (length q)).

(** [self.doc_q.put(item)] *)
Definition put_doc (it : doc_item) (s : pipeline) : pipeline :=
  mkPipeline (doc_q s ++ [it]) (S (doc_q_unfinished s)) (node_q s)
    (node_q_unfinished s) (semaphore s) (dispatcher s) (workers s)
    (writer_thread s) (writer_state s) (caller s) (dropped s)
    (node_q_history s).

(** [self.node_q.put(item)] *)
Definition put_node (it : item) (s : pipeline) : pipeline :=
  mkPipeline (doc_q s) (doc_q_unfinished s) (node_q s ++ [it])
    (S (node_q_unfinished s)) (semaphore s) (dispatcher s) (workers s)
    (writer_thread s) (writer_state s) (caller s) (dropped s)
    (node_q_history s ++ [it]).

Definition set_caller (v : caller_at) (s : pipeline) : pipeline :=
  mkPipeline (doc_q s) (doc_q_unfinished s) (node_q s) (node_q_unfinished s)
    (semaphore s) (dispatcher s) (workers s) (writer_thread s)
    (writer_state s) v (dropped s) (node_q_history s).

Definition set_dispatcher (v : dispatcher_at) (s : pipeline) : pipeline :=
  mkPipeline (doc_q s) (doc_q_unfinished s) (node_q s) (node_q_unfinished s)
    (semaphore s) v (workers s) (writer_thread s) (writer_state s)
    (caller s) (dropped s) (node_q_history s).

Definition set_doc_q (v : list doc_item) (s : pipeline) : pipeline :=
  mkPipeline v (doc_q_unfinished s) (node_q s) (node_q_unfinished s)
    (semaphore s) (dispatcher s) (workers s) (writer_thread s)
    (writer_state s) (caller s) (dropped s) (node_q_history s).

Definition set_doc_q_unfinished (v : nat) (s : pipeline) : pipeline :=
  mkPipeline (doc_q s) v (node_q s) (node_q_unfinished s)
    (semaphore s) (dispatcher s) (workers s) (writer_thread s)
    (writer_state s) (caller s) (dropped s) (node_q_history s).

Definition set_node_q (v : list item) (s : pipeline) : pipeline :=
  mkPipeline (doc_q s) (doc_q_unfinished s) v (node_q_unfinished s)
    (semaphore s) (dispatcher s) (workers s) (writer_thread s)
    (writer_state s) (caller s) (dropped s) (node_q_history s).

Definition set_semaphore (v : nat) (s : pipeline) : pipeline :=
  mkPipeline (doc_q s) (doc_q_unfinished s) (node_q s) (node_q_unfinished s)
    v (dispatcher s) (workers s) (writer_thread s) (writer_state s)
    (caller s) (dropped s) (node_q_history s).

Definition set_workers (v : list worker_at) (s : pipeline) : pipeline :=
  mkPipeline (doc_q s) (doc_q_unfinished s) (node_q s) (node_q_unfinished s)
    (semaphore s) (dispatcher s) v (writer_thread s) (writer_state s)
    (caller s) (dropped s) (node_q_history s).

Definition set_dropped (v : list payload) (s : pipeline) : pipeline :=
  mkPipeline (doc_q s) (doc_q_unfinished s) (node_q s) (node_q_unfinished s)
    (semaphore s) (dispatcher s) (workers s) (writer_thread s)
    (writer_state s) (caller s) v (node_q_history s).

(** The writer after an item: its thread, its state and the unfinished
    count of [node_q]. *)
Definition set_writer (t : writer_at) (ws : writer) (unfinished : nat)
    (s : pipeline) : pipeline :=
  mkPipeline (doc_q s) (doc_q_unfinished s) (node_q s) unfinished
    (semaphore s) (dispatcher s) (workers s) t ws (caller s) (dropped s)
    (node_q_history s).

(** Who takes the next step; a worker in [run_transformations] returns or
    raises. *)
Inductive action : Type :=
  | Caller
  | Dispatcher
  | Worker (i : nat) (raises : bool)
  | Writer.

Definition too_many : exn := Exception "task_done() called too many times".

Section Machine.
Context (E : env) (c : component).

Definition caller_step (s : pipeline) : option pipeline :=
  match caller s with
  | CallerPut (p :: rest) =>
      if queue_full (doc_q_maxsize c) (doc_q s) then None
      else Some (set_caller (CallerPut rest) (put_doc (DocProcess p.1 p.2) s))
  | CallerPut [] =>
      if queue_full (doc_q_maxsize c) (doc_q s) then None
      else Some (set_caller CallerJoinDoc (put_doc DocFlush s))
  | CallerJoinDoc =>
      match doc_q_unfinished s with
      | O => Some (set_caller CallerPutNode s)
      | S _ => None
      end
  | CallerPutNode =>
      if queue_full (node_q_maxsize c) (node_q s) then None
      else Some (set_caller CallerJoinNode (put_node Flush s))
  | CallerJoinNode =>
      match node_q_unfinished s with
      | O => Some (set_caller CallerReturned s)
      | S _ => None
      end
  | CallerReturned => None
  end.

Definition dispatcher_step (s : pipeline) : option pipeline :=
  match dispatcher s with
  | DispatcherGet =>
      match doc_q s with
      | [] => None
      | it :: q =>
          Some (set_dispatcher
                  (match it with
                   | DocProcess file_name documents =>
                       DispatcherAcquire file_name documents
                   | DocFlush => DispatcherTaskDone false
                   | DocQuit => DispatcherTaskDone true
                   end)
                  (set_doc_q q s))
      end
  | DispatcherAcquire file_name documents =>
      match semaphore s with
      | O => None
      | S n =>
          Some (set_dispatcher (DispatcherApply file_name documents)
                  (set_semaphore n s))
      end
  | DispatcherApply file_name documents =>
      Some (set_dispatcher DispatcherGet
              (set_workers
                 (workers s ++ [WorkerTransform file_name documents]) s))
  | DispatcherTaskDone quit =>
      match doc_q_unfinished s with
      | O => Some (set_dispatcher (DispatcherDead too_many) s)
      | S n =>
          Some (set_dispatcher
                  (if quit then DispatcherReturned else DispatcherGet)
                  (set_doc_q_unfinished n s))
      end
  | DispatcherReturned | DispatcherDead _ => None
  end.

(** A worker that raises, in [run_transformations] or in [task_done], ends;
    the pool keeps the exception in a result nobody reads. *)
Definition worker_step (i : nat) (raises : bool) (s : pipeline)
    : option pipeline :=
  match workers s !! i with
  | None => None
  | Some (WorkerTransform file_name documents) =>
      if raises then
        Some (set_dropped (dropped s ++ [(file_name, documents)])
                (set_workers (<[i := WorkerRelease]> (workers s)) s))
      else
        Some (set_workers
                (<[i := WorkerPut file_name documents
                          (run_transformations E documents)]> (workers s)) s)
  | Some (WorkerPut file_name documents nodes) =>
      if queue_full (node_q_maxsize c) (node_q s) then None
      else
        Some (set_workers (<[i := WorkerRelease]> (workers s))
                (put_node (Process file_name documents nodes) s))
  | Some WorkerRelease =>
      Some (set_workers (<[i := WorkerTaskDone]> (workers s))
              (set_semaphore (S (semaphore s)) s))
  | Some WorkerTaskDone =>
      Some (set_workers (delete i (workers s))
              (set_doc_q_unfinished (pred (doc_q_unfinished s)) s))
  end.

(** The writer holding an item runs one turn of its loop; the
    [node_q.task_done()] of the turn's [finally] is counted here. *)
Definition writer_step (s : pipeline) : option pipeline :=
  match writer_thread s with
  | WriterGet =>
      match node_q s with
      | [] => None
      | it :: q =>
          Some (set_writer (WriterItem it) (writer_state s)
                  (node_q_unfinished s) (set_node_q q s))
      end
  | WriterItem it =>
      let turn := @write_item E Empty_set it (writer_state s) in
      match node_q_unfinished s with
      | O => Some (set_writer (WriterDead too_many) turn.2 O s)
      | S n =>
          Some (set_writer
                  (match turn.1 with
                   | Normal true => WriterReturned
                   | Normal false => WriterGet
                   | Raise e => WriterDead e
                   | Return r => match r with end
                   end) turn.2 n s)
      end
  | WriterReturned | WriterDead _ => None
  end.

Definition step (a : action) (s : pipeline) : option pipeline :=
  match a with
  | Caller => caller_step s
  | Dispatcher => dispatcher_step s
  | Worker i raises => worker_step i raises s
  | Writer => writer_step s
  end.

Fixpoint run_schedule (schedule : list action) (s : pipeline)
    : option pipeline :=
  match schedule with
  | [] => Some s
  | a :: rest =>
      match step a s with
      | Some s' => run_schedule rest s'
      | None => None
      end
  end.

(** The component after [__init__], its writer holding nothing, when a
    caller enters [ingest] or [bulk_ingest] with these parsed files. *)
Definition start (w : world) (files : list payload) : pipeline :=
  mkPipeline [] 0 [] 0 (Z.to_nat (doc_semaphore c)) DispatcherGet []
    WriterGet (new_writer w) (CallerPut files) [] [].
End Machine.

Section Callers.
Context (E : env) (parse_fault : string → string → option exn).

(** [ingest] (lines 908-912): what it puts before [_flush], and what it
    returns after it. *)
Definition ingest (file_name file_data : string)
    : exn + (list payload * list Document) :=
  match parse_fault file_name file_data with
  | Some e => inl e
  | None =>
      let documents := transform_file_into_documents E file_name file_data in
      inr ([(file_name, documents)], documents)
  end.

(** [bulk_ingest] (lines 914-926): a file that fails to parse is skipped.
    The items are put while later files are parsed; parsing does not depend
    on the queues, so the files are parsed first here. *)
Definition bulk_ingest (files : list (string * string))
    : list payload * list Document :=
  foldl (λ acc file,
           match parse_fault file.1 file.2 with
           | Some _ => acc
           | None =>
               let documents :=
                 transform_file_into_documents E file.1 file.2 in
               (acc.1 ++ [(file.1, documents)], acc.2 ++ documents)
           end) ([], []) files.
End Callers.

(** The semaphore a thread holds. *)
Definition holds_semaphore (d : dispatcher_at) : nat :=
  match d with DispatcherApply _ _ => 1 | _ => 0 end.

Definition busy (wk : worker_at) : nat :=
  match wk with WorkerTaskDone => 0 | _ => 1 end.

(** The item of [doc_q] a thread took and has not reported done. *)
Definition holds_item (d : dispatcher_at) : nat :=
  match d with
  | DispatcherAcquire _ _ | DispatcherApply _ _ | DispatcherTaskDone _ => 1
  | _ => 0
  end.

Definition writing (t : writer_at) : nat :=
  match t with WriterItem _ => 1 | _ => 0 end.

(** The workers inside [run_transformations]. *)
Definition transforming (wk : worker_at) : bool :=
  match wk with WorkerTransform _ _ => true | _ => false end.






(** The files an item of either queue, or a thread, carries. *)
Definition doc_item_files (it : doc_item) : list payload :=
  match it with DocProcess f d => [(f, d)] | _ => [] end.

Definition item_files (it : item) : list payload :=
  match it with Process f d _ => [(f, d)] | _ => [] end.

Definition dispatcher_files (d : dispatcher_at) : list payload :=
  match d with
  | DispatcherAcquire f d | DispatcherApply f d => [(f, d)]
  | _ => []
  end.

Definition worker_files (wk : worker_at) : list payload :=
  match wk with
  | WorkerTransform f d | WorkerPut f d _ => [(f, d)]
  | _ => []
  end.

Definition caller_files (p : caller_at) : list payload :=
  match p with CallerPut rest => rest | _ => [] end.

(** A dispatcher or writer that is in its loop. *)
Definition dispatcher_running (d : dispatcher_at) : bool :=
  match d with
  | DispatcherGet | DispatcherAcquire _ _ | DispatcherApply _ _
  | DispatcherTaskDone false => true
  | _ => false
  end.

Definition writer_running (t : writer_at) : bool :=
  match t with
  | WriterGet => true
  | WriterItem Quit => false
  | WriterItem _ => true
  | _ => false
  end.

(** How the counters of the semaphore and of the two queues relate to what
    the threads hold. *)
Definition counters (c : component) (s : pipeline) : Prop :=
  (semaphore s + holds_semaphore (dispatcher s)
     + sum_list (busy <$> workers s))%nat
  = Z.to_nat (doc_semaphore c)
  ∧ doc_q_unfinished s
    = (length (doc_q s) + holds_item (dispatcher s)
         + length (workers s))%nat
  ∧ node_q_unfinished s
    = (length (node_q s) + writing (writer_thread s))%nat
  ∧ ((0 < doc_q_maxsize c)%Z →
       (Z.of_nat (length (doc_q s)) ≤ doc_q_maxsize c)%Z)
  ∧ ((0 < node_q_maxsize c)%Z →
       (Z.of_nat (length (node_q s)) ≤ node_q_maxsize c)%Z).

(** Nobody puts [quit], so both loops go on. *)
Definition threads_alive (s : pipeline) : Prop :=
  (DocQuit ∉ doc_q s) ∧ (Quit ∉ node_q s)
  ∧ dispatcher_running (dispatcher s) = true
  ∧ writer_running (writer_thread s) = true
  ∧ stacks_in_step (writer_state s).

(** The item the writer holds. *)
Definition writer_holds (t : writer_at) : list item :=
  match t with WriterItem it => [it] | _ => [] end.

(** Where the files of the call are, and what the writer has done. *)
Definition files_tracked (E : env) (w : world) (files : list payload)
    (s : pipeline) : Prop :=
  files ≡ₚ caller_files (caller s) ++ (doc_q s ≫= doc_item_files)
            ++ dispatcher_files (dispatcher s)
            ++ (workers s ≫= worker_files)
            ++ dropped s ++ (node_q_history s ≫= item_files)
  ∧ Forall (λ wk, match wk with
                  | WorkerPut _ d n => n = run_transformations E d
                  | _ => True
                  end) (workers s)
  ∧ Forall (λ it, match it with
                  | Process _ d n => n = run_transformations E d
                  | Flush => True
                  | Quit => False
                  end) (node_q_history s)
  ∧ ∃ taken,
      node_q_history s = taken ++ writer_holds (writer_thread s) ++ node_q s
      ∧ writer_state s
        = (@_write_nodes E Empty_set taken (new_writer w)).2.

(** What the caller has waited for. *)
Definition caller_waited (s : pipeline) : Prop :=
  match caller s with
  | CallerPut _ | CallerJoinDoc => Flush ∉ node_q_history s
  | CallerPutNode => doc_q_unfinished s = 0%nat ∧ Flush ∉ node_q_history s
  | CallerJoinNode =>
      doc_q_unfinished s = 0%nat
      ∧ ∃ received, node_q_history s = received ++ [Flush]
                    ∧ Flush ∉ received
  | CallerReturned =>
      doc_q_unfinished s = 0%nat ∧ node_q_unfinished s = 0%nat
      ∧ ∃ received, node_q_history s = received ++ [Flush]
                    ∧ Flush ∉ received
  end.

(** Everything that holds in every state a schedule reaches. *)
Definition reachable_facts (E : env) (c : component) (w : world)
    (files : list payload) (s : pipeline) : Prop :=
  counters c s ∧ threads_alive s ∧ files_tracked E w files s
  ∧ caller_waited s.

End PipelineThreads.

Module Scenario4.
Import Py PipelineIngestComponent PipelineThreads.

(** A component with two workers. *)
Definition two_workers : component := mkComponent 2 2 20 40.

(** One file through the pipeline, every thread in turn. *)
Definition one_file : list payload := [("a.pdf", [Scenario.page])].

Definition in_turn : list action :=
  [ Caller; Caller;
    Dispatcher; Dispatcher; Dispatcher;
    Worker 0 false; Worker 0 false; Worker 0 false; Worker 0 false;
    Dispatcher; Dispatcher;
    Caller; Caller;
    Writer; Writer; Writer; Writer;
    Caller ].

(** The state this schedule ends in. *)
Definition returned : pipeline :=
  default (start two_workers empty_world one_file)
    (run_schedule Scenario.quiet two_workers in_turn
       (start two_workers empty_world one_file)).

End Scenario4.
(** * Properties *)

(** ** Induction on nested dictionaries *)

Lemma json_size_lookup (m : gmap string json) k v :
  m !! k = Some v → (json_size v < json_size (JDict m))%nat.
Proof.
  intros Hk. simpl.
  rewrite <-(insert_delete_id m k v) by done.
  rewrite map_fold_insert_L.
  - lia.
  - intros; lia.
  - by rewrite lookup_delete_eq.
Qed.

Lemma json_dict_ind (P : json → Prop) :
  P JNull → (∀ b, P (JBool b)) → (∀ z, P (JNum z)) → (∀ s, P (JStr s)) →
  (∀ l, P (JList l)) →
  (∀ m, map_Forall (λ _ v, P v) m → P (JDict m)) →
  ∀ j, P j.
Proof.
  intros Hn Hb Hz Hs Hl Hd j.
  remember (json_size j) as n eqn:Hsz. revert j Hsz.
  induction (lt_wf n) as [n _ IH]. intros j ->.
  destruct j; auto.
  apply Hd. intros k v Hk. eapply IH; [|reflexivity].
  by eapply json_size_lookup.
Qed.

(** ** [deep_update] *)

Section DeepUpdateFacts.
Import DeepUpdate.

Lemma deep_update_unfold d um :
  deep_update d (JDict um) =
  map_fold (λ k v d, <[k := stored deep_update (d !! k) v]> d) d um.
Proof. reflexivity. Qed.

(** What the loop leaves at each key: keys of the overlay get the stored
    value computed from the base's original entry, other keys are not
    touched. *)
Lemma deep_update_lookup d um k :
  deep_update d (JDict um) !! k =
  match um !! k with
  | Some v => Some (stored deep_update (d !! k) v)
  | None => d !! k
  end.
Proof.
  rewrite deep_update_unfold. revert k.
  apply (map_fold_weak_ind (λ r m, ∀ k, r !! k =
    match m !! k with
    | Some v => Some (stored deep_update (d !! k) v)
    | None => d !! k
    end)).
  - intros k. by rewrite lookup_empty.
  - intros i x m r Hi IH k.
    destruct (decide (i = k)) as [->|Hne].
    + rewrite !lookup_insert_eq. by rewrite IH, Hi.
    + rewrite !lookup_insert_ne by done. apply IH.
Qed.

Lemma deep_update_not_dict d u : is_dict u = false → deep_update d u = d.
Proof. by destruct u. Qed.

Lemma deep_update_keeps d u k :
  is_Some (d !! k) → is_Some (deep_update d u !! k).
Proof.
  destruct u; try done. rewrite deep_update_lookup.
  destruct (m !! k); eauto.
Qed.

Lemma deep_update_ne d u : d ≠ ∅ → deep_update d u ≠ ∅.
Proof.
  intros Hd He. destruct (map_choose d Hd) as (k & x & Hk).
  destruct (deep_update_keeps d u k) as [y Hy]; [eauto|].
  by rewrite He, lookup_empty in Hy.
Qed.

(** Every key of the overlay is a key of the result. *)
Lemma deep_update_overlay_keys d um k :
  is_Some (um !! k) → is_Some (deep_update d (JDict um) !! k).
Proof. intros [v Hv]. rewrite deep_update_lookup, Hv. eauto. Qed.

(** Merging a dictionary into itself changes nothing. *)
Lemma deep_update_self m : deep_update m (JDict m) = m.
Proof.
  change ((λ j, match j with
                | JDict m => deep_update m (JDict m) = m
                | _ => True
                end) (JDict m)).
  generalize (JDict m) as j. clear m.
  induction j as [| | | | |m IH] using json_dict_ind; try done.
  apply map_eq; intros k. rewrite deep_update_lookup.
  destruct (m !! k) as [v|] eqn:Hk; [|done].
  f_equal. destruct v as [| | | | |vm]; try done.
  unfold stored. case_decide; [done|].
  f_equal. exact (IH k _ Hk).
Qed.

(** Every field of the overlay, at any depth, is a field of the result. *)
Lemma deep_update_has_path p : ∀ d um,
  has_path p (JDict um) → has_path p (JDict (deep_update d (JDict um))).
Proof.
  induction p as [|k p IH]; intros d um; [done|].
  cbn [has_path]. rewrite deep_update_lookup.
  destruct (um !! k) as [v|] eqn:Hk; [|done].
  intros Hv. destruct v as [| | | | |vm]; try done.
  cbn [stored]. destruct (d !! k) as [[| | | | |dk]|]; try done.
  case_decide; [done|]. by apply IH.
Qed.

(** C2: for every base [d], overlay [u] and key [k] of [u] with value [v],
    [deep_update(d, u)] holds at [k]: the recursive merge of [d[k]] and [v]
    when [v] is a mapping and [d[k]] is a non-empty mapping; [v] itself
    when [v] is a mapping and [d] has no mapping at [k] or an empty one;
    and [v] itself when [v] is not a mapping. *)
Theorem deep_update_at_overlay_key (d um : gmap string json) (k : string)
    (v : json) :
  um !! k = Some v →
  (∀ dk, is_dict v = true → d !! k = Some (JDict dk) → dk ≠ ∅ →
     deep_update d (JDict um) !! k = Some (JDict (deep_update dk v)))
  ∧ (is_dict v = true →
     (∀ dk, d !! k = Some (JDict dk) → dk = ∅) →
     deep_update d (JDict um) !! k = Some v)
  ∧ (is_dict v = false → deep_update d (JDict um) !! k = Some v).
Proof.
  intros Hk. rewrite deep_update_lookup, Hk. split_and!.
  - intros dk Hv Hd Hne. rewrite Hd. destruct v; try done.
    unfold stored. by rewrite decide_False.
  - intros Hv Hd. destruct v; try done. unfold stored.
    destruct (d !! k) as [[| | | | |dk]|]; try done.
    by rewrite decide_True by eauto.
  - intros Hv. by destruct v.
Qed.

(** C4: [deep_update] is idempotent in the overlay:
    [deep_update(deep_update(b, o), o) == deep_update(b, o)]. *)
Theorem deep_update_idempotent (o : json) (b : gmap string json) :
  deep_update (deep_update b o) o = deep_update b o.
Proof.
  revert b. induction o as [| | | | |um IH] using json_dict_ind; try done.
  intros d. apply map_eq; intros k.
  rewrite (deep_update_lookup (deep_update d (JDict um))), !deep_update_lookup.
  destruct (um !! k) as [v|] eqn:Hk; [|done].
  f_equal. destruct v as [| | | | |vm]; try done.
  destruct (d !! k) as [[| | | | |dk]|] eqn:Hd; cbn [stored].
  1-5,7: case_decide; [done|]; by rewrite deep_update_self.
  destruct (decide (dk = ∅)) as [->|Hne].
  - case_decide; [done|]. by rewrite deep_update_self.
  - rewrite decide_False by (by apply deep_update_ne).
    f_equal. exact (IH k _ Hk dk).
Qed.
End DeepUpdateFacts.

Definition c2_base : gmap string json :=
  {[ "plan" := JDict {[ "name" := JStr "Gold" ]};
     "dental" := JDict ∅;
     "notes" := JStr "n/a" ]}.
Definition c2_overlay : gmap string json :=
  {[ "plan" := JDict {[ "deductible" := JNum 500 ]};
     "dental" := JDict {[ "coverage" := JStr "80%" ]};
     "notes" := JNull ]}.

Lemma deep_update_at_overlay_key_witness :
  DeepUpdate.deep_update c2_base (JDict c2_overlay) !! "plan"
    = Some (JDict {[ "name" := JStr "Gold"; "deductible" := JNum 500 ]})
  ∧ DeepUpdate.deep_update c2_base (JDict c2_overlay) !! "dental"
    = Some (JDict {[ "coverage" := JStr "80%" ]})
  ∧ DeepUpdate.deep_update c2_base (JDict c2_overlay) !! "notes" = Some JNull.
Proof.
  split_and!.
  - destruct (deep_update_at_overlay_key c2_base c2_overlay "plan"
                (JDict {[ "deductible" := JNum 500 ]})) as (H & _ & _);
      [by vm_compute|].
    rewrite (H {[ "name" := JStr "Gold" ]}); [by vm_compute|done|by vm_compute|].
    intros He. by apply (f_equal (λ m, m !! "name")) in He.
  - destruct (deep_update_at_overlay_key c2_base c2_overlay "dental"
                (JDict {[ "coverage" := JStr "80%" ]})) as (_ & H & _);
      [by vm_compute|].
    apply H; [done|]. intros dk Hd. vm_compute in Hd.
    injection Hd as <-. reflexivity.
  - destruct (deep_update_at_overlay_key c2_base c2_overlay "notes" JNull)
      as (_ & _ & H); [by vm_compute|]. by apply H.
Defined.

(** ** Batching *)

Section Batching.
Context {A : Type}.
Implicit Types (l : list A) (n : nat).

Lemma py_range0_length stop step :
  length (py_range0 stop step) = ((stop + step - 1) / step)%nat.
Proof. unfold py_range0. by rewrite length_fmap, length_seq. Qed.

Lemma batch_fields_length l n :
  length (batch_fields l n) = ((length l + n - 1) / n)%nat.
Proof. unfold batch_fields. by rewrite length_fmap, py_range0_length. Qed.

(** No batch is longer than [batch_size]. *)
Lemma batch_fields_bound l n :
  Forall (λ batch, (length batch ≤ n)%nat) (batch_fields l n).
Proof.
  unfold batch_fields. apply Forall_fmap, Forall_forall. intros i _.
  unfold py_slice. simpl. rewrite length_take. lia.
Qed.

Lemma concat_slices l n q :
  concat ((λ i, py_slice l i n) <$> ((λ j, j * n)%nat <$> seq 0 q))
  = take (q * n) l.
Proof.
  induction q as [|q IH]; [done|].
  rewrite seq_S, !fmap_app, concat_app, IH. simpl.
  rewrite app_nil_r. unfold py_slice.
  rewrite take_take_drop. f_equal. lia.
Qed.

(** The batches, in order, make up the list again: no field is dropped or
    asked twice. *)
Lemma batch_fields_concat l n :
  (0 < n)%nat → concat (batch_fields l n) = l.
Proof.
  intros Hn. unfold batch_fields, py_range0. rewrite concat_slices.
  apply take_ge.
  pose proof (Nat.div_mod_eq (length l + n - 1) n) as Hd.
  pose proof (Nat.mod_upper_bound (length l + n - 1) n) as Hm.
  nia.
Qed.
End Batching.

Lemma batch_fields_25 (fields : list string) :
  length fields = 25%nat →
  length <$> batch_fields fields 10 = [10; 10; 5]%nat.
Proof.
  intros Hl. do 25 (destruct fields as [|? fields]; [done|]).
  by destruct fields.
Qed.

(** ** The exception monad *)

Section Frames.
Import Py.
Context {W : Type} (Rel : relation W) `{!PreOrder Rel}.
#[local] Abbreviation respects := (respects Rel).

Lemma respects_ret {R A} (a : A) : respects (@ret W R A a).
Proof. intros w. reflexivity. Qed.

Lemma respects_mret {R A} (a : A) : respects (mret a : M W R A).
Proof. apply respects_ret. Qed.

Lemma respects_raise {R A} e : respects (@raise W R A e).
Proof. intros w. reflexivity. Qed.

Lemma respects_return {R A} r : respects (@return_ W R A r).
Proof. intros w. reflexivity. Qed.

Lemma respects_get {R} : respects (@get W R).
Proof. intros w. reflexivity. Qed.

Lemma respects_modify {R} (f : W → W) :
  (∀ w, Rel w (f w)) → respects (@modify W R f).
Proof. intros Hf w. apply Hf. Qed.

Lemma respects_bind {R A B} (m : M W R A) (f : A → M W R B) :
  respects m → (∀ a, respects (f a)) → respects (m ≫= f).
Proof.
  intros Hm Hf w. unfold mbind, M_bind, bind. specialize (Hm w).
  destruct (m w) as [[a|e|r] w1]; simpl in *; try done.
  etrans; [exact Hm|apply Hf].
Qed.

Lemma respects_try_except {R A} (m : M W R A) h :
  respects m → (∀ e, respects (h e)) → respects (try_except m h).
Proof.
  intros Hm Hh w. unfold try_except. specialize (Hm w).
  destruct (m w) as [[a|e|r] w1]; simpl in *; try done.
  etrans; [exact Hm|apply Hh].
Qed.

Lemma respects_try_finally {R A} (m : M W R A) fin :
  respects m → respects fin → respects (try_finally m fin).
Proof.
  intros Hm Hf w. unfold try_finally. specialize (Hm w).
  destruct (m w) as [o w1]. specialize (Hf w1).
  destruct (fin w1) as [[a|e|r] w2]; simpl in *; by etrans.
Qed.

Lemma respects_for_each {R A} (xs : list A) (body : A → M W R unit) :
  (∀ x, respects (body x)) → respects (for_each xs body).
Proof.
  intros Hb. induction xs as [|x xs IH]; simpl.
  - apply respects_ret.
  - apply (respects_bind (body x)); auto.
Qed.

Lemma respects_fold_each {R A B} (xs : list A) (acc : B)
    (body : B → A → M W R B) :
  (∀ b x, respects (body b x)) → respects (fold_each xs acc body).
Proof.
  intros Hb. revert acc. induction xs as [|x xs IH]; intros acc; simpl.
  - apply respects_ret.
  - apply (respects_bind (body acc x)); auto.
Qed.

Lemma respects_when {R} c (m : M W R unit) :
  respects m → respects (when c m).
Proof. intros Hm. destruct c; [done|apply respects_ret]. Qed.

Lemma respects_call {R R'} (dflt : R) (body : M W R unit) :
  respects body → respects (@call W R R' dflt body).
Proof.
  intros Hb w. unfold call. specialize (Hb w).
  by destruct (body w) as [[a|e|r] w1].
Qed.

Lemma respects_thread_run {R A} (shared : A) target :
  (∀ a, respects (target a)) → respects (@thread_run W R A shared target).
Proof.
  intros Ht w. unfold thread_run. specialize (Ht shared w).
  by destruct (target shared w) as [[a|e|r] w1].
Qed.
End Frames.

(** Running sequenced statements. *)
Lemma run_bind {W R A B} (m : Py.M W R A) (f : A → Py.M W R B) w :
  (m ≫= f) w = match m w with
               | (Py.Normal a, w') => f a w'
               | (Py.Raise e, w') => (Py.Raise e, w')
               | (Py.Return r, w') => (Py.Return r, w')
               end.
Proof. reflexivity. Qed.

Lemma run_modify_bind {W R B} (g : W → W) (f : unit → Py.M W R B) w :
  (Py.modify g ≫= f) w = f tt (g w).
Proof. reflexivity. Qed.

Lemma run_get_bind {W R B} (f : W → Py.M W R B) w :
  (Py.get ≫= f) w = f w w.
Proof. reflexivity. Qed.

Lemma run_mret_bind {W R A B} (a : A) (f : A → Py.M W R B) w :
  (mret a ≫= f) w = f a w.
Proof. reflexivity. Qed.

(** A [finally] block that only updates the world always runs last and
    leaves the outcome of the body alone. *)
Lemma try_finally_modify {W R A} (m : Py.M W R A) (f : W → W) w :
  Py.try_finally m (Py.modify f) w = (fst (m w), f (snd (m w))).
Proof. unfold Py.try_finally, Py.modify. by destruct (m w). Qed.

Lemma zoom_respects {W V R A} (proj : W → V) (inj : V → W → W)
    (Rel : relation V) (m : Py.M V R A) w :
  respects Rel m → (∀ v, proj (inj v w) = v) →
  Rel (proj w) (proj (snd (Py.zoom proj inj m w))).
Proof.
  intros Hm Hpi. unfold Py.zoom. specialize (Hm (proj w)).
  destruct (m (proj w)) as [o v']. simpl in *. by rewrite Hpi.
Qed.

(** ** The world: which calls touch which component *)

#[local] Instance same_on_preorder {X} (f : world → X) : PreOrder (same_on f).
Proof. split; [by intros w|]. intros w1 w2 w3. unfold same_on. congruence. Qed.

#[local] Instance phase_extends_preorder : PreOrder phase_extends.
Proof.
  split.
  - intros w. unfold phase_extends. reflexivity.
  - intros w1 w2 w3. unfold phase_extends. by etrans.
Qed.

Lemma respects_ext (Rel : relation world) `{!PreOrder Rel} E {R} o :
  respects Rel (@ext E R o).
Proof. intros w. unfold ext. by destruct (fault E o w). Qed.

Lemma respects_new_uuid (Rel : relation world) E {R} :
  (∀ w, Rel w (set_uuid_count S w)) → respects Rel (@new_uuid E R).
Proof. intros H w. apply H. Qed.

(** Goals [respects Rel m] follow the structure of [m]. *)
Ltac frame :=
  repeat match goal with
  | |- PreOrder _ => apply _
  | |- ∀ _, _ => intro
  | |- respects _ (mbind _ _) => apply respects_bind
  | |- respects _ (mret _) => apply respects_mret
  | |- respects _ (Py.ret _) => apply respects_ret
  | |- respects _ (Py.raise _) => apply respects_raise
  | |- respects _ (Py.return_ _) => apply respects_return
  | |- respects _ Py.get => apply respects_get
  | |- respects _ (ext _ _) => apply respects_ext
  | |- respects _ (new_uuid _) => apply respects_new_uuid
  | |- respects _ (Py.modify _) => apply respects_modify
  | |- respects _ (Py.try_except _ _) => apply respects_try_except
  | |- respects _ (Py.try_finally _ _) => apply respects_try_finally
  | |- respects _ (Py.for_each _ _) => apply respects_for_each
  | |- respects _ (Py.fold_each _ _ _) => apply respects_fold_each
  | |- respects _ (Py.when _ _) => apply respects_when
  | |- respects _ (Py.call _ _) => apply respects_call
  | |- respects _ (Py.thread_run _ _) => apply respects_thread_run
  | |- respects _ (if ?c then _ else _) => destruct c
  | |- respects _ (match ?x with _ => _ end) => destruct x
  end.

Lemma same_on_phase_extends {R A} (m : Py.M world R A) :
  respects (same_on phase_log) m → respects phase_extends m.
Proof. intros Hm w. unfold phase_extends. by rewrite <-(Hm w). Qed.

Section IndexCalls.
Import Py Background.
Context (E : env) {R : Type}.

Lemma insert_nodes_log nodes w :
  insert_log (snd (@insert_nodes E R nodes w)) = insert_log w ++ [nodes].
Proof.
  unfold insert_nodes, mbind, M_bind, bind, modify, ext. simpl.
  by destruct (fault E OpInsertNodes _).
Qed.

Lemma set_document_hashes_insert_log documents :
  respects (same_on insert_log) (@set_document_hashes E R documents).
Proof.
  unfold set_document_hashes. by frame.
Qed.

Lemma _save_index_insert_log :
  respects (same_on insert_log) (@_save_index E R).
Proof.
  unfold _save_index. by frame.
Qed.
End IndexCalls.

(** ** [PipelineIngestComponent]: the writer *)

Section Writer.
Import Py Background PipelineIngestComponent.
Context (E : env).

Lemma index_block_log {R} nodes docs w :
  insert_log (snd ((insert_nodes E nodes;; set_document_hashes E docs;;
                    @_save_index E R) w))
  = insert_log w ++ [nodes].
Proof.
  unfold mbind, M_bind, bind.
  pose proof (insert_nodes_log E (R:=R) nodes w) as Hi.
  destruct (insert_nodes E nodes w) as [[[]|e|r] w1]; simpl in *; try done.
  pose proof (set_document_hashes_insert_log E (R:=R) docs w1) as Hh.
  destruct (set_document_hashes E docs w1) as [[[]|e|r] w2];
    simpl in *; unfold same_on in *; try congruence.
  pose proof (_save_index_insert_log E (R:=R) w2) as Hp.
  unfold same_on in Hp. congruence.
Qed.

(** What one flush attempt does, whatever the index calls do: exactly one
    [insert_nodes] call, with the nodes accumulated so far, and empty
    stacks afterwards. *)
Lemma _save_docs_spec (s : writer) :
  ∃ idx,
    @_save_docs E Empty_set s
      = (Normal tt,
         mkWriter idx [] [] [] (S (save_calls s)) (tasks_done s))
    ∧ insert_log idx = insert_log (index s) ++ [node_stack s].
Proof.
  unfold _save_docs. rewrite run_modify_bind, try_finally_modify.
  unfold try_except. rewrite run_get_bind. unfold zoom.
  cbn [index node_stack doc_stack].
  match goal with |- context [(insert_nodes E ?n ≫= ?k) ?w] =>
    pose proof (index_block_log (R:=Empty_set) n (doc_stack s) w) as Hlog;
    destruct ((insert_nodes E n ≫= k) w) as [[[]|e|[]] idx]
  end; simpl in *; by exists idx.
Qed.

Abbreviation run queue s := (snd (@_write_nodes E Empty_set queue s)).

(** A [process] item below the threshold only accumulates. *)
Lemma write_item_process_below (s : writer) file_name documents nodes :
  (Z.of_nat (length (node_stack s ++ nodes)) < NODE_FLUSH_COUNT)%Z →
  @write_item E Empty_set (Process file_name documents nodes) s
  = (Normal false,
     mkWriter (index s) (node_stack s ++ nodes) (doc_stack s ++ documents)
       (file_stack s ++ [file_name]) (save_calls s) (S (tasks_done s))).
Proof.
  intros Hlt. unfold write_item. rewrite try_finally_modify.
  rewrite run_modify_bind, run_get_bind. cbn [node_stack].
  destruct (Z.leb_spec NODE_FLUSH_COUNT
              (Z.of_nat (length (node_stack s ++ nodes)))); [lia|].
  reflexivity.
Qed.

(** A [process] item that reaches the threshold is followed at once by one
    flush of everything accumulated. *)
Lemma write_item_process_reach (s : writer) file_name documents nodes :
  (NODE_FLUSH_COUNT ≤ Z.of_nat (length (node_stack s ++ nodes)))%Z →
  ∃ idx,
    @write_item E Empty_set (Process file_name documents nodes) s
    = (Normal false,
       mkWriter idx [] [] [] (S (save_calls s)) (S (tasks_done s)))
    ∧ insert_log idx = insert_log (index s) ++ [node_stack s ++ nodes].
Proof.
  intros Hge. unfold write_item. rewrite try_finally_modify.
  rewrite run_modify_bind, run_get_bind. cbn [node_stack].
  destruct (Z.leb_spec NODE_FLUSH_COUNT
              (Z.of_nat (length (node_stack s ++ nodes)))); [|lia].
  unfold when. rewrite run_bind.
  edestruct _save_docs_spec as (idx & -> & Hlog).
  exists idx. split; [reflexivity|exact Hlog].
Qed.

Lemma set_document_hashes_quiet {R} (documents : list Document) (w : world) :
  (∀ w0, fault E OpSetDocumentHash w0 = None) →
  @set_document_hashes E R documents w
  = (Normal tt, set_hash_log (λ l, l ++ (get_doc_id <$> documents)) w).
Proof.
  intros Hq. unfold set_document_hashes. revert w.
  induction documents as [|d ds IH]; intros w.
  - cbn. f_equal. destruct w. unfold set_hash_log. cbn.
    by rewrite app_nil_r.
  - cbn [for_each]. unfold bind at 1. rewrite run_bind. unfold ext.
    rewrite Hq. cbn [modify]. rewrite IH. f_equal.
    destruct w. unfold set_hash_log. cbn. by rewrite <-app_assoc.
Qed.

Lemma index_block_quiet {R} nodes documents (w : world) :
  (∀ w0, fault E OpInsertNodes w0 = None) →
  (∀ w0, fault E OpSetDocumentHash w0 = None) →
  (∀ w0, fault E OpSaveIndex w0 = None) →
  (insert_nodes E nodes;; set_document_hashes E documents;;
   @_save_index E R) w
  = (Normal tt, flushed nodes documents w).
Proof.
  intros Hi Hh Hs. rewrite run_bind. unfold insert_nodes.
  rewrite run_modify_bind. unfold ext at 1. rewrite Hi.
  rewrite run_bind, set_document_hashes_quiet by done.
  unfold _save_index. rewrite run_bind. unfold ext. by rewrite Hs.
Qed.

Lemma _save_docs_quiet (s : writer) :
  (∀ w0, fault E OpInsertNodes w0 = None) →
  (∀ w0, fault E OpSetDocumentHash w0 = None) →
  (∀ w0, fault E OpSaveIndex w0 = None) →
  @_save_docs E Empty_set s
  = (Normal tt,
     mkWriter (flushed (node_stack s) (doc_stack s) (index s)) [] [] []
       (S (save_calls s)) (tasks_done s)).
Proof.
  intros Hi Hh Hs.
  unfold _save_docs. rewrite run_modify_bind, try_finally_modify.
  unfold try_except. rewrite run_get_bind. unfold zoom.
  cbn [index node_stack doc_stack].
  by rewrite index_block_quiet.
Qed.

Lemma write_item_process_reach_quiet (s : writer) file_name documents nodes :
  (∀ w0, fault E OpInsertNodes w0 = None) →
  (∀ w0, fault E OpSetDocumentHash w0 = None) →
  (∀ w0, fault E OpSaveIndex w0 = None) →
  (NODE_FLUSH_COUNT ≤ Z.of_nat (length (node_stack s ++ nodes)))%Z →
  @write_item E Empty_set (Process file_name documents nodes) s
  = (Normal false,
     mkWriter (flushed (node_stack s ++ nodes) (doc_stack s ++ documents)
                 (index s))
       [] [] [] (S (save_calls s)) (S (tasks_done s))).
Proof.
  intros Hi Hh Hs Hge. unfold write_item. rewrite try_finally_modify.
  rewrite run_modify_bind, run_get_bind. cbn [node_stack].
  destruct (Z.leb_spec NODE_FLUSH_COUNT
              (Z.of_nat (length (node_stack s ++ nodes)))); [|lia].
  unfold when. rewrite run_bind. by rewrite _save_docs_quiet.
Qed.

(** [flush] and [quit] flush when, and only when, a file is pending. *)
Lemma write_item_explicit (s : writer) it :
  it = Flush ∨ it = Quit →
  ∃ s',
    @write_item E Empty_set it s
    = (Normal (match it with Quit => true | _ => false end), s')
    ∧ tasks_done s' = S (tasks_done s)
    ∧ match file_stack s with
      | [] => s' = mkWriter (index s) (node_stack s) (doc_stack s) []
                     (save_calls s) (S (tasks_done s))
      | _ => save_calls s' = S (save_calls s)
             ∧ node_stack s' = [] ∧ doc_stack s' = [] ∧ file_stack s' = []
             ∧ insert_log (index s') = insert_log (index s) ++ [node_stack s]
      end.
Proof.
  intros [-> | ->]; unfold write_item; rewrite try_finally_modify;
    rewrite run_get_bind; destruct s as [idx ns ds [|f fs] sc td];
    cbn [file_stack when]; try (eexists; split_and!; reflexivity).
  all: rewrite run_bind; edestruct _save_docs_spec as (idx' & -> & Hlog);
    eexists; split_and!; try reflexivity; exact Hlog.
Qed.

Lemma run_cons_process queue (s : writer) file_name documents nodes :
  run (Process file_name documents nodes :: queue) s
  = run queue (snd (@write_item E Empty_set
                      (Process file_name documents nodes) s)).
Proof.
  cbn [_write_nodes]. rewrite run_bind.
  destruct (Z_lt_le_dec (Z.of_nat (length (node_stack s ++ nodes)))
              NODE_FLUSH_COUNT) as [Hlt|Hge].
  - by rewrite write_item_process_below.
  - by destruct (write_item_process_reach s file_name documents nodes Hge)
      as (idx & -> & _).
Qed.

Lemma run_cons it queue (s : writer) :
  ∃ s1,
    @write_item E Empty_set it s
    = (Normal (match it with Quit => true | _ => false end), s1)
    ∧ run (it :: queue) s
      = match it with Quit => s1 | _ => run queue s1 end
    ∧ ∃ batches,
        insert_log (index s1) = insert_log (index s) ++ batches
        ∧ concat batches ++ node_stack s1 = node_stack s ++ item_nodes it.
Proof.
  cbn [_write_nodes]. rewrite run_bind.
  destruct it as [file_name documents nodes| |].
  - destruct (Z_lt_le_dec (Z.of_nat (length (node_stack s ++ nodes)))
                NODE_FLUSH_COUNT) as [Hlt|Hge].
    + rewrite write_item_process_below by done.
      eexists; split_and!; try reflexivity.
      exists []. by rewrite app_nil_r.
    + destruct (write_item_process_reach s file_name documents nodes Hge)
        as (idx & -> & Hlog).
      eexists; split_and!; try reflexivity.
      exists [node_stack s ++ nodes]. simpl. by rewrite !app_nil_r.
  - destruct (write_item_explicit s Flush) as (s1 & -> & _ & Hs1); [auto|].
    eexists; split_and!; try reflexivity.
    destruct (file_stack s).
    + subst s1. exists []. by rewrite !app_nil_r.
    + destruct Hs1 as (_ & -> & _ & _ & ->).
      exists [node_stack s]. simpl. by rewrite !app_nil_r.
  - destruct (write_item_explicit s Quit) as (s1 & -> & _ & Hs1); [auto|].
    eexists; split_and!; try reflexivity.
    destruct (file_stack s).
    + subst s1. exists []. by rewrite !app_nil_r.
    + destruct Hs1 as (_ & -> & _ & _ & ->).
      exists [node_stack s]. simpl. by rewrite !app_nil_r.
Qed.

(** The insert attempts and the pending stack split the nodes received:
    each received node is in exactly one of them. *)
Lemma run_partition queue (s : writer) :
  ∃ batches,
    insert_log (index (run queue s)) = insert_log (index s) ++ batches
    ∧ concat batches ++ node_stack (run queue s)
      = node_stack s ++ concat (item_nodes <$> consumed queue).
Proof.
  revert s. induction queue as [|it queue IH]; intros s.
  - exists []. by rewrite !app_nil_r.
  - destruct (run_cons it queue s) as (s1 & _ & -> & b1 & Hlog1 & Hcat1).
    assert (∃ batches,
      insert_log (index s1) = insert_log (index s) ++ batches
      ∧ concat batches ++ node_stack s1
        = node_stack s ++ concat (item_nodes <$> [it])) as Hone.
    { exists b1. simpl. by rewrite app_nil_r. }
    destruct it as [f d n| |]; [| |exact Hone];
      destruct (IH s1) as (b2 & Hlog2 & Hcat2);
      exists (b1 ++ b2); cbn [consumed fmap list_fmap concat];
      rewrite Hlog2, Hlog1, concat_app, <-!app_assoc, Hcat2;
      by rewrite !app_assoc, Hcat1.
Qed.

(** The writer follows the threshold rule. *)
Lemma run_process_threshold
    (ps : list (string * list Document * list BaseNode)) (s : writer) :
  (save_calls s ≤ save_calls (run (process_item <$> ps) s))%nat
  ∧ threshold_flushes (Z.of_nat (length (node_stack s)))
      ((λ p, Z.of_nat (length p.2)) <$> ps)
    = ((save_calls (run (process_item <$> ps) s) - save_calls s)%nat,
       Z.of_nat (length (node_stack (run (process_item <$> ps) s)))).
Proof.
  revert s. induction ps as [|[[f d] n] ps IH]; intros s.
  - simpl. split; [lia|]. f_equal. lia.
  - rewrite !fmap_cons.
    change (process_item (f, d, n)) with (Process f d n).
    cbn [threshold_flushes snd]. rewrite run_cons_process.
    assert (Z.of_nat (length (node_stack s)) + Z.of_nat (length n)
            = Z.of_nat (length (node_stack s ++ n)))%Z as ->
      by (rewrite length_app; lia).
    destruct (Z.leb_spec NODE_FLUSH_COUNT
                (Z.of_nat (length (node_stack s ++ n)))) as [Hge|Hlt].
    + destruct (write_item_process_reach s f d n Hge) as (idx & -> & _).
      cbn [snd]. set (s1 := mkWriter _ _ _ _ _ _).
      destruct (IH s1) as [Hle Heq]. cbn [node_stack s1 length] in Heq.
      change (Z.of_nat 0) with 0%Z in Heq.
      rewrite Heq. cbn [save_calls s1] in *. split; [lia|].
      f_equal. lia.
    + rewrite write_item_process_below by done. cbn [snd].
      set (s1 := mkWriter _ _ _ _ _ _).
      destruct (IH s1) as [Hle Heq]. cbn [node_stack save_calls s1] in *.
      by rewrite Heq.
Qed.
End Writer.

Section WriterClaims.
Import Py Background PipelineIngestComponent.
Context (E : env).

#[local] Abbreviation run queue s := (snd (@_write_nodes E Empty_set queue s)).
#[local] Abbreviation payload := (string * list Document * list BaseNode)%type.

Lemma run_app_process (ps : list payload) queue (s : writer) :
  run ((process_item <$> ps) ++ queue) s
  = run queue (run (process_item <$> ps) s).
Proof.
  revert s. induction ps as [|[[f d] n] ps IH]; intros s; [done|].
  rewrite fmap_cons. change (process_item (f, d, n)) with (Process f d n).
  rewrite <-app_comm_cons, !run_cons_process. apply IH.
Qed.

(** Below the threshold the writer only accumulates. *)
Lemma run_process_below (ps : list payload) (s : writer) :
  (Z.of_nat (length (node_stack s ++ concat (snd <$> ps)))
     < NODE_FLUSH_COUNT)%Z →
  run (process_item <$> ps) s
  = mkWriter (index s) (node_stack s ++ concat (snd <$> ps))
      (doc_stack s ++ concat ((λ p, p.1.2) <$> ps))
      (file_stack s ++ ((λ p, p.1.1) <$> ps))
      (save_calls s) (length ps + tasks_done s).
Proof.
  revert s. induction ps as [|[[f d] n] ps IH]; intros s Hlt.
  - simpl. rewrite !app_nil_r. by destruct s.
  - rewrite !fmap_cons in *.
    change (process_item (f, d, n)) with (Process f d n).
    cbn [concat fst snd length] in *. rewrite app_assoc in Hlt.
    rewrite run_cons_process, write_item_process_below.
    2:{ rewrite length_app in Hlt. lia. }
    cbn [snd]. rewrite IH by done. cbn -[Nat.add].
    rewrite <-!app_assoc. f_equal. lia.
Qed.

(** C5: in the writer loop of [PipelineIngestComponent], for every
    sequence of [process] items: the number of flushes and the pending
    node count are those of the threshold rule, so the pending count stays
    below [NODE_FLUSH_COUNT]; while the accumulated count is below the
    threshold no flush occurs: nothing is inserted, no hash is recorded and
    the index is not persisted; the item with which it reaches the threshold
    triggers exactly one flush, of all the nodes accumulated, and leaves the
    stacks empty; when the index calls do not raise, that flush is one
    insert of the accumulated nodes, the hash of every accumulated document
    and one persist, and nothing else; an explicit [flush] or [quit] then
    flushes whatever is pending. *)
Theorem write_nodes_flush_threshold (ps : list payload) (p : payload)
    (w : world) :
  let nodes_of (l : list payload) := concat (snd <$> l) in
  let documents_of (l : list payload) := concat ((λ q, q.1.2) <$> l) in
  let below := run (process_item <$> ps) (new_writer w) in
  let reach := run (process_item <$> (ps ++ [p])) (new_writer w) in
  threshold_flushes 0 ((λ q, Z.of_nat (length q.2)) <$> ps)
    = (save_calls below, Z.of_nat (length (node_stack below)))
  ∧ (Z.of_nat (length (node_stack below)) < NODE_FLUSH_COUNT)%Z
  ∧ ((Z.of_nat (length (nodes_of ps)) < NODE_FLUSH_COUNT)%Z →
       (save_calls below = 0%nat
        ∧ insert_log (index below) = insert_log w
        ∧ node_stack below = nodes_of ps
        ∧ hash_log (index below) = hash_log w
        ∧ persist_count (index below) = persist_count w
        ∧ index below = w)
       ∧ ((NODE_FLUSH_COUNT ≤ Z.of_nat (length (nodes_of (ps ++ [p]))))%Z →
            save_calls reach = 1%nat
            ∧ insert_log (index reach)
              = insert_log w ++ [nodes_of (ps ++ [p])]
            ∧ node_stack reach = [] ∧ doc_stack reach = []
            ∧ file_stack reach = []
            ∧ ((∀ w0, fault E OpInsertNodes w0 = None) →
               (∀ w0, fault E OpSetDocumentHash w0 = None) →
               (∀ w0, fault E OpSaveIndex w0 = None) →
               hash_log (index reach)
                 = hash_log w ++ (get_doc_id <$> documents_of (ps ++ [p]))
               ∧ persist_count (index reach) = S (persist_count w)
               ∧ index reach
                 = set_persist_count S
                     (set_hash_log
                        (λ l, l ++ (get_doc_id <$> documents_of (ps ++ [p])))
                        (set_insert_log
                           (λ l, l ++ [nodes_of (ps ++ [p])]) w)))))
  ∧ (∀ it, it = Flush ∨ it = Quit →
       save_calls (run ((process_item <$> ps) ++ [it]) (new_writer w))
       = match file_stack below with
         | [] => save_calls below
         | _ => S (save_calls below)
         end).
Proof.
  intros nodes_of documents_of below reach. split_and!.
  - destruct (run_process_threshold E ps (new_writer w)) as [_ Heq].
    cbn [node_stack save_calls new_writer length] in Heq.
    change (Z.of_nat 0) with 0%Z in Heq. rewrite Heq. fold below.
    f_equal. lia.
  - pose proof (run_partition E (process_item <$> ps) (new_writer w))
      as (batches & _ & _).
    destruct (run_process_threshold E ps (new_writer w)) as [_ Heq].
    cbn [node_stack new_writer length] in Heq.
    change (Z.of_nat 0) with 0%Z in Heq.
    fold below in Heq. revert Heq. generalize (node_stack below).
    intros l Heq. apply (f_equal snd) in Heq. cbn [snd] in Heq.
    rewrite <-Heq. clear.
    assert (∀ ns pending, (pending < NODE_FLUSH_COUNT)%Z →
              (threshold_flushes pending ns).2 < NODE_FLUSH_COUNT)%Z as H.
    { induction ns as [|n ns IH]; intros pending Hp; [done|].
      cbn [threshold_flushes].
      destruct (Z.leb_spec NODE_FLUSH_COUNT (pending + n)).
      - specialize (IH 0%Z eq_refl).
        by destruct (threshold_flushes 0 ns).
      - by apply IH. }
    by apply H.
  - intros Hlt. subst below reach.
    rewrite run_process_below by done.
    cbn [save_calls index node_stack new_writer app].
    split; [by split_and!|].
    intros Hge. rewrite fmap_app, run_app_process.
    rewrite (run_process_below ps) by exact Hlt.
    destruct p as [[f d] n]. cbn [fmap list_fmap].
    change (process_item (f, d, n)) with (Process f d n).
    match goal with |- context [run _ ?s] => set (s0 := s) end.
    assert (NODE_FLUSH_COUNT ≤ Z.of_nat (length (node_stack s0 ++ n)))%Z
      as Hge0.
    { subst s0. cbn [node_stack new_writer app].
      subst nodes_of. cbn beta in Hge.
      by rewrite fmap_app, concat_app in Hge; simpl in Hge;
        rewrite app_nil_r in Hge. }
    destruct (run_cons E (Process f d n) [] s0) as (s1 & Hw & -> & _).
    cbn [_write_nodes mret M_ret ret snd].
    destruct (write_item_process_reach E s0 f d n Hge0)
      as (idx & Hw' & Hlog).
    assert (nodes_of (ps ++ [(f, d, n)]) = node_stack s0 ++ n) as Hnodes.
    { subst s0 nodes_of. cbn [node_stack new_writer app].
      by rewrite fmap_app, concat_app; simpl; rewrite app_nil_r. }
    assert (documents_of (ps ++ [(f, d, n)]) = doc_stack s0 ++ d) as Hdocs.
    { subst s0 documents_of. cbn [doc_stack new_writer app].
      by rewrite fmap_app, concat_app; simpl; rewrite app_nil_r. }
    split_and!.
    + rewrite Hw' in Hw. by injection Hw as <-.
    + rewrite Hw' in Hw. injection Hw as <-. cbn [index].
      by rewrite Hlog, Hnodes.
    + rewrite Hw' in Hw. by injection Hw as <-.
    + rewrite Hw' in Hw. by injection Hw as <-.
    + rewrite Hw' in Hw. by injection Hw as <-.
    + intros Hi Hh Hs.
      rewrite (write_item_process_reach_quiet E s0 f d n Hi Hh Hs Hge0)
        in Hw.
      injection Hw as <-. cbn [index]. rewrite Hnodes, Hdocs.
      subst s0. cbn [index new_writer]. unfold flushed.
      split_and!; [|done..]. by destruct w.
  - intros it Hit. rewrite run_app_process. fold below.
    destruct (run_cons E it [] below) as (s1 & Hw & -> & _).
    destruct (write_item_explicit E below it Hit) as (s2 & Hw' & _ & Hs2).
    rewrite Hw' in Hw. injection Hw as <-.
    assert (match it with Quit => s2 | _ => run [] s2 end = s2) as ->
      by (by destruct Hit as [-> | ->]).
    destruct (file_stack below); [by subst s2|]. by destruct Hs2.
Qed.

(** C6: after every flush attempt of the writer, whether the index calls
    succeeded or raised, the three accumulator stacks are empty, and the
    attempt handed the accumulated nodes to [insert_nodes] exactly once;
    consequently, over any run of the writer, the batches handed to
    [insert_nodes] followed by the pending stack are exactly the nodes
    received, in order: no node of a flushed batch is inserted twice. *)
Theorem save_docs_clears_stacks (s : writer) (queue : list item) (w : world) :
  (∃ s', @_save_docs E Empty_set s = (Normal tt, s')
         ∧ node_stack s' = [] ∧ doc_stack s' = [] ∧ file_stack s' = []
         ∧ insert_log (index s') = insert_log (index s) ++ [node_stack s])
  ∧ (∃ batches,
       insert_log (index (run queue (new_writer w)))
         = insert_log w ++ batches
       ∧ concat batches ++ node_stack (run queue (new_writer w))
         = concat (item_nodes <$> consumed queue)).
Proof.
  split.
  - destruct (_save_docs_spec E s) as (idx & -> & Hlog).
    by eexists; split_and!.
  - apply (run_partition E queue (new_writer w)).
Qed.
End WriterClaims.

(** ** [ExtractionComponent.extract_document] *)

Section Extraction.
Import Py ExtractionComponent.
Context (E : env).

(** The inner [try ... finally] never falls through: it returns the
    completed mapping or raises. *)
Lemma extract_and_store_outcome content temp_path eid did dt fn w :
  match (extract_and_store E content temp_path eid did dt fn w).1 with
  | Normal _ => False
  | Raise _ => True
  | Return v => v = completed_mapping eid did dt fn (agent_extract_data E content)
  end.
Proof.
  unfold extract_and_store, try_finally.
  match goal with |- context [(?m ≫= ?k) w] =>
    assert (match ((m ≫= k) w).1 with
            | Normal _ => False
            | Raise _ => True
            | Return v => v = completed_mapping eid did dt fn
                                (agent_extract_data E content)
            end) as Hbody;
    [|destruct ((m ≫= k) w) as [o w1]]
  end.
  { unfold mbind, M_bind, bind, ext, modify, get, return_. cbn.
    repeat match goal with
           | |- context [fault E ?o ?w] => destruct (fault E o w); cbn
           end; done. }
  unfold mbind, M_bind, bind, ext, modify. cbn in *.
  destruct (fault E OpUnlink w1); cbn; [done|]. exact Hbody.
Qed.

Lemma extract_body_outcome docs dt fn did an w :
  match (extract_body E docs dt fn did an w).1 with
  | Normal _ => False
  | Raise _ => True
  | Return v => ∃ eid result, v = completed_mapping eid did dt fn result
  end.
Proof.
  unfold extract_body, _store_extraction_data, new_uuid, try_except.
  unfold mbind, M_bind, bind, ext, modify, get. cbn.
  repeat match goal with
         | |- context [fault E ?o ?w] =>
             lazymatch o with
             | OpAgentExtract => fail
             | _ => destruct (fault E o w); cbn
             end
         end; try done.
  all: match goal with
       |- context [extract_and_store E ?c ?t ?i ?d ?a ?b ?w] =>
         pose proof (extract_and_store_outcome c t i d a b w) as H;
         destruct (extract_and_store E c t i d a b w) as [[?|?|v] ?]
       end; cbn in *; eauto.
Qed.

(** The error mapping has neither an extraction id nor a document id. *)
Lemma error_mapping_keys e dt fn :
  ∃ m, error_mapping e dt fn = JDict m
       ∧ m !! "status" = Some (JStr "error")
       ∧ m !! "error" = Some (JStr (str_of_exn e))
       ∧ m !! "document_type" = Some (JStr dt)
       ∧ m !! "file_name" = Some (JStr fn)
       ∧ m !! "extraction_id" = None
       ∧ m !! "doc_id" = None.
Proof. eexists. split; [reflexivity|]. by vm_compute. Qed.

(** [result.json] is written at one place only, with status
    ['completed'].  When the cleanup in the [finally] block does not
    raise, a call that ends in the error mapping has left the stored
    results as they were. *)
Lemma extract_document_error_keeps_results docs dt fn did an w e :
  (∀ w', fault E OpUnlink w' = None) →
  (extract_body E docs dt fn did an w).1 = Raise e →
  result_files (extract_body E docs dt fn did an w).2 = result_files w.
Proof.
  intros Hunlink.
  unfold extract_body, extract_and_store, _store_extraction_data, new_uuid,
    try_except, try_finally.
  unfold mbind, M_bind, bind, ext, modify, get, return_. cbn.
  repeat match goal with
         | |- context [fault E OpUnlink ?w] => rewrite (Hunlink w); cbn
         | |- context [fault E ?o ?w] => destruct (fault E o w); cbn
         end; done.
Qed.

(** With collaborators whose faults are instances of [Exception],
    [extract_document] always returns a mapping: when a fault escapes the
    body of its [try], the mapping with status ['error'] that carries the
    message of the fault, the document type and the file name; otherwise
    the mapping with status ['completed'].  Hence, with such collaborators,
    the extraction thread of either orchestrator runs to its end. *)
Lemma extract_document_returns_a_mapping {R} docs dt fn did an w :
  (∃ v, (@extract_document E R docs dt fn did an w).1 = Normal v
        ∧ ((∃ e, (extract_body E docs dt fn did an w).1 = Raise e
                 ∧ v = error_mapping e dt fn)
           ∨ (∃ eid result,
                (extract_body E docs dt fn did an w).1 = Return v
                ∧ v = completed_mapping eid did dt fn result)))
  ∧ (∃ ds, (SimpleIngestComponent.run_extraction E fn did docs w).1
           = Normal ds)
  ∧ (∃ ds, (ParallelizedIngestComponent.run_extraction E fn did docs w).1
           = Normal ds).
Proof.
  assert (∀ R' w', ∃ v, (@extract_document E R' docs dt fn did an w').1 = Normal v
        ∧ ((∃ e, (extract_body E docs dt fn did an w').1 = Raise e
                 ∧ v = error_mapping e dt fn)
           ∨ (∃ eid result,
                (extract_body E docs dt fn did an w').1 = Return v
                ∧ v = completed_mapping eid did dt fn result))) as Hmain.
  { intros R' w'. unfold extract_document, call, try_except.
    pose proof (extract_body_outcome docs dt fn did an w') as Hb.
    destruct (extract_body E docs dt fn did an w') as [[?|e|v] w1];
      cbn in *; [done| |].
    - exists (error_mapping e dt fn). split; [done|]. left. by exists e.
    - destruct Hb as (eid & result & ->). eexists. split; [done|].
      right. by exists eid, result. }
  split; [apply Hmain|]. clear Hmain.
  assert (∀ R' w', ∃ v w1,
            @extract_document E R' docs "Benefit" fn did None w'
            = (Normal v, w1)) as Hex.
  { intros R' w'. unfold extract_document, call, try_except.
    pose proof (extract_body_outcome docs "Benefit" fn did None w') as Hb.
    destruct (extract_body E docs "Benefit" fn did None w') as [[?|e|v] w1];
      cbn in *; [done| |]; eauto. }
  split.
  - unfold SimpleIngestComponent.run_extraction, Background.update_phase.
    rewrite run_modify_bind, run_bind.
    edestruct Hex as (v & w1 & ->). rewrite run_modify_bind. by eexists.
  - unfold ParallelizedIngestComponent.run_extraction,
      Background.update_phase.
    rewrite run_modify_bind, run_bind.
    edestruct Hex as (v & w1 & ->). by eexists.
Qed.
End Extraction.

Section ExtractionScenario.
Import Py ExtractionComponent Scenario.

(** C10, on the code: [os.unlink(temp_path)] raises in the [finally]
    block after the extraction succeeded.  [result.json] has been written
    with status ['completed'] for a document that had no stored result,
    and the call returns the error mapping. *)
Theorem extract_document_unlink_fault_after_write :
  let E := collaborators (fault_at OpUnlink "PermissionError") 0 in
  let run := @extract_document E Empty_set [page] "Benefit" "policy.pdf"
               "doc-1" None empty_world in
  stored_status empty_world "doc-1" = None
  ∧ run.1 = Normal (error_mapping (Exception "PermissionError") "Benefit"
                      "policy.pdf")
  ∧ stored_status run.2 "doc-1" = Some (JStr "completed").
Proof. by vm_compute. Qed.

(** When the fault is in the backend call itself, nothing is stored. *)
Example extract_document_backend_fault :
  let E := collaborators (fault_at OpAgentExtract "backend down") 0 in
  let run := @extract_document E Empty_set [page] "Benefit" "policy.pdf"
               "doc-1" None empty_world in
  run.1 = Normal (error_mapping (Exception "backend down") "Benefit"
                    "policy.pdf")
  ∧ result_files run.2 = ∅.
Proof. by vm_compute. Qed.

Example extract_document_completed :
  let E := collaborators no_fault 0 in
  let run := @extract_document E Empty_set [page] "Benefit" "policy.pdf"
               "doc-1" None empty_world in
  run.1 = Normal (completed_mapping "uuid-0" "doc-1" "Benefit" "policy.pdf"
                    extracted)
  ∧ stored_status run.2 "doc-1" = Some (JStr "completed")
  ∧ temp_files run.2 = [].
Proof. by vm_compute. Qed.
End ExtractionScenario.

(** ** The background task: phase writes *)

(** Goals [respects phase_extends m]: follow the structure of [m], unfolding
    the closures on the way. *)
Ltac head_of t :=
  lazymatch t with
  | ?f _ => head_of f
  | _ => t
  end.

Ltac frame_phase :=
  repeat first
    [ progress frame
    | match goal with
      | |- respects _ ?m => let h := head_of m in progress unfold h
      | |- phase_extends ?w _ =>
          unfold phase_extends; cbn;
          first [reflexivity | by apply prefix_app_r]
      end ].

(** The same for a component the block leaves alone. *)
Ltac frame_same :=
  repeat first
    [ progress frame
    | match goal with
      | |- respects _ ?m => let h := head_of m in progress unfold h
      | |- same_on _ _ _ => reflexivity
      end ].

Section PhaseWrites.
Import Py Background.
Context (E : env) (file_name stored_file_path doc_id : string).

Lemma extract_document_phase {R} docs dt fn did an :
  respects phase_extends
    (@ExtractionComponent.extract_document E R docs dt fn did an).
Proof.
  frame_phase.
Qed.

Lemma simple_body_phase :
  respects phase_extends
    (try_except
       (wait_for_document_entry E doc_id;;
        update_phase doc_id "parsing";;
        documents ← parse_documents E file_name stored_file_path doc_id;
        documents ← SimpleIngestComponent.fork_join E file_name doc_id
                      documents;
        update_phase doc_id "rag";;
        try_except (SimpleIngestComponent.rag_block E doc_id documents)
          (λ e, update_phase doc_id "completed"))
       (λ e, update_phase doc_id "error") : M world unit unit).
Proof.
  unfold SimpleIngestComponent.fork_join,
    SimpleIngestComponent.run_extraction,
    SimpleIngestComponent.run_embedding,
    SimpleIngestComponent.rag_block,
    SimpleIngestComponent.reconcile.
  frame_phase.
Qed.

Lemma parallelized_body_phase :
  respects phase_extends
    (try_except
       (wait_for_document_entry E doc_id;;
        update_phase doc_id "parsing";;
        documents ← parse_documents E file_name stored_file_path doc_id;
        documents ← ParallelizedIngestComponent.fork_join E file_name doc_id
                      documents;
        update_phase doc_id "rag";;
        try_except (ParallelizedIngestComponent.rag_block E doc_id documents)
          (λ e, update_phase doc_id "completed"))
       (λ e, update_phase doc_id "error") : M world unit unit).
Proof.
  unfold ParallelizedIngestComponent.fork_join,
    ParallelizedIngestComponent.run_extraction,
    ParallelizedIngestComponent.run_embedding,
    ParallelizedIngestComponent.rag_block,
    ParallelizedIngestComponent.reconcile.
  frame_phase.
Qed.

(** A [finally] block that writes ['completed'] makes it the last write,
    after every write of the body. *)
Lemma finally_completed (body : M world unit unit) w :
  respects phase_extends body →
  ∃ writes,
    phase_log (try_finally body (update_phase doc_id "completed") w).2
      = phase_log w ++ writes
    ∧ completes_after_error doc_id writes.
Proof.
  intros Hbody. unfold update_phase. rewrite try_finally_modify.
  destruct (Hbody w) as [l Hl]. cbn. rewrite Hl.
  exists (l ++ [(doc_id, "completed")]). split; [by rewrite app_assoc|].
  split; [by rewrite last_snoc|].
  intros i Hi. exists (length l). split.
  - destruct (decide (i < length l)%nat) as [|Hge]; [done|].
    apply lookup_lt_Some in Hi as Hlt. rewrite length_app in Hlt.
    simpl in Hlt. assert (i = length l) as -> by lia.
    by rewrite lookup_app_r, Nat.sub_diag in Hi.
  - by rewrite lookup_app_r, Nat.sub_diag.
Qed.

(** C1: for every document id run through a background save task, of
    [SimpleIngestComponent] or of [ParallelizedIngestComponent], the last
    phase the task writes is ['completed'], and every ['error'] it wrote
    for the id is followed by that ['completed'] write of the [finally]
    block. *)
Theorem save_task_ends_completed (w : world) :
  (∃ writes,
     phase_log (SimpleIngestComponent.save_task E file_name
                  stored_file_path doc_id w).2 = phase_log w ++ writes
     ∧ completes_after_error doc_id writes)
  ∧ (∃ writes,
       phase_log (ParallelizedIngestComponent.save_task E file_name
                    stored_file_path doc_id w).2 = phase_log w ++ writes
       ∧ completes_after_error doc_id writes).
Proof.
  split.
  - apply finally_completed, simple_body_phase.
  - apply finally_completed, parallelized_body_phase.
Qed.
End PhaseWrites.

Section BackgroundScenario.
Import Py Scenario.

(** A parse fault: ['error'] is written, then ['completed']. *)
Example save_task_parse_fault :
  let E := collaborators (fault_at OpTransformFile "corrupt file") 0 in
  phase_log (SimpleIngestComponent.save_task E "policy.pdf"
               "original_files/policy.pdf" "doc-1" empty_world).2
  = [("doc-1", "parsing"); ("doc-1", "error"); ("doc-1", "completed")]
  ∧ phase_log (ParallelizedIngestComponent.save_task E "policy.pdf"
                 "original_files/policy.pdf" "doc-1" empty_world).2
    = [("doc-1", "parsing"); ("doc-1", "error"); ("doc-1", "completed")].
Proof. by vm_compute. Qed.

(** A fault in the reconciliation block is caught by the inner handler:
    no ['error'] is written, ['completed'] is written twice. *)
Example save_task_reconciliation_fault :
  let E := collaborators (fault_at OpHasMissingFields "schema error") 3 in
  snd <$> phase_log (SimpleIngestComponent.save_task E "policy.pdf"
                       "original_files/policy.pdf" "doc-1" empty_world).2
  = ["parsing"; "extraction"; "embedding"; "rag"; "completed"; "completed"]
  ∧ snd <$> phase_log (ParallelizedIngestComponent.save_task E "policy.pdf"
                         "original_files/policy.pdf" "doc-1" empty_world).2
    = ["parsing"; "extraction"; "embedding"; "rag"; "completed"; "completed"].
Proof. by vm_compute. Qed.

(** [SimpleIngestComponent] with 25 missing fields: three calls to the
    query service, of 10, 10 and 5 fields, and the record written back
    holds every field the three calls returned. *)
Example simple_save_task_25_missing_fields :
  let E := collaborators no_fault 25 in
  let w := (SimpleIngestComponent.save_task E "policy.pdf"
              "original_files/policy.pdf" "doc-1" empty_world).2 in
  rag_calls w = batch_fields (field_names 25) 10
  ∧ length <$> rag_calls w = [10; 10; 5]%nat
  ∧ (λ f, stored_benefits w "doc-1" ≫= (.!! f)) <$> field_names 25
    = replicate 25 (Some (JStr "found"))
  ∧ snd <$> phase_log w
    = ["parsing"; "extraction"; "embedding"; "rag"; "completed"; "completed"].
Proof.
  split_and!; by vm_compute.
Qed.

(** C3, on the code: [ParallelizedIngestComponent] with 25 missing fields
    issues a single call to the query service, carrying all 25 fields. *)
Theorem parallelized_save_task_25_missing_fields :
  let E := collaborators no_fault 25 in
  let w := (ParallelizedIngestComponent.save_task E "policy.pdf"
              "original_files/policy.pdf" "doc-1" empty_world).2 in
  rag_calls w = [field_names 25]
  ∧ length <$> rag_calls w = [25]%nat.
Proof. by vm_compute. Qed.
End BackgroundScenario.

(** ** Reconciliation: the calls to the query service *)

Section Reconcile.
Import Py Background.
Context (E : env) (doc_id : string).

(** [ParallelizedIngestComponent] never splits the missing fields: its
    reconciliation issues no call (the configuration failed to load) or
    one call with all of them. *)
Lemma parallelized_reconcile_calls extraction_data extraction_result
    missing_fields w :
  ∃ calls,
    rag_calls (ParallelizedIngestComponent.reconcile E doc_id
                 extraction_data extraction_result missing_fields w).2
      = rag_calls w ++ calls
    ∧ (calls = [] ∨ calls = [missing_fields]).
Proof.
  unfold ParallelizedIngestComponent.reconcile.
  rewrite run_bind. unfold ext at 1.
  destruct (fault E OpLoadCompanyConfig w); cbn [snd].
  { exists []. rewrite app_nil_r. auto. }
  exists [missing_fields]. split; [|by right].
  rewrite run_bind. unfold _extract_with_rag at 1.
  rewrite run_modify_bind, run_bind. unfold ext at 1.
  destruct (fault E OpExtractWithRag _); cbn [snd]; [done|].
  rewrite run_get_bind. unfold mret at 1, M_ret at 1, ret at 1.
  match goal with |- context [(?m ≫= ?k) ?w1] =>
    assert (respects (same_on rag_calls) (m ≫= k)) as Hrest
      by frame_same;
    by rewrite <-(Hrest w1)
  end.
Qed.

(** One turn of the loop of [SimpleIngestComponent]: one call, with the
    batch. *)
Lemma simple_loop_turn config (acc : gmap string json) batch w :
  rag_calls ((rag_results ← _extract_with_rag E doc_id batch config;
              mret (DeepUpdate.deep_update acc rag_results)) w
             : Py.outcome unit _ * world).2
  = rag_calls w ++ [batch].
Proof.
  unfold _extract_with_rag, mbind, M_bind, bind, ext, modify, get. cbn.
  by destruct (fault E OpExtractWithRag _).
Qed.

(** The calls of the loop of [SimpleIngestComponent]: the batches, in
    order, up to the first one whose call raised. *)
Lemma simple_loop_calls (batches : list (list string)) config acc w :
  ∃ n, rag_calls (fold_each batches acc (λ all_rag_results batch,
                    rag_results ← _extract_with_rag E doc_id batch config;
                    mret (DeepUpdate.deep_update all_rag_results rag_results))
                  w : Py.outcome unit _ * world).2
       = rag_calls w ++ take n batches.
Proof.
  revert acc w. induction batches as [|b bs IH]; intros acc w.
  - exists 0%nat. simpl. by rewrite app_nil_r.
  - cbn [fold_each]. unfold bind at 1.
    pose proof (simple_loop_turn config acc b w) as Hturn.
    destruct ((_extract_with_rag E doc_id b config ≫= _) w)
      as [[a|e|[]] w1]; cbn [snd] in *.
    + destruct (IH a w1) as [n Hn]. exists (S n).
      rewrite Hn, Hturn. cbn. by rewrite <-app_assoc.
    + exists 1%nat. cbn. by rewrite take_0.
    + exists 1%nat. cbn. by rewrite take_0.
Qed.

(** In [SimpleIngestComponent] every call to the query service carries at
    most 10 fields. *)
Lemma simple_reconcile_calls extraction_data extraction_result
    missing_fields w :
  let w' := (SimpleIngestComponent.reconcile E doc_id extraction_data
               extraction_result missing_fields w).2 in
  ∃ n, rag_calls w' = rag_calls w ++ take n (batch_fields missing_fields 10)
       ∧ Forall (λ batch, (length batch ≤ 10)%nat)
           (take n (batch_fields missing_fields 10)).
Proof.
  unfold SimpleIngestComponent.reconcile.
  rewrite run_bind. unfold ext at 1.
  destruct (fault E OpLoadCompanyConfig w); cbn [snd].
  { exists 0%nat. rewrite take_0, app_nil_r. split; [done|constructor]. }
  rewrite run_bind.
  match goal with |- context [fold_each ?bs ?a ?f w] =>
    destruct (simple_loop_calls (batch_fields missing_fields 10)
                (company_config E) a w) as [n Hn];
    destruct (fold_each bs a f w) as [[all|e|[]] w1] eqn:Hrun
  end; cbn [snd] in *.
  - exists n. split; [|apply Forall_take, batch_fields_bound].
    rewrite <-Hn. rewrite run_bind. unfold ext at 1.
    destruct (fault E OpDumpsRag w1); cbn [snd]; [done|].
    match goal with |- context [rag_calls (?m w1).2] =>
      assert (respects (same_on rag_calls) m) as Hrest by frame_same;
      by rewrite <-(Hrest w1)
    end.
  - exists n. split; [done|apply Forall_take, batch_fields_bound].
  - exists n. split; [done|apply Forall_take, batch_fields_bound].
Qed.
End Reconcile.

(** ** [ingest]: the stub and the background thread *)


(** ** The embedding thread when its index calls do not raise *)

Section EmbeddingThread.
Import Py Background.
Context (E : env) (doc_id : string).
Hypothesis Htransform : ∀ w0, fault E OpRunTransformations w0 = None.
Hypothesis Hinsert : ∀ w0, fault E OpInsertNodes w0 = None.
Hypothesis Hhash : ∀ w0, fault E OpSetDocumentHash w0 = None.
Hypothesis Hsave : ∀ w0, fault E OpSaveIndex w0 = None.

Lemma for_each_insert_quiet {R} (batches : list (list BaseNode)) (w : world) :
  @for_each world R _ batches (insert_nodes E) w
  = (Normal tt, set_insert_log (λ l, l ++ batches) w).
Proof.
  revert w. induction batches as [|b bs IH]; intros w.
  - cbn. f_equal. destruct w. unfold set_insert_log. cbn.
    by rewrite app_nil_r.
  - cbn [for_each]. unfold bind at 1. unfold insert_nodes at 1.
    rewrite run_modify_bind. unfold ext at 1. rewrite Hinsert, IH. f_equal.
    destruct w. unfold set_insert_log. cbn. by rewrite <-app_assoc.
Qed.

(** The index part of [run_embedding]. *)
Lemma embed_documents_quiet (nodes : list BaseNode) (batch_size : Z)
    (documents : list Document) (w : world) :
  batch_size ≠ 0%Z →
  ∃ w', (insert_in_batches E nodes batch_size;;
         set_document_hashes E documents;;
         _save_index E;;
         mret documents : M world unit (list Document)) w
        = (Normal documents, w')
        ∧ hash_log w' = hash_log w ++ (get_doc_id <$> documents)
        ∧ persist_count w' = S (persist_count w)
        ∧ phase_log w' = phase_log w
        ∧ chunk_files w' = chunk_files w.
Proof.
  intros Hbs. unfold insert_in_batches.
  destruct (Z.eqb_spec batch_size 0) as [|_]; [done|].
  rewrite run_bind, for_each_insert_quiet.
  rewrite run_bind, set_document_hashes_quiet by done.
  unfold _save_index. rewrite 2!run_bind. unfold ext. rewrite Hsave.
  eexists. split; [reflexivity|]. by destruct w.
Qed.

Lemma transform_loop_quiet (documents : list Document) acc (w : world) :
  fold_each documents acc (λ all_nodes doc,
    @ext E unit OpRunTransformations;;
    mret (all_nodes ++ run_transformations E [doc])) w
  = (Normal (acc ++ concat ((λ doc, run_transformations E [doc])
                            <$> documents)), w).
Proof.
  revert acc. induction documents as [|d ds IH]; intros acc.
  - cbn. by rewrite app_nil_r.
  - cbn [fold_each]. unfold bind at 1. rewrite run_bind. unfold ext at 1.
    rewrite Htransform. cbn [mret M_ret ret]. rewrite IH. cbn.
    by rewrite <-app_assoc.
Qed.

Lemma simple_run_embedding_quiet (documents : list Document) (w : world) :
  default 32 (attr_batch_size E) ≠ 0%Z →
  ∃ w',
    SimpleIngestComponent.run_embedding E documents w = (Normal documents, w')
    ∧ hash_log w' = hash_log w ++ (get_doc_id <$> documents)
    ∧ persist_count w' = S (persist_count w)
    ∧ phase_log w' = phase_log w
    ∧ chunk_files w' = chunk_files w.
Proof.
  intros Hbs. unfold SimpleIngestComponent.run_embedding.
  rewrite run_bind, transform_loop_quiet.
  by apply embed_documents_quiet.
Qed.

Lemma parallelized_run_embedding_quiet (documents : list Document)
    (w : world) :
  default 32 (attr_embed_batch_size E) ≠ 0%Z →
  ∃ w',
    ParallelizedIngestComponent.run_embedding E doc_id documents w
    = (Normal documents, w')
    ∧ hash_log w' = hash_log w ++ (get_doc_id <$> documents)
    ∧ persist_count w' = S (persist_count w)
    ∧ phase_log w' = phase_log w ++ [(doc_id, "embedding")]
    ∧ chunk_files w' = chunk_files w.
Proof.
  intros Hbs. unfold ParallelizedIngestComponent.run_embedding, update_phase.
  rewrite run_modify_bind, run_bind, transform_loop_quiet.
  edestruct (embed_documents_quiet) as (w' & -> & Hh & Hn & Hp & Hc);
    [exact Hbs|].
  eexists. split; [reflexivity|]. by rewrite Hh, Hn, Hp, Hc.
Qed.
End EmbeddingThread.

(** ** The background thread: what the target does *)

Section BackgroundThread.
Import Py Background ExtractionComponent.
Context (E : env) (file_name stored_file_path doc_id : string).
Hypothesis Hquiet : ∀ o w0, fault E o w0 = None.



Lemma store_extraction_ids extraction (documents : list Document) :
  get_doc_id <$> store_extraction extraction documents
  = get_doc_id <$> documents.
Proof.
  unfold store_extraction.
  destruct extraction as [| | | | |ex]; try done.
  destruct (ex !! "status") as [[| | |st| |]|]; try done.
  destruct (String.eqb st "completed"); [|done].
  rewrite <-list_fmap_compose. by apply list_fmap_ext.
Qed.











End BackgroundThread.

Section Ingest.
Import Py Background.
Context (E : env).

End Ingest.


(** ** [extract_document] and the exceptions outside [Exception] *)

Section Interrupts.
Import PyBase ExtractionComponent.
Context (E : env) (interrupt : op → world → option string).

(** How the body of the outer [try] ends: it never falls through. *)
Lemma interrupted_body_outcome docs dt fn did an w :
  let run := Interrupted.extract_body E interrupt docs dt fn did an w in
  ((∃ e, run.1 = Raise (IsException e))
   ∨ (∃ class_name o w0, run.1 = Raise (NotException class_name)
                         ∧ interrupt o w0 = Some class_name)
   ∨ (∃ eid result, run.1 = Return (completed_mapping eid did dt fn result)))
  ∧ hash_log run.2 = hash_log w
  ∧ persist_count run.2 = persist_count w.
Proof.
  unfold Interrupted.extract_body, Interrupted.extract_and_store,
    Interrupted._store_extraction_data, Interrupted.new_uuid,
    try_except, try_finally.
  unfold mbind, M_bind, bind, Interrupted.ext, modify, get, return_. cbn.
  repeat match goal with
         | |- context [interrupt ?o ?w] =>
             destruct (interrupt o w) eqn:?; cbn
         | |- context [fault E ?o ?w] => destruct (fault E o w) eqn:?; cbn
         end;
    (split; [|done]); eauto 10.
Qed.

Lemma interrupted_document_outcome {R} docs dt fn did an w :
  let body := (Interrupted.extract_body E interrupt docs dt fn did an w).1 in
  let run := @Interrupted.extract_document E interrupt R docs dt fn did an w in
  ((∃ v, run.1 = Normal v
         ∧ ((∃ e, body = Raise (IsException e) ∧ v = error_mapping e dt fn)
            ∨ (∃ eid result,
                 body = Return v
                 ∧ v = completed_mapping eid did dt fn result)))
   ∨ (∃ class_name o w0, run.1 = Raise (NotException class_name)
                         ∧ interrupt o w0 = Some class_name))
  ∧ hash_log run.2 = hash_log w
  ∧ persist_count run.2 = persist_count w.
Proof.
  cbv zeta. unfold Interrupted.extract_document, call, try_except.
  pose proof (interrupted_body_outcome docs dt fn did an w) as Hb.
  cbv zeta in Hb.
  destruct (Interrupted.extract_body E interrupt docs dt fn did an w)
    as [[?|[e|class_name]|v] w1]; cbn in *;
    destruct Hb as ([(e' & He)|[(c & o & w0 & Hc & Hi)|(eid & result & Hr)]]
                    & Hh & Hp);
    simplify_eq; (split; [|done]).
  - left. eexists. split; [done|]. left. by eexists.
  - right. by exists c, o, w0.
  - left. eexists. split; [done|]. right. by exists eid, result.
Qed.

(** The extraction thread ends, and leaves the index alone. *)
Lemma simple_extraction_thread {R} fn did docs w :
  ∃ ds w',
    @thread_run world R _ docs
      (Interrupted.simple_run_extraction E interrupt fn did) w
    = (Normal ds, w')
    ∧ get_doc_id <$> ds = get_doc_id <$> docs
    ∧ hash_log w' = hash_log w
    ∧ persist_count w' = persist_count w.
Proof.
  unfold thread_run, Interrupted.simple_run_extraction,
    Interrupted.update_phase.
  unfold mbind, M_bind, bind at 1, modify at 1.
  pose proof (@interrupted_document_outcome unit docs "Benefit" fn did None
                (set_phase_log (λ l, l ++ [(did, "extraction")]) w))
    as (_ & Hh & Hp).
  unfold bind at 1.
  destruct (Interrupted.extract_document E interrupt docs "Benefit" fn did
              None (set_phase_log (λ l, l ++ [(did, "extraction")]) w))
    as [[v|e|r] w1]; cbn in *; eexists _, _; (split; [reflexivity|]);
    cbn; rewrite ?Hh, ?Hp; split_and!; try done.
  apply store_extraction_ids.
Qed.

Lemma parallelized_extraction_thread {R} fn did docs w :
  ∃ ds w',
    @thread_run world R _ docs
      (Interrupted.parallelized_run_extraction E interrupt fn did) w
    = (Normal ds, w')
    ∧ get_doc_id <$> ds = get_doc_id <$> docs
    ∧ hash_log w' = hash_log w
    ∧ persist_count w' = persist_count w.
Proof.
  unfold thread_run, Interrupted.parallelized_run_extraction,
    Interrupted.update_phase.
  unfold mbind, M_bind, bind at 1, modify at 1.
  pose proof (@interrupted_document_outcome unit docs "Benefit" fn did None
                (set_phase_log (λ l, l ++ [(did, "extraction")]) w))
    as (_ & Hh & Hp).
  unfold bind at 1.
  destruct (Interrupted.extract_document E interrupt docs "Benefit" fn did
              None (set_phase_log (λ l, l ++ [(did, "extraction")]) w))
    as [[v|e|r] w1]; cbn in *; eexists _, _; (split; [reflexivity|]);
    cbn; rewrite ?Hh, ?Hp; split_and!; try done.
  apply store_extraction_ids.
Qed.

Lemma thread_run_ends {W R A} (shared : A) (target : A → M W unit A) w :
  ∃ a, (@thread_run W R A shared target w).1 = Normal a.
Proof.
  unfold thread_run. destruct (target shared w) as [[?|?|?] ?]; by eexists.
Qed.

Lemma run_bind_base {W R A B} (m : M W R A) (f : A → M W R B) w :
  (m ≫= f) w = match m w with
               | (Normal a, w') => f a w'
               | (Raise e, w') => (Raise e, w')
               | (Return r, w') => (Return r, w')
               end.
Proof. reflexivity. Qed.

(** The join of the two threads always returns. *)
Lemma simple_fork_join_returns fn did docs w :
  ∃ ds, (Interrupted.simple_fork_join E interrupt fn did docs w).1
        = Normal ds.
Proof.
  unfold Interrupted.simple_fork_join. cbv zeta.
  destruct (embedding_first E); rewrite run_bind_base.
  - match goal with
    | |- context [thread_run docs ?t w] =>
        destruct (thread_run_ends (R:=unit) docs t w) as [a Ha];
        destruct (thread_run docs t w) as [o w1]
    end.
    cbn in Ha. subst o. apply thread_run_ends.
  - match goal with
    | |- context [thread_run docs ?t w] =>
        destruct (thread_run_ends (R:=unit) docs t w) as [a Ha];
        destruct (thread_run docs t w) as [o w1]
    end.
    cbn in Ha. subst o. apply thread_run_ends.
Qed.

Lemma parallelized_fork_join_returns fn did docs w :
  ∃ ds, (Interrupted.parallelized_fork_join E interrupt fn did docs w).1
        = Normal ds.
Proof.
  unfold Interrupted.parallelized_fork_join. cbv zeta.
  destruct (embedding_first E); rewrite run_bind_base.
  - match goal with
    | |- context [thread_run docs ?t w] =>
        destruct (thread_run_ends (R:=unit) docs t w) as [a Ha];
        destruct (thread_run docs t w) as [o w1]
    end.
    cbn in Ha. subst o. apply thread_run_ends.
  - match goal with
    | |- context [thread_run docs ?t w] =>
        destruct (thread_run_ends (R:=unit) docs t w) as [a Ha];
        destruct (thread_run docs t w) as [o w1]
    end.
    cbn in Ha. subst o. apply thread_run_ends.
Qed.

Section EmbeddingRuns.
Hypothesis Htransform : ∀ w0, fault E OpRunTransformations w0 = None.
Hypothesis Hinsert : ∀ w0, fault E OpInsertNodes w0 = None.
Hypothesis Hhash : ∀ w0, fault E OpSetDocumentHash w0 = None.
Hypothesis Hsave : ∀ w0, fault E OpSaveIndex w0 = None.

(** However the extraction thread ends, the embedding thread does all of
    its work. *)
Lemma simple_fork_join_embeds fn did docs w :
  default 32 (attr_batch_size E) ≠ 0%Z →
  ∃ ds w',
    Interrupted.simple_fork_join E interrupt fn did docs w = (Normal ds, w')
    ∧ hash_log w' = hash_log w ++ (get_doc_id <$> docs)
    ∧ persist_count w' = S (persist_count w).
Proof.
  intros Hbs. unfold Interrupted.simple_fork_join. cbv zeta.
  destruct (embedding_first E); rewrite run_bind_base.
  - unfold thread_run at 1, lift.
    destruct (simple_run_embedding_quiet E Htransform Hinsert Hhash Hsave
                docs w Hbs) as (w1 & -> & Hh & Hp & _).
    destruct (simple_extraction_thread (R:=unit) fn did docs w1)
      as (ds & w2 & -> & _ & Hh2 & Hp2).
    eexists _, _. split; [reflexivity|]. by rewrite Hh2, Hp2, Hh, Hp.
  - destruct (simple_extraction_thread (R:=unit) fn did docs w)
      as (ds & w1 & -> & Hids & Hh1 & Hp1).
    unfold thread_run, lift.
    destruct (simple_run_embedding_quiet E Htransform Hinsert Hhash Hsave
                ds w1 Hbs) as (w2 & -> & Hh & Hp & _).
    eexists _, _. split; [reflexivity|]. by rewrite Hh, Hp, Hh1, Hp1, Hids.
Qed.

Lemma parallelized_fork_join_embeds fn did docs w :
  default 32 (attr_embed_batch_size E) ≠ 0%Z →
  ∃ ds w',
    Interrupted.parallelized_fork_join E interrupt fn did docs w = (Normal ds, w')
    ∧ hash_log w' = hash_log w ++ (get_doc_id <$> docs)
    ∧ persist_count w' = S (persist_count w).
Proof.
  intros Hbs. unfold Interrupted.parallelized_fork_join. cbv zeta.
  destruct (embedding_first E); rewrite run_bind_base.
  - unfold thread_run at 1, lift.
    destruct (parallelized_run_embedding_quiet E did Htransform Hinsert Hhash
                Hsave docs w Hbs) as (w1 & -> & Hh & Hp & _).
    destruct (parallelized_extraction_thread (R:=unit) fn did docs w1)
      as (ds & w2 & -> & _ & Hh2 & Hp2).
    eexists _, _. split; [reflexivity|]. by rewrite Hh2, Hp2, Hh, Hp.
  - destruct (parallelized_extraction_thread (R:=unit) fn did docs w)
      as (ds & w1 & -> & Hids & Hh1 & Hp1).
    unfold thread_run, lift.
    destruct (parallelized_run_embedding_quiet E did Htransform Hinsert Hhash
                Hsave ds w1 Hbs) as (w2 & -> & Hh & Hp & _).
    eexists _, _. split; [reflexivity|]. by rewrite Hh, Hp, Hh1, Hp1, Hids.
Qed.
End EmbeddingRuns.
(** C9, amended: [extract_document] never raises an instance of
    [Exception].  A fault of a collaborator that is an instance of
    [Exception] and escapes the body of the [try] is captured: the call
    returns the mapping with status ['error'] that carries the message of the
    fault, the document type and the file name; with no fault it returns the
    mapping with status ['completed'].  The call raises only an exception
    outside [Exception] that a collaborator raised, so with collaborators
    that raise instances of [Exception] only it always returns.  However the
    extraction thread of either orchestrator ends, the join of the two
    threads returns, and when the index calls of the embedding thread do not
    raise, the embedding thread has recorded the hash of every document and
    persisted the index once. *)
Theorem extract_document_raises_no_Exception {R} docs dt fn did an w :
  let body := (Interrupted.extract_body E interrupt docs dt fn did an w).1 in
  let out :=
    (@Interrupted.extract_document E interrupt R docs dt fn did an w).1 in
  ((∃ v, out = Normal v
         ∧ ((∃ e, body = Raise (IsException e) ∧ v = error_mapping e dt fn)
            ∨ (∃ eid result,
                 body = Return v
                 ∧ v = completed_mapping eid did dt fn result)))
   ∨ (∃ class_name o w0, out = Raise (NotException class_name)
                         ∧ interrupt o w0 = Some class_name))
  ∧ (∀ e, out ≠ Raise (IsException e))
  ∧ ((∀ o w0, interrupt o w0 = None) → ∃ v, out = Normal v)
  ∧ (∃ ds, (Interrupted.simple_fork_join E interrupt fn did docs w).1
           = Normal ds)
  ∧ (∃ ds, (Interrupted.parallelized_fork_join E interrupt fn did docs w).1
           = Normal ds)
  ∧ ((∀ w0, fault E OpRunTransformations w0 = None) →
     (∀ w0, fault E OpInsertNodes w0 = None) →
     (∀ w0, fault E OpSetDocumentHash w0 = None) →
     (∀ w0, fault E OpSaveIndex w0 = None) →
     (default 32 (attr_batch_size E) ≠ 0%Z →
      ∃ ds w',
        Interrupted.simple_fork_join E interrupt fn did docs w
        = (Normal ds, w')
        ∧ hash_log w' = hash_log w ++ (get_doc_id <$> docs)
        ∧ persist_count w' = S (persist_count w))
     ∧ (default 32 (attr_embed_batch_size E) ≠ 0%Z →
        ∃ ds w',
          Interrupted.parallelized_fork_join E interrupt fn did docs w
          = (Normal ds, w')
          ∧ hash_log w' = hash_log w ++ (get_doc_id <$> docs)
          ∧ persist_count w' = S (persist_count w))).
Proof.
  cbv zeta.
  destruct (@interrupted_document_outcome R docs dt fn did an w)
    as (Hout & _).
  split_and!.
  - exact Hout.
  - intros e He.
    destruct Hout as [(v & Hv & _)|(c & o & w0 & Hc & _)]; congruence.
  - intros Hnone.
    destruct Hout as [(v & Hv & _)|(c & o & w0 & _ & Hi)]; [by exists v|].
    by rewrite Hnone in Hi.
  - apply simple_fork_join_returns.
  - apply parallelized_fork_join_returns.
  - intros Ht Hi Hh Hs. split; intros Hbs.
    + by apply simple_fork_join_embeds.
    + by apply parallelized_fork_join_embeds.
Qed.
End Interrupts.

(** With collaborators that raise instances of [Exception] only, the call
    is the one of [ExtractionComponent]. *)
Lemma interrupted_extract_document_agrees {R} E docs dt fn did an w :
  @Interrupted.extract_document E Interrupted.no_interrupt R docs dt fn did
    an w
  = PyBase.lift (ExtractionComponent.extract_document E docs dt fn did an) w.
Proof.
  unfold Interrupted.extract_document, Interrupted.extract_body,
    Interrupted.extract_and_store, Interrupted._store_extraction_data,
    Interrupted.new_uuid, PyBase.call, PyBase.try_except, PyBase.try_finally,
    PyBase.lift, ExtractionComponent.extract_document,
    ExtractionComponent.extract_body, ExtractionComponent.extract_and_store,
    ExtractionComponent._store_extraction_data, new_uuid, Py.call,
    Py.try_except, Py.try_finally.
  unfold mbind, PyBase.M_bind, Py.M_bind, PyBase.bind, Py.bind,
    Interrupted.ext, ext, Interrupted.no_interrupt, PyBase.modify, Py.modify,
    PyBase.get, Py.get, PyBase.return_, Py.return_.
  cbn.
  repeat match goal with
         | |- context [fault E ?o ?w] => destruct (fault E o w); cbn
         end; reflexivity.
Qed.

(** C9 as stated fails: an agent whose [extract] is cancelled raises
    [asyncio.CancelledError], which is no instance of [Exception]; the
    clause [except Exception] of line 149 lets it through and
    [extract_document] raises it. *)
Lemma extract_document_raises_cancellation :
  ¬ (∀ (E : env) (interrupt : op → world → option string) docs dt fn did an
       w,
       ∃ v, (@Interrupted.extract_document E interrupt json docs dt fn did an
               w).1
            = PyBase.Normal v).
Proof.
  intros H.
  destruct (H Scenario.quiet Interrupted.cancelled_extract [Scenario.page]
              "Benefit" "policy.pdf" "doc-1" None empty_world) as [v Hv].
  assert ((@Interrupted.extract_document Scenario.quiet
             Interrupted.cancelled_extract json [Scenario.page] "Benefit"
             "policy.pdf" "doc-1" None empty_world).1
          = PyBase.Raise (PyBase.NotException "asyncio.CancelledError"))
    as Hraise by (vm_compute; reflexivity).
  rewrite Hraise in Hv. discriminate Hv.
Qed.

Lemma extract_document_raises_no_Exception_witness :
  (∃ v, (@Interrupted.extract_document
           (Scenario.collaborators
              (Scenario.fault_at OpAgentExtract "backend down") 0)
           Interrupted.no_interrupt json [Scenario.page] "Benefit"
           "policy.pdf" "doc-1" None empty_world).1
        = PyBase.Normal v)
  ∧ ∃ ds w',
      Interrupted.simple_fork_join
        (Scenario.collaborators
           (Scenario.fault_at OpAgentExtract "backend down") 0)
        Interrupted.cancelled_extract "policy.pdf" "doc-1" [Scenario.page]
        empty_world
      = (PyBase.Normal ds, w')
      ∧ persist_count w' = 1%nat.
Proof.
  split.
  - destruct (extract_document_raises_no_Exception
                (Scenario.collaborators
                   (Scenario.fault_at OpAgentExtract "backend down") 0)
                Interrupted.no_interrupt (R:=json) [Scenario.page] "Benefit"
                "policy.pdf" "doc-1" None empty_world)
      as (_ & _ & Hreturns & _).
    apply Hreturns. intros o w0. reflexivity.
  - destruct (extract_document_raises_no_Exception
                (Scenario.collaborators
                   (Scenario.fault_at OpAgentExtract "backend down") 0)
                Interrupted.cancelled_extract (R:=json) [Scenario.page]
                "Benefit" "policy.pdf" "doc-1" None empty_world)
      as (_ & _ & _ & _ & _ & Hembeds).
    destruct Hembeds as [Hsimple _]; [done..|].
    destruct Hsimple as (ds & w' & Hrun & _ & Hpersist); [done|].
    exists ds, w'. split; [exact Hrun|exact Hpersist].
Defined.

(** ** [PipelineIngestComponent]: queue capacities and the threshold *)

(** C7 as stated fails: with two workers [doc_q] still holds 20 items. *)
Lemma doc_q_capacity_is_not_worker_count :
  ¬ (∀ transformations count_workers c,
       PipelineIngestComponent.__init__ transformations count_workers = inr c →
       PipelineIngestComponent.doc_q_maxsize c = count_workers
       ∧ (PipelineIngestComponent.doc_q_maxsize c
          < PipelineIngestComponent.node_q_maxsize c)%Z).
Proof.
  intros H. destruct (H 2%nat 2%Z _ eq_refl) as [Hcap _]. discriminate Hcap.
Qed.

(** C7, amended: for every worker count that [__init__] accepts, [doc_q]
    has capacity 20 and [node_q] capacity 40, whatever the worker count, so
    [node_q] is strictly larger than [doc_q]; it is the semaphore
    [doc_semaphore] that is sized to the worker count. *)
Theorem pipeline_queue_capacities (transformations : nat) (count_workers : Z)
    (c : PipelineIngestComponent.component) :
  PipelineIngestComponent.__init__ transformations count_workers = inr c →
  PipelineIngestComponent.doc_q_maxsize c = 20%Z
  ∧ PipelineIngestComponent.node_q_maxsize c = 40%Z
  ∧ (PipelineIngestComponent.doc_q_maxsize c
     < PipelineIngestComponent.node_q_maxsize c)%Z
  ∧ PipelineIngestComponent.doc_semaphore c = count_workers
  ∧ PipelineIngestComponent.count_workers c = count_workers
  ∧ (0 < count_workers)%Z.
Proof.
  unfold PipelineIngestComponent.__init__. intros Hinit.
  destruct (Z.leb 2 (Z.of_nat transformations)); [|done].
  destruct (Z.ltb_spec 0 count_workers); [|done].
  injection Hinit as <-. by cbn.
Qed.

Lemma pipeline_queue_capacities_witness :
  ∃ c, PipelineIngestComponent.__init__ 2 4 = inr c
       ∧ PipelineIngestComponent.doc_q_maxsize c = 20%Z
       ∧ PipelineIngestComponent.node_q_maxsize c = 40%Z
       ∧ PipelineIngestComponent.doc_semaphore c = 4%Z.
Proof.
  eexists. split; [reflexivity|].
  destruct (pipeline_queue_capacities 2 4 _ eq_refl) as (H1 & H2 & _ & H3 & _).
  by split_and!.
Defined.

Lemma write_nodes_flush_threshold_witness :
  PipelineIngestComponent.save_calls
    (@PipelineIngestComponent._write_nodes Scenario.quiet Empty_set
       (PipelineIngestComponent.process_item <$> Scenario.threshold_payloads)
       (PipelineIngestComponent.new_writer empty_world)).2 = 0%nat
  ∧ PipelineIngestComponent.save_calls
      (@PipelineIngestComponent._write_nodes Scenario.quiet Empty_set
         (PipelineIngestComponent.process_item
            <$> (Scenario.threshold_payloads ++ [Scenario.threshold_last]))
         (PipelineIngestComponent.new_writer empty_world)).2 = 1%nat
  ∧ PipelineIngestComponent.save_calls
      (@PipelineIngestComponent._write_nodes Scenario.quiet Empty_set
         ((PipelineIngestComponent.process_item <$> Scenario.threshold_payloads)
          ++ [PipelineIngestComponent.Flush])
         (PipelineIngestComponent.new_writer empty_world)).2 = 1%nat
  ∧ persist_count
      (PipelineIngestComponent.index
         (@PipelineIngestComponent._write_nodes Scenario.quiet Empty_set
            (PipelineIngestComponent.process_item
               <$> (Scenario.threshold_payloads ++ [Scenario.threshold_last]))
            (PipelineIngestComponent.new_writer empty_world)).2) = 1%nat
  ∧ hash_log
      (PipelineIngestComponent.index
         (@PipelineIngestComponent._write_nodes Scenario.quiet Empty_set
            (PipelineIngestComponent.process_item
               <$> (Scenario.threshold_payloads ++ [Scenario.threshold_last]))
            (PipelineIngestComponent.new_writer empty_world)).2) = [""; ""].
Proof.
  destruct (write_nodes_flush_threshold Scenario.quiet
              Scenario.threshold_payloads Scenario.threshold_last empty_world)
    as (_ & _ & Hthr & Hexp).
  destruct Hthr as [(H0 & _) H1]; [by vm_compute|].
  destruct H1 as (H1 & _ & _ & _ & _ & Hq); [by vm_compute|].
  destruct Hq as (Hh & Hp & _); [done..|].
  specialize (Hexp PipelineIngestComponent.Flush (or_introl eq_refl)).
  split_and!; [exact H0|exact H1| |exact Hp|by rewrite Hh].
  rewrite Hexp. by vm_compute.
Defined.

(** The flush at the threshold, when the index calls succeed: one insert of
    the 5000 nodes, the hashes of the two documents, one persist. *)
Example threshold_flush_writes_index :
  length <$> insert_log (PipelineIngestComponent.index
    (@PipelineIngestComponent._write_nodes Scenario.quiet Empty_set
       (PipelineIngestComponent.process_item
          <$> (Scenario.threshold_payloads ++ [Scenario.threshold_last]))
       (PipelineIngestComponent.new_writer empty_world)).2) = [5000%nat]
  ∧ length (hash_log (PipelineIngestComponent.index
      (@PipelineIngestComponent._write_nodes Scenario.quiet Empty_set
         (PipelineIngestComponent.process_item
            <$> (Scenario.threshold_payloads ++ [Scenario.threshold_last]))
         (PipelineIngestComponent.new_writer empty_world)).2)) = 2%nat
  ∧ persist_count (PipelineIngestComponent.index
      (@PipelineIngestComponent._write_nodes Scenario.quiet Empty_set
         (PipelineIngestComponent.process_item
            <$> (Scenario.threshold_payloads ++ [Scenario.threshold_last]))
         (PipelineIngestComponent.new_writer empty_world)).2) = 1%nat.
Proof. split_and!; by vm_compute. Qed.

(** A failed flush is not retried: the index raises on the insert of the
    5000 accumulated nodes; the stacks are cleared all the same, the later
    [flush] finds nothing to write, and the batch was handed to
    [insert_nodes] once. *)
Example failed_flush_discards_batch :
  PipelineIngestComponent.node_stack
    (@PipelineIngestComponent._write_nodes
       (Scenario.collaborators (Scenario.fault_at OpInsertNodes "disk full") 0)
       Empty_set
       ((PipelineIngestComponent.process_item
           <$> (Scenario.threshold_payloads ++ [Scenario.threshold_last]))
        ++ [PipelineIngestComponent.Flush])
       (PipelineIngestComponent.new_writer empty_world)).2 = []
  ∧ length <$> insert_log (PipelineIngestComponent.index
      (@PipelineIngestComponent._write_nodes
         (Scenario.collaborators (Scenario.fault_at OpInsertNodes "disk full") 0)
         Empty_set
         ((PipelineIngestComponent.process_item
             <$> (Scenario.threshold_payloads ++ [Scenario.threshold_last]))
          ++ [PipelineIngestComponent.Flush])
         (PipelineIngestComponent.new_writer empty_world)).2) = [5000%nat]
  ∧ persist_count (PipelineIngestComponent.index
      (@PipelineIngestComponent._write_nodes
         (Scenario.collaborators (Scenario.fault_at OpInsertNodes "disk full") 0)
         Empty_set
         ((PipelineIngestComponent.process_item
             <$> (Scenario.threshold_payloads ++ [Scenario.threshold_last]))
          ++ [PipelineIngestComponent.Flush])
         (PipelineIngestComponent.new_writer empty_world)).2) = 0%nat.
Proof. split_and!; by vm_compute. Qed.

(** * Further properties of the two source files *)

(** ** [batch_nodes] and [batch_fields] *)

Section BatchingMore.
Context {A : Type}.
Implicit Types (l : list A) (n : nat).

Lemma batch_lookup l n i batch :
  batch_fields l n !! i = Some batch →
  (i < (length l + n - 1) / n)%nat ∧ batch = take n (drop (i * n) l).
Proof.
  unfold batch_fields, py_range0. rewrite !list_lookup_fmap.
  destruct (seq 0 ((length l + n - 1) / n) !! i) as [j|] eqn:Hj; [|done].
  apply lookup_seq in Hj as [-> Hlt]. simpl. intros [= <-]. done.
Qed.

Lemma batch_index_start l n i :
  (0 < n)%nat → (i < (length l + n - 1) / n)%nat → (i * n < length l)%nat.
Proof.
  intros Hn Hi.
  pose proof (Nat.div_mod_eq (length l + n - 1) n) as Hd.
  pose proof (Nat.mod_upper_bound (length l + n - 1) n) as Hm.
  nia.
Qed.

(** X1: for a positive batch size the batches, in order, make up the input
    again; there are [ceil(len / batch_size)] of them, none is empty and
    none is longer than the batch size.  An empty input gives no batch. *)
Theorem batch_nodes_partition l n :
  (0 < n)%nat →
  concat (batch_nodes l n) = l
  ∧ length (batch_nodes l n) = ((length l + n - 1) / n)%nat
  ∧ Forall (λ batch, (0 < length batch ≤ n)%nat) (batch_nodes l n)
  ∧ (l = [] → batch_nodes l n = []).
Proof.
  intros Hn. unfold batch_nodes. split_and!.
  - by apply batch_fields_concat.
  - apply batch_fields_length.
  - apply Forall_lookup. intros i batch Hb.
    apply batch_lookup in Hb as [Hi ->].
    pose proof (batch_index_start l n i Hn Hi).
    rewrite length_take, length_drop. lia.
  - intros ->. apply nil_length_inv. rewrite batch_fields_length. simpl.
    apply Nat.div_small. lia.
Qed.

(** X2: the [i]-th batch is the slice [l[i*n : (i+1)*n]], and every batch
    but the last has exactly [batch_size] elements. *)
Theorem batch_nodes_slices l n i batch :
  (0 < n)%nat →
  batch_nodes l n !! i = Some batch →
  batch = take n (drop (i * n) l)
  ∧ ((S i < length (batch_nodes l n))%nat → length batch = n).
Proof.
  intros Hn Hb. unfold batch_nodes in *.
  apply batch_lookup in Hb as [Hi ->]. split; [done|].
  rewrite batch_fields_length. intros Hlast.
  pose proof (batch_index_start l n (S i) Hn Hlast).
  rewrite length_take, length_drop. lia.
Qed.
End BatchingMore.

Lemma batch_nodes_partition_witness :
  concat (batch_nodes [1; 2; 3; 4; 5; 6; 7]%nat 3) = [1; 2; 3; 4; 5; 6; 7]%nat
  ∧ length (batch_nodes [1; 2; 3; 4; 5; 6; 7]%nat 3) = 3%nat.
Proof.
  destruct (batch_nodes_partition [1; 2; 3; 4; 5; 6; 7]%nat 3) as (H1 & H2 & _);
    [lia|].
  split; [exact H1|exact H2].
Defined.

Lemma batch_nodes_slices_witness :
  [4; 5; 6]%nat = take 3 (drop (1 * 3) [1; 2; 3; 4; 5; 6; 7]%nat)
  ∧ length [4; 5; 6]%nat = 3%nat.
Proof.
  destruct (batch_nodes_slices [1; 2; 3; 4; 5; 6; 7]%nat 3 1 [4; 5; 6]%nat)
    as [H1 H2]; [lia|reflexivity|].
  split; [exact H1|]. apply H2. vm_compute. lia.
Defined.

(** ** [deep_update]: what a merge keeps *)

Section DeepUpdateMore.
Import DeepUpdate.

(** X3: the keys of the merge are those of the base and of the overlay, and
    a key the overlay does not have keeps the value of the base. *)
Theorem deep_update_dom (d um : gmap string json) :
  dom (deep_update d (JDict um)) = dom d ∪ dom um
  ∧ ∀ k, um !! k = None → deep_update d (JDict um) !! k = d !! k.
Proof.
  split.
  - apply set_eq. intros k. rewrite elem_of_union, !elem_of_dom.
    rewrite deep_update_lookup.
    destruct (um !! k) as [v|] eqn:Hk.
    + split; [by right|]. eauto.
    + split; [by left|]. intros [|[? ?]]; done.
  - intros k Hk. by rewrite deep_update_lookup, Hk.
Qed.

(** X4: merging an empty overlay, or an overlay that is not a mapping,
    leaves the base as it is; merging into an empty base gives the overlay. *)
Theorem deep_update_identities (d um : gmap string json) (u : json) :
  deep_update d (JDict ∅) = d
  ∧ (is_dict u = false → deep_update d u = d)
  ∧ deep_update ∅ (JDict um) = um.
Proof.
  split_and!.
  - apply map_eq. intros k. by rewrite deep_update_lookup, lookup_empty.
  - by destruct u.
  - apply map_eq. intros k. rewrite deep_update_lookup, lookup_empty.
    destruct (um !! k) as [v|]; [|done]. by destruct v.
Qed.

(** X5: the overlay wins at every depth: a value of the overlay that is not
    a mapping is, at the same path, the value of the merge. *)
Theorem deep_update_overlay_wins (p : list string) (leaf : json) :
  ∀ d um,
    p ≠ [] → is_dict leaf = false →
    get_path p (JDict um) = Some leaf →
    get_path p (JDict (deep_update d (JDict um))) = Some leaf.
Proof.
  induction p as [|k p IH]; intros d um Hp Hleaf; [done|].
  cbn [get_path]. rewrite deep_update_lookup.
  destruct (um !! k) as [v|] eqn:Hk; [|done].
  destruct p as [|k' p].
  { cbn [get_path]. intros [= ->]. by destruct leaf. }
  destruct v as [| | | | |vm]; try done.
  intros Hv. cbn [stored].
  destruct (d !! k) as [[| | | | |dk]|]; try done.
  case_decide; [done|]. by apply IH.
Qed.
End DeepUpdateMore.

Lemma deep_update_dom_witness :
  DeepUpdate.deep_update Scenario2.stored_result
    (JDict Scenario2.found_fields) !! "carrier"
  = Some (JStr "Acme").
Proof.
  destruct (deep_update_dom Scenario2.stored_result Scenario2.found_fields)
    as [_ H].
  rewrite (H "carrier"); [by vm_compute|by vm_compute].
Defined.

Lemma deep_update_identities_witness :
  DeepUpdate.deep_update Scenario2.stored_result (JStr "no answer")
  = Scenario2.stored_result.
Proof.
  destruct (deep_update_identities Scenario2.stored_result ∅
              (JStr "no answer")) as (_ & H & _).
  by apply H.
Defined.

Lemma deep_update_overlay_wins_witness :
  get_path ["plan"; "deductible"]
    (JDict (DeepUpdate.deep_update Scenario2.stored_result
              (JDict Scenario2.found_fields)))
  = Some (JNum 500).
Proof.
  apply deep_update_overlay_wins; [done|done|]. by vm_compute.
Defined.

(** ** [ExtractionComponent]: the stored results *)

Section StoreFacts.
Import Py ExtractionComponent ExtractionStore.
Context (E : env).


End StoreFacts.


Section ListResults.
Import Py ExtractionComponent ExtractionStore.
Context (E : env).



End ListResults.


(** ** [extract_document]: what a completed extraction leaves behind *)

Lemma filter_other_path (l : list string) (path : string) :
  path ∉ l → filter (λ p, p ≠ path) l = l.
Proof.
  induction l as [|x l IH]; [done|]. intros Hnot.
  apply not_elem_of_cons in Hnot as [Hx Hl].
  rewrite filter_cons_True by done. by rewrite IH.
Qed.

Section ExtractionMore.
Import Py ExtractionComponent.
Context (E : env).

(** X8: when [extract_document] returns a mapping with status
    ['completed'], the record stored for the document id carries the same
    extraction id and the same result as the returned mapping, and the
    chunk archive of the id holds one chunk per document given. *)
Theorem extract_completed_is_stored {R} (documents : list Document)
    (document_type file_name doc_id : string) (agent_name : option string)
    (w : world) (v : json) (m : gmap string json) :
  (@extract_document E R documents document_type file_name doc_id agent_name
     w).1 = Normal v →
  v = JDict m → m !! "status" = Some (JStr "completed") →
  let w' := (@extract_document E R documents document_type file_name doc_id
               agent_name w).2 in
  let extraction_id := uuid4 E (uuid_count w) in
  let chunks := chunk_of <$> documents in
  let result := agent_extract_data E (JDict {[ "chunks" := JList chunks ]}) in
  v = completed_mapping extraction_id doc_id document_type file_name result
  ∧ (∃ timestamp,
       result_files w' !! doc_id
       = Some (result_record extraction_id doc_id document_type file_name
                 result timestamp))
  ∧ chunk_files w' !! doc_id
    = Some (JDict {[ "chunks" := JList chunks;
                     "document_type" := JStr document_type;
                     "file_name" := JStr file_name ]}).
Proof.
  intros Hrun -> Hstatus. revert Hrun.
  unfold extract_document, call, extract_body, extract_and_store,
    _store_extraction_data, new_uuid, try_except, try_finally.
  unfold mbind, M_bind, bind, ext, modify, get, return_. cbn.
  repeat match goal with
         | |- context [fault E ?o ?w] => destruct (fault E o w); cbn
         end;
    intros [= <-]; try (exfalso; vm_compute in Hstatus; discriminate).
  all: split_and!;
    [done|eexists; apply lookup_insert_eq|apply lookup_insert_eq].
Qed.

(** X9: the metadata of a chunk holds, of the document's metadata, exactly
    the entries for ["page"], ["bbox"] and ["chunk_type"] whose value is not
    [None]; a key that is missing and a key set to [None] are both left
    out. *)
Theorem chunk_of_metadata (doc : Document) :
  ∃ md, chunk_of doc = JDict {[ "text" := JStr (text doc);
                                "metadata" := JDict md ]}
        ∧ ∀ k v, md !! k = Some v
                 ↔ (k = "page" ∨ k = "bbox" ∨ k = "chunk_type")
                   ∧ metadata doc !! k = Some v ∧ v ≠ JNull.
Proof.
  eexists. split; [reflexivity|]. intros k v.
  rewrite map_lookup_filter_Some. cbn [snd].
  assert (∀ x, is_none x = false ↔ x ≠ JNull) as Hnone
    by (intros x; destruct x; split; done).
  rewrite Hnone. unfold dict_get.
  split.
  - intros [Hk Hv].
    destruct (decide (k = "page")) as [->|?];
      [|destruct (decide (k = "bbox")) as [->|?];
        [|destruct (decide (k = "chunk_type")) as [->|?]]].
    4:{ by simplify_map_eq. }
    all: simplify_map_eq;
      (split; [tauto|]); split; [|done];
      match goal with |- ?o = _ => destruct o; simpl in *; congruence end.
  - intros (Hk & Hm & Hv). split; [|done].
    destruct Hk as [ -> | [ -> | -> ] ]; by simplify_map_eq.
Qed.

(** X10: a call that gets past [json.dump(content, temp_file)], with a
    fresh temporary name and a cleanup that does not raise, leaves no
    temporary file behind, whether the extraction itself succeeded or
    raised. *)
Theorem extract_document_removes_temp_file {R} (documents : list Document)
    (document_type file_name doc_id : string) (agent_name : option string)
    (w : world) :
  (∀ w0, fault E OpDumpContent w0 = None) →
  (∀ w0, fault E OpUnlink w0 = None) →
  (∀ w0, temp_files w0 = temp_files w → temp_name E w0 ∉ temp_files w) →
  temp_files (@extract_document E R documents document_type file_name doc_id
                agent_name w).2 = temp_files w.
Proof.
  intros Hdump Hunlink Hfresh.
  unfold extract_document, call, extract_body, extract_and_store,
    _store_extraction_data, new_uuid, try_except, try_finally.
  unfold mbind, M_bind, bind, ext, modify, get, return_. cbn.
  repeat match goal with
         | |- context [fault E OpUnlink ?w] => rewrite (Hunlink w); cbn
         | |- context [fault E OpDumpContent ?w] => rewrite (Hdump w); cbn
         | |- context [fault E ?o ?w] => destruct (fault E o w); cbn
         end; try done.
  all: rewrite filter_app, filter_cons_False, filter_nil, app_nil_r
         by (intros ?; done);
       by apply filter_other_path, Hfresh.
Qed.
End ExtractionMore.

Lemma extract_completed_is_stored_witness :
  ∃ timestamp,
    result_files (@ExtractionComponent.extract_document Scenario.quiet
                    Empty_set [Scenario.page] "Benefit" "policy.pdf" "doc-1"
                    None empty_world).2 !! "doc-1"
    = Some (ExtractionComponent.result_record "uuid-0" "doc-1" "Benefit"
              "policy.pdf" Scenario.extracted timestamp).
Proof.
  edestruct (extract_completed_is_stored Scenario.quiet (R:=Empty_set)
               [Scenario.page] "Benefit" "policy.pdf" "doc-1" None
               empty_world) as (_ & Hr & _);
    [by vm_compute|reflexivity|by vm_compute|].
  exact Hr.
Defined.

Lemma extract_document_removes_temp_file_witness :
  temp_files (@ExtractionComponent.extract_document
                (Scenario.collaborators
                   (Scenario.fault_at OpAgentExtract "backend down") 0)
                Empty_set [Scenario.page] "Benefit" "policy.pdf" "doc-1" None
                empty_world).2 = [].
Proof.
  apply (extract_document_removes_temp_file
           (Scenario.collaborators
              (Scenario.fault_at OpAgentExtract "backend down") 0)
           (R:=Empty_set)); try done.
  intros w0 _. apply not_elem_of_nil.
Defined.

(** ** The index calls of [_save_docs] and [run_embedding] *)

(** Equations between worlds built with the setters. *)
Ltac world_eq w :=
  destruct w;
  unfold set_insert_log, set_hash_log, set_persist_count, set_phase_log,
    set_rag_calls, set_result_files, set_chunk_files, set_temp_files,
    set_threads, set_original_files, set_uuid_count;
  cbn; rewrite ?app_nil_r, <-?app_assoc; try done.

Section IndexBlocks.
Import Py Background.
Context (E : env).

(** The insert loop calls [insert_nodes] on the batches in order and stops
    at the first call that raises; it touches nothing but the index. *)
Lemma insert_loop_log {R} (batches : list (list BaseNode)) (w : world) o w' :
  @for_each world R _ batches (insert_nodes E) w = (o, w') →
  ∃ n, w' = set_insert_log (λ l, l ++ take n batches) w
       ∧ (o = Normal tt → take n batches = batches)
       ∧ (o = Normal tt
          ∨ ∃ e w0, o = Raise e ∧ fault E OpInsertNodes w0 = Some e).
Proof.
  revert w. induction batches as [|b bs IH]; intros w.
  - cbn. intros [= <- <-]. exists 0%nat. cbn.
    split_and!; [by world_eq w|done|auto].
  - cbn [for_each]. unfold bind at 1. unfold insert_nodes at 1.
    rewrite run_modify_bind. unfold ext.
    destruct (fault E OpInsertNodes _) as [e|] eqn:Hf; cbn [fst snd].
    + intros [= <- <-]. exists 1%nat. cbn. rewrite take_0.
      split_and!; [by world_eq w|done|eauto].
    + intros Hrun. destruct (IH _ Hrun) as (n & -> & Hn & Ho).
      exists (S n). split_and!.
      * by world_eq w.
      * intros Hok. cbn. by rewrite Hn.
      * exact Ho.
Qed.

Lemma hash_loop_log {R} (documents : list Document) (w : world) o w' :
  @set_document_hashes E R documents w = (o, w') →
  ∃ n, w' = set_hash_log (λ l, l ++ take n (get_doc_id <$> documents)) w
       ∧ (o = Normal tt →
          take n (get_doc_id <$> documents) = get_doc_id <$> documents)
       ∧ (o = Normal tt
          ∨ ∃ e w0, o = Raise e ∧ fault E OpSetDocumentHash w0 = Some e).
Proof.
  unfold set_document_hashes.
  revert w. induction documents as [|d ds IH]; intros w.
  - cbn. intros [= <- <-]. exists 0%nat. cbn.
    split_and!; [by world_eq w|done|auto].
  - cbn [for_each]. unfold bind at 1. rewrite run_bind. unfold ext.
    destruct (fault E OpSetDocumentHash w) as [e|] eqn:Hf; cbn [fst snd].
    + intros [= <- <-]. exists 0%nat. cbn.
      split_and!; [by world_eq w|done|eauto].
    + cbn [modify]. intros Hrun. destruct (IH _ Hrun) as (n & -> & Hn & Ho).
      exists (S n). split_and!.
      * by world_eq w.
      * intros Hok. cbn. by rewrite Hn.
      * exact Ho.
Qed.

Lemma _save_index_run {R} (w : world) o w' :
  @_save_index E R w = (o, w') →
  (o = Normal tt ∧ w' = set_persist_count S w)
  ∨ (∃ e, o = Raise e ∧ w' = w ∧ fault E OpSaveIndex w = Some e).
Proof.
  unfold _save_index. rewrite run_bind. unfold ext.
  destruct (fault E OpSaveIndex w) as [e|] eqn:Hf; cbn; intros [= <- <-];
    eauto.
Qed.

(** One run of the body shared by the copies of [_save_docs], for a batch
    size that is not zero. *)
Lemma save_docs_run {R} (documents : list Document) (w : world) o w' :
  embed_batch_size E ≠ 0%Z →
  @ParallelizedIngestComponent._save_docs E R documents w = (o, w') →
  let batches :=
    if Z.ltb (embed_batch_size E) 0 then []
    else batch_nodes (run_transformations E documents)
           (Z.to_nat (embed_batch_size E)) in
  (o = Normal documents
   ∧ w' = set_persist_count S
            (set_hash_log (λ l, l ++ (get_doc_id <$> documents))
               (set_insert_log (λ l, l ++ batches) w)))
  ∨ ((∃ e op w0, o = Raise e ∧ fault E op w0 = Some e)
     ∧ persist_count w' = persist_count w
     ∧ ∃ n, insert_log w' = insert_log w ++ take n batches).
Proof.
  intros Hbs Hrun batches. revert Hrun.
  unfold ParallelizedIngestComponent._save_docs.
  fold (embed_batch_size E). rewrite run_bind. unfold ext at 1.
  destruct (fault E OpRunTransformations w) as [e|] eqn:Hf.
  { intros [= <- <-]. right. split_and!; [eauto 6|done|].
    exists 0%nat. by rewrite take_0, app_nil_r. }
  rewrite run_bind. unfold insert_in_batches.
  destruct (Z.eqb_spec (embed_batch_size E) 0) as [|_]; [done|].
  fold batches.
  destruct (@for_each world R _ batches (insert_nodes E) w) as [o1 w1] eqn:Hins.
  apply insert_loop_log in Hins as (n & -> & Hn & Ho1).
  destruct Ho1 as [->|(e & w0 & -> & Hf1)].
  2:{ intros [= <- <-]. right. split_and!; [eauto 6|by world_eq w|].
      exists n. by world_eq w. }
  rewrite (Hn eq_refl). rewrite run_bind.
  destruct (set_document_hashes E documents _) as [o2 w2] eqn:Hhash.
  apply hash_loop_log in Hhash as (k & -> & Hk & Ho2).
  destruct Ho2 as [->|(e & w0 & -> & Hf2)].
  2:{ intros [= <- <-]. right. split_and!; [eauto 6|by world_eq w|].
      exists (length batches). rewrite firstn_all. by world_eq w. }
  rewrite (Hk eq_refl). rewrite run_bind.
  destruct (_save_index E _) as [o3 w3] eqn:Hsave.
  apply _save_index_run in Hsave as [[-> ->]|(e & -> & -> & Hf3)].
  - intros [= <- <-]. by left.
  - intros [= <- <-]. right. split_and!; [eauto 6|by world_eq w|].
    exists (length batches). rewrite firstn_all. by world_eq w.
Qed.

Lemma save_docs_degenerate_batch_size_aux {R} (documents : list Document)
    (w : world) :
  embed_batch_size E = 0%Z →
  ∃ e, @ParallelizedIngestComponent._save_docs E R documents w = (Raise e, w).
Proof.
  intros Hz. unfold ParallelizedIngestComponent._save_docs.
  fold (embed_batch_size E). rewrite run_bind. unfold ext at 1.
  destruct (fault E OpRunTransformations w) as [e|]; [eauto|].
  rewrite run_bind. unfold insert_in_batches. rewrite Hz. cbn. eauto.
Qed.

(** X11: every copy of [_save_docs] (Simple, Batch, Parallelized), with a
    positive [embed_batch_size] (32 when the model has none): when it
    returns, it returns its argument, has handed the nodes of the documents
    to [insert_nodes] in order, in batches of at most that size, each node
    once, has recorded the hash of every document and has persisted the
    index once; when it raises, the index has not been persisted. *)
Theorem save_docs_outcome {R} (documents : list Document) (w : world) :
  (0 < embed_batch_size E)%Z →
  Forall (λ save : list Document → M world R (list Document),
    let batches := batch_nodes (run_transformations E documents)
                     (Z.to_nat (embed_batch_size E)) in
    concat batches = run_transformations E documents
    ∧ Forall (λ b, (Z.of_nat (length b) ≤ embed_batch_size E)%Z) batches
    ∧ ((∃ ds, (save documents w).1 = Normal ds) →
       save documents w
       = (Normal documents,
          set_persist_count S
            (set_hash_log (λ l, l ++ (get_doc_id <$> documents))
               (set_insert_log (λ l, l ++ batches) w))))
    ∧ ((∃ e, (save documents w).1 = Raise e) →
       persist_count (save documents w).2 = persist_count w))
    (save_docs_copies E).
Proof.
  intros Hbs.
  assert (∀ save : list Document → M world R (list Document),
            save = ParallelizedIngestComponent._save_docs E →
            let batches := batch_nodes (run_transformations E documents)
                             (Z.to_nat (embed_batch_size E)) in
            concat batches = run_transformations E documents
            ∧ Forall (λ b, (Z.of_nat (length b) ≤ embed_batch_size E)%Z)
                batches
            ∧ ((∃ ds, (save documents w).1 = Normal ds) →
               save documents w
               = (Normal documents,
                  set_persist_count S
                    (set_hash_log (λ l, l ++ (get_doc_id <$> documents))
                       (set_insert_log (λ l, l ++ batches) w))))
            ∧ ((∃ e, (save documents w).1 = Raise e) →
               persist_count (save documents w).2 = persist_count w))
    as Hone.
  { intros save -> batches.
    split_and!.
    - apply batch_fields_concat. lia.
    - eapply Forall_impl; [apply batch_fields_bound|]. cbn. intros b Hb. lia.
    - destruct (ParallelizedIngestComponent._save_docs E documents w)
        as [o w'] eqn:Hrun.
      apply save_docs_run in Hrun; [|lia]. cbv zeta in Hrun.
      destruct (Z.ltb_spec (embed_batch_size E) 0); [lia|].
      cbn [fst]. intros [ds ->].
      by destruct Hrun as [[[= ->] ->]|[(e & ? & ? & [=] & _) _]].
    - destruct (ParallelizedIngestComponent._save_docs E documents w)
        as [o w'] eqn:Hrun.
      apply save_docs_run in Hrun; [|lia]. cbn [fst snd]. intros [e ->].
      by destruct Hrun as [[[=] _]|(_ & Hp & _)]. }
  unfold save_docs_copies.
  do 3 (apply Forall_cons_2; [exact (Hone _ eq_refl)|]). apply Forall_nil_2.
Qed.

(** X12: the degenerate batch sizes.  With [embed_batch_size = 0] every
    copy of [_save_docs] raises before it calls the index at all; with a
    negative one it calls [insert_nodes] never, and may still record the
    hashes and persist the index. *)
Theorem save_docs_degenerate_batch_size {R} (documents : list Document)
    (w : world) :
  Forall (λ save : list Document → M world R (list Document),
    (embed_batch_size E = 0%Z →
       ∃ e, save documents w = (Raise e, w))
    ∧ ((embed_batch_size E < 0)%Z →
       insert_log (save documents w).2 = insert_log w
       ∧ ((∀ o w0, fault E o w0 = None) →
          save documents w
          = (Normal documents,
             set_persist_count S
               (set_hash_log (λ l, l ++ (get_doc_id <$> documents)) w)))))
    (save_docs_copies E).
Proof.
  assert (∀ save : list Document → M world R (list Document),
            save = ParallelizedIngestComponent._save_docs E →
    (embed_batch_size E = 0%Z →
       ∃ e, save documents w = (Raise e, w))
    ∧ ((embed_batch_size E < 0)%Z →
       insert_log (save documents w).2 = insert_log w
       ∧ ((∀ o w0, fault E o w0 = None) →
          save documents w
          = (Normal documents,
             set_persist_count S
               (set_hash_log (λ l, l ++ (get_doc_id <$> documents)) w)))))
    as Hone.
  { intros save ->. split.
    - apply save_docs_degenerate_batch_size_aux.
    - intros Hneg.
      destruct (ParallelizedIngestComponent._save_docs E documents w)
        as [o w'] eqn:Hrun.
      apply save_docs_run in Hrun as Hcases; [|lia]. cbv zeta in Hcases.
      destruct (Z.ltb_spec (embed_batch_size E) 0); [|lia].
      cbn [fst snd]. split.
      + destruct Hcases as [[_ ->]|(_ & _ & n & ->)]; [by world_eq w|].
        by rewrite take_nil, app_nil_r.
      + intros Hquiet.
        destruct Hcases as [[-> ->]|[(e & op & w0 & _ & Hf) _]].
        * f_equal. by world_eq w.
        * by rewrite Hquiet in Hf. }
  unfold save_docs_copies.
  do 3 (apply Forall_cons_2; [exact (Hone _ eq_refl)|]). apply Forall_nil_2.
Qed.
End IndexBlocks.

Lemma save_docs_outcome_witness :
  (@BatchIngestComponent._save_docs Scenario.quiet Empty_set [Scenario.page]
     empty_world).1 = Py.Normal [Scenario.page].
Proof.
  pose proof (save_docs_outcome Scenario.quiet (R:=Empty_set) [Scenario.page]
                empty_world eq_refl) as H.
  apply Forall_cons_1 in H as [_ H]. apply Forall_cons_1 in H as [H _].
  destruct H as (_ & _ & H & _).
  rewrite H; [done|]. eexists. by vm_compute.
Defined.

Lemma save_docs_degenerate_batch_size_witness :
  ∃ e, @SimpleIngestComponentBulk._save_docs
         (Scenario3.with_embed_batch_size 0) Empty_set [Scenario.page]
         empty_world
       = (Py.Raise e, empty_world).
Proof.
  pose proof (save_docs_degenerate_batch_size
                (Scenario3.with_embed_batch_size 0) (R:=Empty_set)
                [Scenario.page] empty_world) as H.
  apply Forall_cons_1 in H as [[H _] _]. by apply H.
Defined.

(** ** [bulk_ingest] of the synchronous orchestrators *)

Section BulkIngest.
Import Py Background.
Context (E : env) (parse_fault : string → string → option exn).

Lemma parse_file_run {R} file_name file_data (w : world) :
  (@parse_file E parse_fault R file_name file_data w).2 = w
  ∧ ((@parse_file E parse_fault R file_name file_data w).1
       = Normal (transform_file_into_documents E file_name file_data)
     ∧ parse_fault file_name file_data = None
     ∨ ∃ e, (@parse_file E parse_fault R file_name file_data w).1 = Raise e
            ∧ (parse_fault file_name file_data = Some e
               ∨ fault E OpTransformFile w = Some e)).
Proof.
  unfold parse_file. destruct (parse_fault file_name file_data) as [e|] eqn:Hp.
  - cbn. eauto 6.
  - rewrite run_bind. unfold ext.
    destruct (fault E OpTransformFile w) as [e|]; cbn; eauto 6.
Qed.

(** The documents of a list of files, as the parser yields them. *)
Lemma parse_loop_run {R} (files : list (string * string)) acc (w : world) o w' :
  fold_each files acc (λ documents file,
    parsed ← @parse_file E parse_fault R file.1 file.2;
    mret (documents ++ parsed)) w = (o, w') →
  w' = w
  ∧ ((o = Normal (acc ++ concat ((λ f, transform_file_into_documents E f.1 f.2)
                                   <$> files))
      ∧ Forall (λ f, parse_fault f.1 f.2 = None) files)
     ∨ (∃ e, o = Raise e)).
Proof.
  revert acc. induction files as [|f files IH]; intros acc.
  - cbn. intros [= <- <-]. split; [done|]. left. by rewrite app_nil_r.
  - cbn [fold_each]. unfold bind at 1. rewrite run_bind.
    pose proof (parse_file_run (R:=R) f.1 f.2 w) as [Hw Ho].
    destruct (parse_file E parse_fault f.1 f.2 w) as [o1 w1].
    cbn [fst snd] in *. subst w1.
    destruct Ho as [[-> Hp]|(e & -> & _)].
    + cbn. intros Hrun. destruct (IH _ Hrun) as [-> Hrest].
      split; [done|]. destruct Hrest as [[-> Hall]|?]; [|by right].
      left. split; [by rewrite <-app_assoc|by constructor].
    + intros [= <- <-]. split; [done|]. right. eauto.
Qed.

(** X13: [BatchIngestComponent.bulk_ingest] parses every file before it
    writes anything: when the parser fails on one of the files the call
    raises and the world is as before; when the call returns, it returns
    the documents of all files in order and has persisted the index exactly
    once, also for an empty list of files. *)
Theorem batch_bulk_ingest_all_or_nothing {R} (files : list (string * string))
    (w : world) :
  ((∃ f, f ∈ files ∧ parse_fault f.1 f.2 ≠ None) →
     ∃ e, @BatchIngestComponent.bulk_ingest E parse_fault R files w
          = (Raise e, w))
  ∧ (∀ ds, (@BatchIngestComponent.bulk_ingest E parse_fault R files w).1
           = Normal ds →
       ds = concat ((λ f, transform_file_into_documents E f.1 f.2) <$> files)
       ∧ persist_count
           (@BatchIngestComponent.bulk_ingest E parse_fault R files w).2
         = S (persist_count w)).
Proof.
  unfold BatchIngestComponent.bulk_ingest. rewrite run_bind.
  match goal with |- context [fold_each files [] ?b w] =>
    destruct (fold_each files [] b w) as [o1 w1] eqn:Hparse
  end.
  apply parse_loop_run in Hparse as [-> Ho1]. split.
  - intros (f & Hf & Hfault).
    destruct Ho1 as [[_ Hall]|[e ->]]; [|eauto].
    rewrite Forall_forall in Hall. by apply Hall in Hf.
  - intros ds. destruct Ho1 as [[-> _]|[e ->]]; [|done]. cbn [app].
    change (@BatchIngestComponent._save_docs E R)
      with (@ParallelizedIngestComponent._save_docs E R).
    match goal with |- context [ParallelizedIngestComponent._save_docs E ?d w]
      => destruct (ParallelizedIngestComponent._save_docs E d w)
           as [o2 w2] eqn:Hsave
    end.
    cbn [fst snd]. intros ->.
    destruct (decide (embed_batch_size E = 0)) as [Hz|Hnz].
    { edestruct (save_docs_degenerate_batch_size_aux E (R:=R)) as [e He];
        [exact Hz|]. rewrite He in Hsave. done. }
    apply save_docs_run in Hsave; [|done].
    destruct Hsave as [[[= ->] ->]|[(e & ? & ? & [=] & _) _]].
    split; [done|]. by world_eq w.
Qed.

Lemma save_docs_returns {R} (documents : list Document) (w : world) ds w' :
  @ParallelizedIngestComponent._save_docs E R documents w = (Normal ds, w') →
  ds = documents ∧ persist_count w' = S (persist_count w)
  ∧ hash_log w' = hash_log w ++ (get_doc_id <$> documents).
Proof.
  intros Hsave.
  destruct (decide (embed_batch_size E = 0)) as [Hz|Hnz].
  { edestruct (save_docs_degenerate_batch_size_aux E (R:=R)) as [e He];
      [exact Hz|]. rewrite He in Hsave. done. }
  apply save_docs_run in Hsave; [|done].
  destruct Hsave as [[[= ->] ->]|[(e & ? & ? & [=] & _) _]].
  split_and!; [done|by world_eq w..].
Qed.

Lemma simple_bulk_loop {R} (files : list (string * string)) acc (w : world)
    ds w' :
  fold_each files acc (λ saved_documents file,
    documents ← @parse_file E parse_fault R file.1 file.2;
    saved ← SimpleIngestComponentBulk._save_docs E documents;
    mret (saved_documents ++ saved)) w = (Normal ds, w') →
  ds = acc ++ concat ((λ f, transform_file_into_documents E f.1 f.2) <$> files)
  ∧ persist_count w' = (length files + persist_count w)%nat.
Proof.
  revert acc w. induction files as [|f files IH]; intros acc w.
  - cbn. intros [= <- <-]. by rewrite app_nil_r.
  - cbn [fold_each]. unfold bind at 1. rewrite run_bind.
    pose proof (parse_file_run (R:=R) f.1 f.2 w) as [Hw Ho].
    destruct (parse_file E parse_fault f.1 f.2 w) as [o1 w1].
    cbn [fst snd] in *. subst w1.
    destruct Ho as [[-> Hp]|(e & -> & _)]; [|done].
    rewrite run_bind.
    change (@SimpleIngestComponentBulk._save_docs E R)
      with (@ParallelizedIngestComponent._save_docs E R).
    match goal with |- context [ParallelizedIngestComponent._save_docs E ?d w]
      => destruct (ParallelizedIngestComponent._save_docs E d w)
           as [[saved|e|r] w2] eqn:Hsave
    end; [|done..].
    apply save_docs_returns in Hsave as (-> & Hp2 & _).
    cbn. intros Hrun. apply IH in Hrun as [-> ->].
    rewrite Hp2, <-app_assoc. split; [done|lia].
Qed.

(** X14: when [SimpleIngestComponent.bulk_ingest] returns, it returns the
    documents of all files in order and has persisted the index once per
    file. *)
Theorem simple_bulk_ingest_returns {R} (files : list (string * string))
    (w : world) (ds : list Document) :
  (@SimpleIngestComponentBulk.bulk_ingest E parse_fault R files w).1
    = Normal ds →
  ds = concat ((λ f, transform_file_into_documents E f.1 f.2) <$> files)
  ∧ persist_count
      (@SimpleIngestComponentBulk.bulk_ingest E parse_fault R files w).2
    = (length files + persist_count w)%nat.
Proof.
  unfold SimpleIngestComponentBulk.bulk_ingest.
  match goal with |- context [fold_each files [] ?b w] =>
    destruct (fold_each files [] b w) as [o w'] eqn:Hrun
  end.
  cbn [fst snd]. intros ->. by apply simple_bulk_loop in Hrun.
Qed.

(** X15: [SimpleIngestComponent.bulk_ingest] does not undo what it wrote:
    when the parser fails on a file, with an index that does not raise, the
    call raises that fault, and the files before it stay saved, their
    hashes recorded and the index persisted once for each. *)
Theorem simple_bulk_ingest_keeps_earlier_files {R}
    (before after : list (string * string)) (file : string * string)
    (e : exn) (w : world) :
  (∀ o w0, fault E o w0 = None) →
  embed_batch_size E ≠ 0%Z →
  Forall (λ f, parse_fault f.1 f.2 = None) before →
  parse_fault file.1 file.2 = Some e →
  (@SimpleIngestComponentBulk.bulk_ingest E parse_fault R
     (before ++ file :: after) w).1 = Raise e
  ∧ persist_count
      (@SimpleIngestComponentBulk.bulk_ingest E parse_fault R
         (before ++ file :: after) w).2
    = (length before + persist_count w)%nat
  ∧ hash_log
      (@SimpleIngestComponentBulk.bulk_ingest E parse_fault R
         (before ++ file :: after) w).2
    = hash_log w
      ++ (get_doc_id <$> concat ((λ f, transform_file_into_documents E f.1 f.2)
                                   <$> before)).
Proof.
  intros Hquiet Hbs Hbefore Hfile.
  unfold SimpleIngestComponentBulk.bulk_ingest.
  change (@SimpleIngestComponentBulk._save_docs E R)
    with (@ParallelizedIngestComponent._save_docs E R).
  generalize (@nil Document) as acc. revert w.
  induction Hbefore as [|f before Hf _ IH]; intros w acc.
  - cbn [app fold_each]. unfold bind at 1 2 3. rewrite !run_bind.
    unfold parse_file. rewrite Hfile. cbn. by rewrite app_nil_r.
  - rewrite <-app_comm_cons. cbn [fold_each].
    match goal with |- context [bind ?m ?k w] =>
      destruct (bind m k w) as [o w'] eqn:Hrun
    end.
    revert Hrun. unfold bind at 1. rewrite run_bind.
    pose proof (parse_file_run (R:=R) f.1 f.2 w) as [Hw Ho].
    destruct (parse_file E parse_fault f.1 f.2 w) as [o1 w1].
    cbn [fst snd] in *. subst w1.
    destruct Ho as [[-> _]|(e' & -> & [Hp'|Hf'])];
      [|congruence|by rewrite Hquiet in Hf'].
    rewrite run_bind.
    match goal with |- context [ParallelizedIngestComponent._save_docs E ?d w]
      => destruct (ParallelizedIngestComponent._save_docs E d w)
           as [o2 w2] eqn:Hsave
    end.
    apply save_docs_run in Hsave as Hcases; [|done].
    destruct Hcases as [[-> _]|[(e' & op & w0 & _ & Hf') _]].
    2:{ by rewrite Hquiet in Hf'. }
    apply save_docs_returns in Hsave as (_ & Hp & Hh).
    cbn [mret M_ret ret]. intros Hrun.
    specialize (IH w2 (acc ++ transform_file_into_documents E f.1 f.2)).
    rewrite Hrun in IH. cbn [fst snd] in *. destruct IH as (-> & -> & ->).
    rewrite Hp, Hh. split_and!; [done|cbn [length]; lia|].
    cbn [fmap list_fmap concat]. by rewrite fmap_app, app_assoc.
Qed.
End BulkIngest.

Lemma batch_bulk_ingest_all_or_nothing_witness :
  ∃ e, @BatchIngestComponent.bulk_ingest Scenario.quiet
         Scenario3.corrupt_bad_pdf Empty_set Scenario3.three_files empty_world
       = (Py.Raise e, empty_world).
Proof.
  destruct (batch_bulk_ingest_all_or_nothing Scenario.quiet
              Scenario3.corrupt_bad_pdf (R:=Empty_set) Scenario3.three_files
              empty_world) as [H _].
  apply H. exists ("bad.pdf", "/in/bad.pdf"). split; [|done].
  unfold Scenario3.three_files. apply elem_of_cons. right.
  apply elem_of_cons. by left.
Defined.

Lemma simple_bulk_ingest_returns_witness :
  persist_count
    (@SimpleIngestComponentBulk.bulk_ingest Scenario.quiet
       Scenario3.no_parse_fault Empty_set Scenario3.three_files empty_world).2
  = 3%nat.
Proof.
  edestruct (simple_bulk_ingest_returns Scenario.quiet
               Scenario3.no_parse_fault (R:=Empty_set) Scenario3.three_files
               empty_world) as [_ H]; [by vm_compute|].
  exact H.
Defined.

Lemma simple_bulk_ingest_keeps_earlier_files_witness :
  persist_count
    (@SimpleIngestComponentBulk.bulk_ingest Scenario.quiet
       Scenario3.corrupt_bad_pdf Empty_set Scenario3.three_files empty_world).2
  = 1%nat.
Proof.
  destruct (simple_bulk_ingest_keeps_earlier_files Scenario.quiet
              Scenario3.corrupt_bad_pdf (R:=Empty_set)
              [("a.pdf", "/in/a.pdf")] [("c.pdf", "/in/c.pdf")]
              ("bad.pdf", "/in/bad.pdf") (Py.Exception "corrupt file")
              empty_world) as (_ & H & _); try done.
  by repeat constructor.
Defined.

Section ParallelBulk.
Import Py Background.
Context (E : env).

(** X16: [ParallelizedIngestComponent.bulk_ingest] with an extraction
    component, when the original files get stored: it returns one stub per
    file, in order, with the file name and the next unused uuid each, starts
    one background thread per file, and writes no phase, inserts no node
    and stores no result itself.  With a uuid generator that does not repeat
    itself the ids of the stubs are pairwise distinct. *)
Theorem parallelized_bulk_ingest_stubs {R} (files : list (string * string))
    (w : world) :
  (∀ w0, fault E OpStoreOriginalFile w0 = None) →
  let ids := uuid4 E <$> seq (uuid_count w) (length files) in
  let run := @ParallelizedIngestComponentBulk.bulk_ingest E R files w in
  run.1 = Normal (zip_with (λ f id,
                    mkDocument id ""
                      {[ "file_name" := JStr f.1; "doc_id" := JStr id ]})
                    files ids)
  ∧ threads run.2
    = threads w ++ zip_with (λ f id, (f.1, stored_path E f.1 f.2, id))
                     files ids
  ∧ phase_log run.2 = phase_log w
  ∧ insert_log run.2 = insert_log w
  ∧ result_files run.2 = result_files w
  ∧ (Inj (=) (=) (uuid4 E) → NoDup ids).
Proof.
  intros Hstore ids run.
  assert (∀ acc w,
    let ids := uuid4 E <$> seq (uuid_count w) (length files) in
    let run := fold_each files acc (λ saved_documents file,
                 docs ← @ParallelizedIngestComponent.ingest E true R
                          file.1 file.2;
                 mret (saved_documents ++ docs)) w in
    run.1 = Normal (acc ++ zip_with (λ f id,
                      mkDocument id ""
                        {[ "file_name" := JStr f.1; "doc_id" := JStr id ]})
                      files ids)
    ∧ threads run.2
      = threads w ++ zip_with (λ f id, (f.1, stored_path E f.1 f.2, id))
                       files ids
    ∧ phase_log run.2 = phase_log w
    ∧ insert_log run.2 = insert_log w
    ∧ result_files run.2 = result_files w) as Hloop.
  { clear ids run. clear w.
    induction files as [|f files IH]; intros acc w.
    - cbn. by rewrite !app_nil_r.
    - cbn [fold_each length seq fmap list_fmap zip_with].
      match goal with |- context [bind ?m ?k w] =>
        assert (bind m k w
                = k (acc ++ [mkDocument (uuid4 E (uuid_count w)) ""
                               {[ "file_name" := JStr f.1;
                                  "doc_id" := JStr (uuid4 E (uuid_count w)) ]}])
                    (set_threads (λ l, l ++ [(f.1, stored_path E f.1 f.2,
                                              uuid4 E (uuid_count w))])
                       (set_uuid_count S
                          (set_original_files (λ l, l ++ [(f.1, f.2)]) w))))
          as ->
      end.
      { unfold bind at 1. rewrite run_bind.
        unfold ParallelizedIngestComponent.ingest,
          ParallelizedIngestComponent._background_save_docs, start_save_task,
          new_uuid.
        unfold mbind, M_bind, bind, ext, modify. cbn. by rewrite Hstore. }
      specialize (IH (acc ++ [mkDocument (uuid4 E (uuid_count w)) ""
                               {[ "file_name" := JStr f.1;
                                  "doc_id" := JStr (uuid4 E (uuid_count w)) ]}])
                    (set_threads (λ l, l ++ [(f.1, stored_path E f.1 f.2,
                                              uuid4 E (uuid_count w))])
                       (set_uuid_count S
                          (set_original_files (λ l, l ++ [(f.1, f.2)]) w)))).
      cbv zeta in IH. destruct IH as (-> & -> & -> & -> & ->).
      split_and!; try done.
      + by rewrite <-app_assoc.
      + cbn. by rewrite <-app_assoc. }
  destruct (Hloop [] w) as (H1 & H2 & H3 & H4 & H5).
  split_and!; try done.
  intros Hinj. subst ids. apply (NoDup_fmap_2 _), NoDup_seq.
Qed.
End ParallelBulk.

Lemma parallelized_bulk_ingest_stubs_witness :
  doc_id <$> default [] (match (@ParallelizedIngestComponentBulk.bulk_ingest
                                  Scenario.quiet Empty_set
                                  Scenario3.three_files empty_world).1 with
                         | Py.Normal ds => Some ds
                         | _ => None
                         end)
  = ["uuid-0"; "uuid-1"; "uuid-2"].
Proof.
  destruct (parallelized_bulk_ingest_stubs Scenario.quiet (R:=Empty_set)
              Scenario3.three_files empty_world) as (H & _); [done|].
  rewrite H. by vm_compute.
Defined.

Section WriterLoop.
Import Py Background PipelineIngestComponent.
Context (E : env).

#[local] Abbreviation run queue s := (snd (@_write_nodes E Empty_set queue s)).

(** One turn of the loop: it returns, acknowledges the item, and keeps the
    stacks in step; [flush] and [quit] leave them empty. *)
Lemma write_item_turn (it : item) (s : writer) :
  stacks_in_step s →
  ∃ s1,
    @write_item E Empty_set it s
    = (Normal (match it with Quit => true | _ => false end), s1)
    ∧ tasks_done s1 = S (tasks_done s)
    ∧ stacks_in_step s1
    ∧ (it ≠ Quit → run [it] s = s1)
    ∧ match it with
      | Process _ _ _ => True
      | _ => node_stack s1 = [] ∧ doc_stack s1 = [] ∧ file_stack s1 = []
      end.
Proof.
  intros Hinv. destruct it as [f d n| |].
  - destruct (Z_lt_le_dec (Z.of_nat (length (node_stack s ++ n)))
                NODE_FLUSH_COUNT) as [Hlt|Hge].
    + eexists. split; [by apply write_item_process_below|].
      split_and!; try done.
      * intros Hnil. by destruct (file_stack s).
      * intros _. cbn [_write_nodes]. rewrite run_bind.
        by rewrite write_item_process_below.
    + destruct (write_item_process_reach E s f d n Hge) as (idx & Hw & _).
      eexists. split; [exact Hw|]. split_and!; try done.
      intros _. cbn [_write_nodes]. rewrite run_bind. by rewrite Hw.
  - destruct (write_item_explicit E s Flush) as (s1 & Hw & Htd & Hs1); [auto|].
    exists s1. split; [exact Hw|].
    assert (node_stack s1 = [] ∧ doc_stack s1 = [] ∧ file_stack s1 = [])
      as Hempty.
    { destruct (file_stack s) eqn:Hfs.
      - subst s1. cbn. by destruct (Hinv Hfs) as [-> ->].
      - by destruct Hs1 as (_ & -> & -> & -> & _). }
    destruct Hempty as (Hn & Hd & Hf). split_and!; try done.
    intros _. cbn [_write_nodes]. rewrite run_bind. by rewrite Hw.
  - destruct (write_item_explicit E s Quit) as (s1 & Hw & Htd & Hs1); [auto|].
    exists s1. split; [exact Hw|].
    assert (node_stack s1 = [] ∧ doc_stack s1 = [] ∧ file_stack s1 = [])
      as Hempty.
    { destruct (file_stack s) eqn:Hfs.
      - subst s1. cbn. by destruct (Hinv Hfs) as [-> ->].
      - by destruct Hs1 as (_ & -> & -> & -> & _). }
    destruct Hempty as (Hn & Hd & Hf). split_and!; done.
Qed.

(** X17: with index calls whose faults are instances of [Exception] (the
    faults of [env]; [_save_docs] catches them with [except Exception] and
    logs), the writer loop of [PipelineIngestComponent] runs to its end
    without raising, however many of the index calls fail, and calls
    [node_q.task_done()] exactly once for each item it took from the queue:
    all of them up to the first [quit]. *)
Theorem write_nodes_acknowledges_each_item (queue : list item) (w : world) :
  ∃ s',
    @_write_nodes E Empty_set queue (new_writer w) = (Normal tt, s')
    ∧ tasks_done s' = length (consumed queue).
Proof.
  assert (∀ s, stacks_in_step s →
    ∃ s', @_write_nodes E Empty_set queue s = (Normal tt, s')
          ∧ tasks_done s' = (tasks_done s + length (consumed queue))%nat)
    as Hloop.
  { induction queue as [|it queue IH]; intros s Hinv.
    - exists s. split; [done|]. simpl. lia.
    - destruct (write_item_turn it s Hinv) as (s1 & Hw & Htd & Hinv1 & _).
      cbn [_write_nodes]. unfold mbind, M_bind, bind. rewrite Hw.
      destruct it as [f d n| |].
      + destruct (IH s1 Hinv1) as (s' & -> & Htd').
        exists s'. split; [done|]. cbn [consumed length]. lia.
      + destruct (IH s1 Hinv1) as (s' & -> & Htd').
        exists s'. split; [done|]. cbn [consumed length]. lia.
      + exists s1. split; [done|]. cbn [consumed length]. lia. }
  destruct (Hloop (new_writer w)) as (s' & Hrun & Htd); [done|].
  exists s'. split; [exact Hrun|]. by rewrite Htd.
Qed.

Lemma consumed_no_quit (queue rest : list item) :
  Quit ∉ queue → consumed (queue ++ rest) = queue ++ consumed rest.
Proof.
  induction queue as [|it queue IH]; intros Hq; [done|].
  apply not_elem_of_cons in Hq as [Hne Hq].
  destruct it; try done; cbn [consumed app]; by rewrite IH.
Qed.

Lemma run_no_quit (queue rest : list item) (s : writer) :
  Quit ∉ queue → stacks_in_step s →
  stacks_in_step (run queue s)
  ∧ run (queue ++ rest) s = run rest (run queue s).
Proof.
  revert s. induction queue as [|it queue IH]; intros s Hq Hinv; [done|].
  apply not_elem_of_cons in Hq as [Hne Hq].
  destruct (write_item_turn it s Hinv) as (s1 & Hw & _ & Hinv1 & _).
  destruct (IH s1 Hq Hinv1) as [Hinv' Happ].
  assert (∀ q, run (it :: q) s = run q s1) as Hcons.
  { intros q. cbn [_write_nodes]. rewrite run_bind, Hw.
    by destruct it. }
  rewrite <-app_comm_cons, !Hcons. by split.
Qed.

(** A [flush] after any items but [quit] leaves the stacks empty. *)
Lemma run_flush_empty (queue : list item) (s : writer) :
  Quit ∉ queue → stacks_in_step s →
  let s' := run (queue ++ [Flush]) s in
  node_stack s' = [] ∧ doc_stack s' = [] ∧ file_stack s' = [].
Proof.
  intros Hq Hs s'.
  destruct (run_no_quit queue [Flush] s Hq Hs) as [Hinv Happ].
  destruct (write_item_turn Flush (run queue s) Hinv)
    as (s1 & _ & _ & _ & Hrun & Hempty).
  subst s'. rewrite Happ, Hrun; done.
Qed.

(** X18: when the writer has served a [flush] that follows any items but
    [quit], in whatever order they arrived, nothing is left pending: the
    three stacks are empty, and the batches handed to [insert_nodes] are,
    concatenated, exactly the nodes received. *)
Theorem flush_leaves_nothing_pending (queue : list item) (w : world) :
  Quit ∉ queue →
  let s' := run (queue ++ [Flush]) (new_writer w) in
  node_stack s' = [] ∧ doc_stack s' = [] ∧ file_stack s' = []
  ∧ ∃ batches,
      insert_log (index s') = insert_log w ++ batches
      ∧ concat batches = concat (item_nodes <$> queue).
Proof.
  intros Hq s'.
  destruct (run_flush_empty queue (new_writer w) Hq) as (Hn & Hd & Hf);
    [done|].
  fold s' in Hn, Hd, Hf. split_and!; try done.
  destruct (run_partition E (queue ++ [Flush]) (new_writer w))
    as (batches & Hlog & Hcat).
  fold s' in Hlog, Hcat. exists batches. split; [exact Hlog|].
  rewrite Hn, app_nil_r in Hcat. rewrite Hcat.
  rewrite consumed_no_quit by done. cbn [new_writer node_stack app].
  by rewrite fmap_app, concat_app; simpl; rewrite app_nil_r.
Qed.
End WriterLoop.

Lemma flush_leaves_nothing_pending_witness :
  (PipelineIngestComponent.Quit ∉ [PipelineIngestComponent.Process "a.pdf" [Scenario.page] [];
            PipelineIngestComponent.Flush;
            PipelineIngestComponent.Process "b.pdf" [Scenario.page] []])
  ∧ PipelineIngestComponent.file_stack (snd (@PipelineIngestComponent._write_nodes Scenario.quiet Empty_set
                       ([PipelineIngestComponent.Process "a.pdf" [Scenario.page] [];
                         PipelineIngestComponent.Flush;
                         PipelineIngestComponent.Process "b.pdf" [Scenario.page] []] ++ [PipelineIngestComponent.Flush])
                       (PipelineIngestComponent.new_writer empty_world))) = [].
Proof.
  assert (PipelineIngestComponent.Quit ∉ [PipelineIngestComponent.Process "a.pdf" [Scenario.page] [];
                   PipelineIngestComponent.Flush;
                   PipelineIngestComponent.Process "b.pdf" [Scenario.page] []]) as Hq.
  { intros Hin. by repeat (apply elem_of_cons in Hin as [Hin|Hin];
                           [discriminate Hin|]); apply elem_of_nil in Hin. }
  split; [exact Hq|].
  by destruct (flush_leaves_nothing_pending Scenario.quiet _ empty_world Hq)
    as (_ & _ & H & _).
Defined.

Section PipelineMachine.
Import Py Background PipelineIngestComponent PipelineThreads.
Context (E : env) (c : component).

Lemma sum_list_insert {A} (f : A → nat) (l : list A) i x y :
  l !! i = Some y →
  (sum_list (f <$> <[i := x]> l) + f y = sum_list (f <$> l) + f x)%nat.
Proof.
  revert i. induction l as [|a l IH]; intros [|i] Hi; simplify_eq/=;
    [lia|]. specialize (IH i Hi). lia.
Qed.

Lemma sum_list_delete {A} (f : A → nat) (l : list A) i y :
  l !! i = Some y →
  (sum_list (f <$> delete i l) + f y = sum_list (f <$> l))%nat.
Proof.
  revert i. induction l as [|a l IH]; intros [|i] Hi; simplify_eq/=;
    [lia|]. specialize (IH i Hi). lia.
Qed.

Lemma length_delete_lookup {A} (l : list A) i y :
  l !! i = Some y → S (length (delete i l)) = length l.
Proof.
  revert i. induction l as [|a l IH]; intros [|i] Hi; simplify_eq/=;
    [done|]. by rewrite (IH i Hi).
Qed.

Lemma queue_full_false {A} maxsize (q : list A) :
  queue_full maxsize q = false →
  (0 < maxsize)%Z → (Z.of_nat (length q + 1) ≤ maxsize)%Z.
Proof.
  unfold queue_full. intros Hfull Hpos.
  destruct (Z.ltb_spec 0 maxsize); [|lia].
  destruct (Z.leb_spec maxsize (Z.of_nat (length q))); [done|lia].
Qed.

Ltac step_cases Hstep :=
  unfold step, caller_step, dispatcher_step, worker_step, writer_step
    in Hstep;
  cbn [doc_q doc_q_unfinished node_q node_q_unfinished semaphore dispatcher
       workers writer_thread writer_state caller dropped node_q_history]
    in Hstep;
  repeat match type of Hstep with
         | context [match ?x with _ => _ end] =>
             let H := fresh "Hcase" in destruct x eqn:H
         end;
  simplify_eq.

Lemma step_counters a (s s' : pipeline) :
  step E c a s = Some s' → counters c s → counters c s'.
Proof.
  intros Hstep (Hsem & Hdoc & Hnode & Hdq & Hnq).
  destruct s as [dq du nq nu sem d wks wt ws cl dr hist].
  cbn [doc_q doc_q_unfinished node_q node_q_unfinished semaphore dispatcher
       workers writer_thread writer_state caller dropped node_q_history]
    in *.
  destruct a as [| |i raises|].
  - step_cases Hstep; unfold counters; cbn; rewrite ?length_app; cbn;
      split_and!; try lia; try done;
      intros; by apply queue_full_false.
  - step_cases Hstep; unfold counters; cbn in *;
      rewrite ?length_app, ?fmap_app, ?sum_list_with_app; cbn;
      split_and!; try lia; try done.
  - unfold step, worker_step in Hstep.
    cbn [workers node_q semaphore doc_q_unfinished dropped] in Hstep.
    destruct (wks !! i) as [wk|] eqn:Hi; [|done].
    pose proof (sum_list_insert busy wks i WorkerRelease wk Hi) as Hr.
    pose proof (sum_list_insert busy wks i WorkerTaskDone wk Hi) as Ht.
    pose proof (sum_list_delete busy wks i wk Hi) as Hd.
    pose proof (length_delete_lookup wks i wk Hi) as Hl.
    destruct wk as [f docs|f docs n| |].
    + pose proof (sum_list_insert busy wks i
                    (WorkerPut f docs (run_transformations E docs))
                    _ Hi) as Hp.
      destruct raises; simplify_eq; unfold counters; cbn in *;
        rewrite ?length_insert; split_and!; try lia; try done.
    + destruct (queue_full (node_q_maxsize c) nq) eqn:Hfull; simplify_eq.
      unfold counters; cbn in *.
      rewrite ?length_insert, ?length_app; cbn.
      split_and!; try lia; try done.
      intros; by apply queue_full_false.
    + simplify_eq. unfold counters; cbn in *. rewrite ?length_insert.
      split_and!; try lia; try done.
    + simplify_eq. unfold counters; cbn in *.
      split_and!; try lia; try done.
  - step_cases Hstep; unfold counters; cbn in *;
      split_and!; try lia; try done.
Qed.

Lemma step_alive a (s s' : pipeline) :
  step E c a s = Some s' → counters c s → threads_alive s →
  threads_alive s'.
Proof.
  intros Hstep (Hsem & Hdoc & Hnode & Hdq & Hnq)
    (Hdquit & Hnquit & Hdisp & Hwr & Hstacks).
  destruct s as [dq du nq nu sem d wks wt ws cl dr hist].
  cbn [doc_q doc_q_unfinished node_q node_q_unfinished semaphore dispatcher
       workers writer_thread writer_state caller dropped node_q_history]
    in *.
  destruct a as [| |i raises|].
  - step_cases Hstep; unfold threads_alive; cbn; split_and!; try done;
      rewrite not_elem_of_app, list_elem_of_singleton; by split.
  - unfold step, dispatcher_step in Hstep.
    cbn [dispatcher doc_q semaphore doc_q_unfinished] in Hstep.
    destruct d as [|f docs|f docs|[]| |]; try done.
    + destruct dq as [|it q]; [done|]. simplify_eq.
      apply not_elem_of_cons in Hdquit as [Hne Hq].
      unfold threads_alive; cbn. split_and!; try done. by destruct it.
    + destruct sem; simplify_eq. unfold threads_alive; by cbn.
    + simplify_eq. unfold threads_alive; by cbn.
    + cbn in Hdoc. destruct du; [lia|]. simplify_eq.
      unfold threads_alive; by cbn.
  - unfold step, worker_step in Hstep.
    cbn [workers node_q semaphore doc_q_unfinished dropped] in Hstep.
    destruct (wks !! i) as [[f docs|f docs n| |]|] eqn:Hi; [| | | |done].
    + destruct raises; simplify_eq; unfold threads_alive; by cbn.
    + destruct (queue_full (node_q_maxsize c) nq); simplify_eq.
      unfold threads_alive; cbn. split_and!; try done.
      rewrite not_elem_of_app, list_elem_of_singleton; by split.
    + simplify_eq. unfold threads_alive; by cbn.
    + simplify_eq. unfold threads_alive; by cbn.
  - unfold step, writer_step in Hstep.
    cbn [writer_thread node_q node_q_unfinished writer_state] in Hstep.
    destruct wt as [|it| |]; try done.
    + destruct nq as [|it q]; [done|]. simplify_eq.
      apply not_elem_of_cons in Hnquit as [Hne Hq].
      unfold threads_alive; cbn. split_and!; try done. by destruct it.
    + cbn in Hnode. destruct nu; [lia|].
      destruct (write_item_turn E it ws Hstacks)
        as (s1 & Hw & _ & Hs1 & _).
      rewrite Hw in Hstep. cbn [fst snd] in Hstep. simplify_eq.
      unfold threads_alive; cbn. split_and!; try done. by destruct it.
Qed.
Lemma lookup_split {A} (l : list A) i y :
  l !! i = Some y →
  ∃ l1 l2, l = l1 ++ y :: l2
           ∧ (∀ x, <[i := x]> l = l1 ++ x :: l2)
           ∧ delete i l = l1 ++ l2.
Proof.
  revert i. induction l as [|a l IH]; intros [|i] Hi; simplify_eq/=.
  - by exists [], l.
  - destruct (IH i Hi) as (l1 & l2 & -> & Hins & Hdel).
    exists (a :: l1), l2. split_and!; [done| |].
    + intros x. cbn. by rewrite Hins.
    + cbn. by rewrite Hdel.
Qed.

Section Tracking.
Context (w : world) (files : list payload).

#[local] Abbreviation run queue s := (snd (@_write_nodes E Empty_set queue s)).

Lemma run_snoc (taken : list item) (it : item) :
  Quit ∉ taken →
  run (taken ++ [it]) (new_writer w)
  = (@write_item E Empty_set it (run taken (new_writer w))).2.
Proof.
  intros Hq.
  destruct (run_no_quit E taken [it] (new_writer w) Hq) as [Hinv ->];
    [done|].
  cbn [_write_nodes]. rewrite run_bind.
  destruct (write_item_turn E it _ Hinv) as (s1 & -> & _).
  by destruct it.
Qed.

Ltac perm HP :=
  cbn; rewrite ?bind_app, ?bind_cons; cbn;
  etrans; [exact HP|];
  rewrite ?bind_app, ?bind_cons; cbn; solve_Permutation.

Lemma step_files a (s s' : pipeline) :
  step E c a s = Some s' → counters c s → threads_alive s →
  files_tracked E w files s → files_tracked E w files s'.
Proof.
  intros Hstep (Hsem & Hdoc & Hnode & Hdq & Hnq)
    (Hdquit & Hnquit & Hdisp & Hwr & Hstacks)
    (HP & HW & HH & taken & HT & Hws).
  destruct s as [dq du nq nu sem d wks wt ws cl dr hist].
  cbn [doc_q doc_q_unfinished node_q node_q_unfinished semaphore dispatcher
       workers writer_thread writer_state caller dropped node_q_history]
    in *.
  subst hist.
  destruct a as [| |i raises|].
  - unfold step, caller_step in Hstep. cbn [caller doc_q node_q] in Hstep.
    destruct cl as [[|[f docs] rest]| | | |]; try done.
    + destruct (queue_full _ dq); simplify_eq.
      unfold files_tracked; cbn. split_and!; try done; [perm HP|].
      by exists taken.
    + destruct (queue_full _ dq); simplify_eq.
      unfold files_tracked; cbn. split_and!; try done; [perm HP|].
      by exists taken.
    + cbn in Hstep. destruct du; simplify_eq.
      unfold files_tracked; cbn. split_and!; try done. by exists taken.
    + destruct (queue_full _ nq); simplify_eq.
      unfold files_tracked; cbn. split_and!; try done; [perm HP| |].
      * apply Forall_app; split; [done|]. by apply Forall_singleton.
      * exists taken. split; [|done]. by rewrite <-!app_assoc.
    + cbn in Hstep. destruct nu; simplify_eq.
      unfold files_tracked; cbn. split_and!; try done. by exists taken.
  - unfold step, dispatcher_step in Hstep.
    cbn [dispatcher doc_q semaphore doc_q_unfinished workers] in Hstep.
    destruct d as [|f docs|f docs|q| |]; try done.
    + destruct dq as [|it dq']; [done|]. simplify_eq.
      unfold files_tracked; cbn. split_and!; try done.
      * destruct it; perm HP.
      * by exists taken.
    + destruct sem; simplify_eq.
      unfold files_tracked; cbn. split_and!; try done. by exists taken.
    + simplify_eq. unfold files_tracked; cbn. split_and!; try done.
      * perm HP.
      * apply Forall_app; split; [done|]. by apply Forall_singleton.
      * by exists taken.
    + destruct q, du; simplify_eq; unfold files_tracked; cbn;
        split_and!; try done; by exists taken.
  - unfold step, worker_step in Hstep.
    cbn [workers node_q semaphore doc_q_unfinished dropped] in Hstep.
    destruct (wks !! i) as [wk|] eqn:Hi; [|done].
    destruct (lookup_split wks i wk Hi) as (l1 & l2 & -> & Hins & Hdel).
    apply Forall_app in HW as [HW1 HW2].
    apply Forall_cons in HW2 as [HWk HW2].
    destruct wk as [f docs|f docs n| |].
    + destruct raises; simplify_eq; rewrite Hins;
        unfold files_tracked; cbn; split_and!; try done;
        try (perm HP); try (by exists taken);
        apply Forall_app; split; try done; by apply Forall_cons.
    + destruct (queue_full _ nq); simplify_eq. rewrite Hins.
      unfold files_tracked; cbn. split_and!.
      * perm HP.
      * apply Forall_app; split; try done; by apply Forall_cons.
      * apply Forall_app; split; [done|]. by apply Forall_singleton.
      * exists taken. split; [|done]. by rewrite <-!app_assoc.
    + simplify_eq. rewrite Hins.
      unfold files_tracked; cbn. split_and!; try done.
      * perm HP.
      * apply Forall_app; split; try done; by apply Forall_cons.
      * by exists taken.
    + simplify_eq. rewrite Hdel.
      unfold files_tracked; cbn. split_and!; try done.
      * perm HP.
      * by apply Forall_app.
      * by exists taken.
  - unfold step, writer_step in Hstep.
    cbn [writer_thread node_q node_q_unfinished writer_state] in Hstep.
    destruct wt as [|it| |]; try done.
    + destruct nq as [|it q]; [done|]. simplify_eq.
      unfold files_tracked; cbn. split_and!; try done.
      exists taken. by split.
    + cbn in Hnode. destruct nu; [lia|].
      destruct (write_item_turn E it ws Hstacks)
        as (s1 & Hw & _ & Hs1 & _).
      assert (Quit ∉ taken) as Hq.
      { intros Hin.
        apply Forall_app in HH as [HH _].
        by apply (proj1 (Forall_forall _ _) HH) in Hin. }
      injection Hstep as <-.
      unfold files_tracked; cbn. rewrite Hw. cbn. split_and!; try done.
      exists (taken ++ [it]). split.
      * destruct it; cbn; by rewrite <-!app_assoc.
      * rewrite run_snoc by done. by rewrite <-Hws, Hw.
Qed.

Lemma step_waited a (s s' : pipeline) :
  step E c a s = Some s' → counters c s →
  caller_waited s → caller_waited s'.
Proof.
  intros Hstep (Hsem & Hdoc & Hnode & Hdq & Hnq) Hwait.
  destruct s as [dq du nq nu sem d wks wt ws cl dr hist].
  unfold caller_waited in *.
  cbn [doc_q doc_q_unfinished node_q node_q_unfinished semaphore dispatcher
       workers writer_thread writer_state caller dropped node_q_history]
    in *.
  destruct a as [| |i raises|].
  - unfold step, caller_step in Hstep. cbn [caller doc_q node_q] in Hstep.
    destruct cl as [[|[f docs] rest]| | | |]; try done.
    + destruct (queue_full _ dq); by simplify_eq.
    + destruct (queue_full _ dq); by simplify_eq.
    + cbn in Hstep. destruct du; by simplify_eq.
    + destruct (queue_full _ nq); simplify_eq. cbn.
      destruct Hwait as [Hdu Hfl]. split; [done|]. by exists hist.
    + cbn in Hstep. destruct nu; simplify_eq. cbn.
      by destruct Hwait as [Hdu Hfl].
  - unfold step, dispatcher_step in Hstep.
    cbn [dispatcher doc_q semaphore doc_q_unfinished workers] in Hstep.
    destruct d as [|f docs|f docs|q| |]; try done.
    + destruct dq as [|it dq']; [done|]. simplify_eq. cbn.
      destruct cl; try done; destruct Hwait as [Hdu _]; cbn in Hdu; lia.
    + destruct sem; simplify_eq. cbn. done.
    + simplify_eq. done.
    + destruct du; simplify_eq.
      * cbn in Hdoc. lia.
      * cbn. destruct cl; try done; by destruct Hwait as [Hdu _].
  - unfold step, worker_step in Hstep.
    cbn [workers node_q semaphore doc_q_unfinished dropped] in Hstep.
    destruct (wks !! i) as [wk|] eqn:Hi; [|done].
    assert (du ≠ 0%nat) as Hdu.
    { apply lookup_lt_Some in Hi. lia. }
    assert (Flush ∉ hist) as Hfl.
    { destruct cl; try done; by destruct Hwait as [Hdu' _]. }
    assert (match cl with
            | CallerPut _ | CallerJoinDoc => True
            | _ => False
            end) as Hcl.
    { destruct cl; try done; by destruct Hwait as [Hdu' _]. }
    destruct wk as [f docs|f docs n| |].
    + destruct raises; simplify_eq; cbn; by destruct cl.
    + destruct (queue_full _ nq); simplify_eq. cbn.
      assert (Flush ∉ hist ++ [Process f docs n]) as Hfl'.
      { rewrite not_elem_of_app, list_elem_of_singleton. by split. }
      by destruct cl.
    + simplify_eq; cbn; by destruct cl.
    + simplify_eq; cbn; by destruct cl.
  - unfold step, writer_step in Hstep.
    cbn [writer_thread node_q node_q_unfinished writer_state] in Hstep.
    destruct wt as [|it| |]; try done.
    + destruct nq as [|it q]; [done|]. simplify_eq. cbn.
      destruct cl; try done; destruct Hwait as (_ & Hnu & _);
        cbn in Hnu; lia.
    + cbn in Hnode. destruct nu; [lia|]. simplify_eq. cbn.
      destruct cl; try done; by destruct Hwait as (_ & Hnu & _).
Qed.

Lemma start_facts : reachable_facts E c w files (start c w files).
Proof.
  unfold reachable_facts, counters, threads_alive, files_tracked,
    caller_waited, start; cbn.
  split_and!; try done; try lia.
  - apply not_elem_of_nil.
  - apply not_elem_of_nil.
  - by rewrite !app_nil_r.
  - by exists [].
  - apply not_elem_of_nil.
Qed.

Lemma run_facts schedule (s0 s : pipeline) :
  run_schedule E c schedule s0 = Some s →
  reachable_facts E c w files s0 → reachable_facts E c w files s.
Proof.
  revert s0. induction schedule as [|a schedule IH]; intros s0 Hrun Hinv.
  - by simplify_eq/=.
  - cbn [run_schedule] in Hrun.
    destruct (step E c a s0) as [s1|] eqn:Hstep; [|done].
    apply (IH s1 Hrun). destruct Hinv as (Hc & Ha & Hf & Hw).
    split_and!.
    + by eapply step_counters.
    + by eapply step_alive.
    + by eapply step_files.
    + by eapply step_waited.
Qed.
End Tracking.




Lemma run_dropped schedule (s0 s : pipeline) :
  run_schedule E c schedule s0 = Some s →
  (∀ i, Worker i true ∉ schedule) → dropped s = dropped s0.
Proof.
  revert s0. induction schedule as [|a schedule IH]; intros s0 Hrun Hno.
  - by simplify_eq/=.
  - cbn [run_schedule] in Hrun.
    destruct (step E c a s0) as [s1|] eqn:Hstep; [|done].
    rewrite (IH s1 Hrun).
    2:{ intros i Hin. apply (Hno i). by apply elem_of_cons; right. }
    destruct s0 as [dq du nq nu sem d wks wt ws cl dr hist].
    destruct a as [| |i raises|].
    + by step_cases Hstep.
    + by step_cases Hstep.
    + destruct raises.
      { exfalso. apply (Hno i). by apply elem_of_cons; left. }
      unfold step, worker_step in Hstep.
      cbn [workers node_q semaphore doc_q_unfinished dropped] in Hstep.
      destruct (wks !! i) as [[f docs|f docs n| |]|]; simplify_eq; try done.
      by destruct (queue_full (node_q_maxsize c) nq); simplify_eq.
    + by step_cases Hstep.
Qed.

(** *** Some thread can always take a step until the call returns *)

Section Progress.
Context (s : pipeline).
Hypothesis Hworkers : (0 < Z.to_nat (doc_semaphore c))%nat.
Hypothesis Hnode_q : (0 < node_q_maxsize c)%Z.
Hypothesis Hdoc_q : (0 < doc_q_maxsize c)%Z.
Hypothesis Hcounters : counters c s.
Hypothesis Halive : threads_alive s.





End Progress.
End PipelineMachine.

Section PipelineGuarantees.
Import Py Background PipelineIngestComponent PipelineThreads.
Context (E : env).

Lemma init_component transformations count_workers (c : component) :
  __init__ transformations count_workers = inr c →
  c = mkComponent count_workers count_workers 20 40 ∧ (0 < count_workers)%Z.
Proof.
  unfold __init__. intros Hinit.
  destruct (Z.leb_spec 2 (Z.of_nat transformations)); [|done].
  destruct (Z.ltb_spec 0 count_workers); [|done].
  cbn in Hinit. by simplify_eq.
Qed.

Lemma transforming_busy (wks : list worker_at) :
  (length (List.filter transforming wks) ≤ sum_list (busy <$> wks))%nat.
Proof.
  induction wks as [|wk wks IH]; [done|]. destruct wk; cbn; lia.
Qed.

(** X19: in every state the threads of a [PipelineIngestComponent] reach
    while a caller is in [ingest] or [bulk_ingest], whatever the schedule:
    at most [count_workers] workers are inside [run_transformations], the
    semaphore never exceeds [count_workers], and [doc_q] and [node_q] hold
    at most 20 and 40 items. *)
Theorem pipeline_bounds transformations count_workers (c : component)
    (w : world) (files : list payload) (schedule : list action)
    (s : pipeline) :
  __init__ transformations count_workers = inr c →
  run_schedule E c schedule (start c w files) = Some s →
  (length (List.filter transforming (workers s))
     ≤ Z.to_nat count_workers)%nat
  ∧ (semaphore s ≤ Z.to_nat count_workers)%nat
  ∧ (length (doc_q s) ≤ 20)%nat
  ∧ (length (node_q s) ≤ 40)%nat.
Proof.
  intros Hinit Hrun. apply init_component in Hinit as [-> Hpos].
  destruct (run_facts E _ w files schedule _ s Hrun (start_facts E _ w files))
    as ((Hsem & _ & _ & Hdq & Hnq) & _).
  cbn in Hsem, Hdq, Hnq.
  pose proof (transforming_busy (workers s)).
  split_and!; lia.
Qed.



Lemma nodes_of_received (received : list item) :
  Forall (λ it, match it with
                | Process _ d n => n = run_transformations E d
                | Flush => True
                | Quit => False
                end) received →
  concat (item_nodes <$> received)
  = concat ((λ p : payload, run_transformations E p.2)
            <$> (received ≫= item_files)).
Proof.
  induction 1 as [|it received Hit _ IH]; [done|].
  destruct it as [f d n| |]; cbn; [|done|done].
  by rewrite IH, Hit.
Qed.

(** X22: when [ingest] or [bulk_ingest] of [PipelineIngestComponent]
    returns, under any schedule of the threads: the writer holds nothing
    back, and the batches it handed to [insert_nodes] are, concatenated,
    the transformed documents of the files put, in the order the workers
    delivered them, except the files whose transformation raised; if no
    transformation raised, of all the files. *)
Theorem pipeline_call_flushes_everything (c : component) (w : world)
    (files : list payload) (schedule : list action) (s : pipeline) :
  run_schedule E c schedule (start c w files) = Some s →
  caller s = CallerReturned →
  node_stack (writer_state s) = [] ∧ doc_stack (writer_state s) = []
  ∧ file_stack (writer_state s) = []
  ∧ (∃ delivered batches,
       files ≡ₚ delivered ++ dropped s
       ∧ insert_log (index (writer_state s)) = insert_log w ++ batches
       ∧ concat batches
         = concat ((λ p : payload, run_transformations E p.2) <$> delivered))
  ∧ ((∀ i, Worker i true ∉ schedule) → dropped s = []).
Proof.
  intros Hrun Hret.
  destruct (run_facts E c w files schedule _ s Hrun (start_facts E c w files))
    as ((_ & Hdoc & Hnode & _) & (_ & _ & Hd & Hw & _)
        & (HP & _ & HH & taken & HT & Hws) & Hwait).
  unfold caller_waited in Hwait. rewrite Hret in HP, Hwait.
  destruct Hwait as (Hdu & Hnu & received & Hhist & Hnoflush).
  rewrite Hdu in Hdoc. rewrite Hnu in Hnode.
  destruct (doc_q s); [|cbn in Hdoc; lia].
  destruct (workers s); [|cbn in Hdoc; lia].
  destruct (node_q s); [|cbn in Hnode; lia].
  destruct (dispatcher s) as [| | |[]| |]; try done.
  destruct (writer_thread s); try done.
  cbn in HP, HT. rewrite app_nil_r in HT.
  rewrite Hhist in HT, HH, HP. subst taken.
  apply Forall_app in HH as [HH _].
  assert (Quit ∉ received) as Hq.
  { intros Hin. by apply (proj1 (Forall_forall _ _) HH) in Hin. }
  destruct (run_flush_empty E received (new_writer w) Hq)
    as (Hn & Hds & Hf); [done|].
  destruct (run_partition E (received ++ [Flush]) (new_writer w))
    as (batches & Hlog & Hcat).
  rewrite <-Hws in Hn, Hds, Hf, Hlog, Hcat.
  rewrite Hn, app_nil_r, consumed_no_quit in Hcat by done.
  cbn [new_writer node_stack app] in Hcat.
  rewrite fmap_app, concat_app in Hcat. cbn in Hcat.
  rewrite !app_nil_r in Hcat.
  split_and!; try done.
  - exists (received ≫= item_files), batches. split_and!; try done.
    + rewrite HP, bind_app. cbn. rewrite app_nil_r. solve_Permutation.
    + rewrite Hcat. by apply nodes_of_received.
  - intros Hno. by rewrite (run_dropped E c schedule _ s Hrun Hno).
Qed.

End PipelineGuarantees.

Lemma pipeline_bounds_witness :
  (length (PipelineThreads.doc_q Scenario4.returned) ≤ 20)%nat.
Proof.
  by destruct (pipeline_bounds Scenario.quiet 2 2 Scenario4.two_workers
                 empty_world Scenario4.one_file Scenario4.in_turn
                 Scenario4.returned eq_refl
                 ltac:(vm_compute; reflexivity)) as (_ & _ & H & _).
Defined.



Lemma pipeline_call_flushes_everything_witness :
  PipelineIngestComponent.file_stack
    (PipelineThreads.writer_state Scenario4.returned) = []
  ∧ PipelineThreads.dropped Scenario4.returned = [].
Proof.
  destruct (pipeline_call_flushes_everything Scenario.quiet
              Scenario4.two_workers empty_world Scenario4.one_file
              Scenario4.in_turn Scenario4.returned
              ltac:(vm_compute; reflexivity) ltac:(vm_compute; reflexivity))
    as (_ & _ & Hf & _ & Hd).
  split; [exact Hf|]. apply Hd. intros i Hin.
  vm_compute in Hin.
  repeat (apply elem_of_cons in Hin as [Hin|Hin]; [discriminate Hin|]).
  by apply elem_of_nil in Hin.
Defined.


Section PipelineCallers.
Import Py PipelineThreads.
Context (E : env) (parse_fault : string → string → option exn).

(** X24: [bulk_ingest] of [PipelineIngestComponent] skips the files whose
    parsing raises an instance of [Exception] (the parser faults of
    [parse_fault]; the handler of line 923 is [except Exception]) and does
    not raise for them: it puts one [process] item for each of the other
    files, in order, and returns the concatenation of their documents;
    [ingest] has no handler and raises the parser's exception before it
    puts anything. *)
Theorem pipeline_bulk_ingest_skips_bad_files (files : list (string * string)) :
  let parsed :=
    List.filter (λ f, match parse_fault f.1 f.2 with
                      | None => true
                      | Some _ => false
                      end) files in
  bulk_ingest E parse_fault files
  = ((λ f, (f.1, transform_file_into_documents E f.1 f.2)) <$> parsed,
     concat ((λ f, transform_file_into_documents E f.1 f.2) <$> parsed))
  ∧ ∀ f e, parse_fault f.1 f.2 = Some e →
           ingest E parse_fault f.1 f.2 = inl e.
Proof.
  intros parsed. split.
  - unfold bulk_ingest.
    assert (∀ acc : list payload * list Document,
      foldl (λ acc file,
               match parse_fault file.1 file.2 with
               | Some _ => acc
               | None =>
                   let documents :=
                     transform_file_into_documents E file.1 file.2 in
                   (acc.1 ++ [(file.1, documents)], acc.2 ++ documents)
               end) acc files
      = (acc.1 ++ ((λ f, (f.1, transform_file_into_documents E f.1 f.2))
                   <$> parsed),
         acc.2 ++ concat ((λ f, transform_file_into_documents E f.1 f.2)
                          <$> parsed))) as Hloop.
    { subst parsed. induction files as [|f files IH]; intros acc.
      - cbn. rewrite !app_nil_r. by destruct acc.
      - cbn [foldl List.filter].
        destruct (parse_fault f.1 f.2); [apply IH|].
        rewrite IH. cbn. by rewrite <-!app_assoc. }
    by rewrite Hloop.
  - intros f e Hf. unfold ingest. by rewrite Hf.
Qed.
End PipelineCallers.

Lemma pipeline_bulk_ingest_skips_bad_files_witness :
  (PipelineThreads.bulk_ingest Scenario.quiet Scenario3.corrupt_bad_pdf
     Scenario3.three_files).1
  = [("a.pdf", [Scenario.page]); ("c.pdf", [Scenario.page])]
  ∧ PipelineThreads.ingest Scenario.quiet Scenario3.corrupt_bad_pdf
      "bad.pdf" "/in/bad.pdf"
    = inl (Py.Exception "corrupt file").
Proof.
  destruct (pipeline_bulk_ingest_skips_bad_files Scenario.quiet
              Scenario3.corrupt_bad_pdf Scenario3.three_files) as [H1 H2].
  split; [by rewrite H1|].
  by apply (H2 ("bad.pdf", "/in/bad.pdf")).
Defined.

(** ** The background task: when ['error'] is written *)

Section NeverRaises.
Import Py.
Context {W R : Type}.

Lemma never_raises_bind {A B} (m : M W R A) (f : A → M W R B) :
  never_raises m → (∀ a, never_raises (f a)) → never_raises (m ≫= f).
Proof.
  intros Hm Hf w e. unfold mbind, M_bind, bind. specialize (Hm w).
  destruct (m w) as [[a|e'|r] w1]; cbn in *;
    [apply Hf|by destruct (Hm e')|done].
Qed.

Lemma never_raises_mret {A} (a : A) : never_raises (mret a : M W R A).
Proof. by intros w e. Qed.

Lemma never_raises_modify (f : W → W) : never_raises (@modify W R f).
Proof. by intros w e. Qed.

Lemma never_raises_get : never_raises (@get W R).
Proof. by intros w e. Qed.

Lemma never_raises_try_except {A} (m : M W R A) h :
  (∀ e, never_raises (h e)) → never_raises (try_except m h).
Proof.
  intros Hh w e. unfold try_except.
  destruct (m w) as [[a|e'|r] w1]; cbn; [done|apply Hh|done].
Qed.

Lemma never_raises_thread_run {A} (shared : A) target :
  never_raises (@thread_run W R A shared target).
Proof.
  intros w e. unfold thread_run.
  by destruct (target shared w) as [[a|e'|r] w1].
Qed.

Lemma try_except_never_raises {A} (m : M W R A) h w :
  never_raises m → try_except m h w = m w.
Proof.
  intros Hm. unfold try_except. specialize (Hm w).
  destruct (m w) as [[a|e|r] w1]; try done. by destruct (Hm e).
Qed.
End NeverRaises.

#[local] Instance writes_no_error_preorder : PreOrder writes_no_error.
Proof.
  split.
  - intros w. exists []. by rewrite app_nil_r.
  - intros w1 w2 w3 (l1 & H1 & Hl1) (l2 & H2 & Hl2).
    exists (l1 ++ l2). split; [by rewrite H2, H1, app_assoc|].
    by apply Forall_app.
Qed.

Ltac frame_no_error :=
  repeat first
    [ progress frame
    | match goal with
      | |- respects _ ?m => let h := head_of m in progress unfold h
      | |- writes_no_error ?w _ =>
          unfold writes_no_error; cbn;
          first [ by exists []; split; [by rewrite app_nil_r|constructor]
                | by eexists [_]; split;
                     [reflexivity|by apply Forall_singleton] ]
      end ].

Section ErrorPhase.
Import Py Background.
Context (E : env) (file_name stored_file_path doc_id : string).

Lemma never_raises_ext_quiet {R} (o : op) :
  (∀ w, fault E o w = None) → never_raises (@ext E R o).
Proof. intros Hq w e. unfold ext. by rewrite Hq. Qed.

Lemma finally_update_phase {A} (m : M world unit A) phase w :
  (try_finally m (update_phase doc_id phase) w).2
  = set_phase_log (λ l, l ++ [(doc_id, phase)]) (m w).2.
Proof. unfold update_phase. by rewrite try_finally_modify. Qed.

(** A task of the shape of [save_task] whose wait and parse succeed. *)
Lemma task_writes_no_error
    (fork_join : list Document → M world unit (list Document))
    (rag_block : list Document → M world unit unit) (w : world) :
  (∀ w0, fault E OpWaitEntry w0 = None) →
  (∀ w0, fault E OpTransformFile w0 = None) →
  (∀ documents, never_raises (fork_join documents)) →
  (∀ documents, respects writes_no_error (fork_join documents)) →
  (∀ documents, respects writes_no_error (rag_block documents)) →
  writes_no_error w
    (try_finally
       (try_except
          (wait_for_document_entry E doc_id;;
           update_phase doc_id "parsing";;
           documents ← parse_documents E file_name stored_file_path doc_id;
           documents ← fork_join documents;
           update_phase doc_id "rag";;
           try_except (rag_block documents)
             (λ e, update_phase doc_id "completed"))
          (λ e, update_phase doc_id "error"))
       (update_phase doc_id "completed") w).2.
Proof.
  intros Hwait Hparse Hfork Hfork' Hrag.
  rewrite finally_update_phase.
  rewrite try_except_never_raises.
  2:{ unfold wait_for_document_entry, parse_documents, update_phase.
      repeat first
        [ apply never_raises_bind; [|intros ?]
        | apply never_raises_ext_quiet; assumption
        | apply never_raises_modify
        | apply never_raises_get
        | apply never_raises_mret
        | apply Hfork
        | apply never_raises_try_except; intros ? ]. }
  match goal with |- context [(?body w).2] =>
    assert (respects writes_no_error body) as Hbody
  end.
  { unfold wait_for_document_entry, parse_documents, update_phase.
    repeat first
      [ apply Hfork' | apply Hrag | progress frame_no_error ]. }
  etrans; [apply (Hbody w)|].
  exists [(doc_id, "completed")]. split; [done|].
  by apply Forall_singleton.
Qed.

(** X25: a background save task, of [SimpleIngestComponent] or of
    [ParallelizedIngestComponent], writes the phase ['error'] only when
    waiting for the document entry or parsing the file raised: if these two
    succeed, then whatever else fails (transformations, index, extraction,
    reconciliation) no ['error'] is written. *)
Theorem save_task_error_only_from_wait_or_parse (w : world) :
  (∀ w0, fault E OpWaitEntry w0 = None) →
  (∀ w0, fault E OpTransformFile w0 = None) →
  writes_no_error w
    (SimpleIngestComponent.save_task E file_name stored_file_path doc_id
       w).2
  ∧ writes_no_error w
      (ParallelizedIngestComponent.save_task E file_name stored_file_path
         doc_id w).2.
Proof.
  intros Hwait Hparse. split.
  - apply task_writes_no_error; [done|done|..].
    + intros documents. unfold SimpleIngestComponent.fork_join.
      destruct (embedding_first E);
        (apply never_raises_bind; [|intros ?]);
        apply never_raises_thread_run.
    + intros documents.
      unfold SimpleIngestComponent.fork_join,
        SimpleIngestComponent.run_extraction,
        SimpleIngestComponent.run_embedding.
      frame_no_error.
    + intros documents.
      unfold SimpleIngestComponent.rag_block,
        SimpleIngestComponent.reconcile.
      frame_no_error.
  - apply task_writes_no_error; [done|done|..].
    + intros documents. unfold ParallelizedIngestComponent.fork_join.
      destruct (embedding_first E);
        (apply never_raises_bind; [|intros ?]);
        apply never_raises_thread_run.
    + intros documents.
      unfold ParallelizedIngestComponent.fork_join,
        ParallelizedIngestComponent.run_extraction,
        ParallelizedIngestComponent.run_embedding.
      frame_no_error.
    + intros documents.
      unfold ParallelizedIngestComponent.rag_block,
        ParallelizedIngestComponent.reconcile.
      frame_no_error.
Qed.
End ErrorPhase.

Lemma save_task_error_only_from_wait_or_parse_witness :
  writes_no_error empty_world
    (SimpleIngestComponent.save_task
       (Scenario.collaborators
          (Scenario.fault_at OpInsertNodes "index down") 0)
       "policy.pdf" "original_files/policy.pdf" "doc-1" empty_world).2.
Proof.
  by destruct (save_task_error_only_from_wait_or_parse
                 (Scenario.collaborators
                    (Scenario.fault_at OpInsertNodes "index down") 0)
                 "policy.pdf" "original_files/policy.pdf" "doc-1"
                 empty_world ltac:(done) ltac:(done)) as [H _].
Defined.

(** ** Reconciliation: what is written back *)

Section WriteBack.
Import Py Background DeepUpdate.
Context (E : env) (doc_id : string).

Lemma write_back_grows (record result : gmap string json) (u : json)
    (w0 w : world) :
  result_files w = result_files w0 →
  only_result_grows doc_id record result w0
    (write_back E doc_id (JDict record) (deep_update result u) w
     : outcome unit unit * world).2.
Proof.
  intros Hw. unfold write_back. rewrite run_bind. unfold ext at 1.
  destruct (fault E OpWriteBack w); cbn [snd]; [by left|].
  right. exists (deep_update result u). split.
  - cbn. by rewrite Hw.
  - intros k. apply deep_update_keeps.
Qed.

(** X26: when the write to [result.json] itself does not fail (the file is
    opened and [json.dump] completes), the reconciliation step of the
    background task, in [SimpleIngestComponent] and in
    [ParallelizedIngestComponent], touches the stored results in one way
    only: it leaves them alone (a fault before the write, or nothing to
    write), or it replaces the ["result"] of the document's record by a
    mapping that still has every top-level field of the result it read; the
    other entries of the record and the records of other documents stay. *)
Theorem reconcile_only_grows_result (record result : gmap string json)
    (missing_fields : list string) (w : world) :
  (∀ w0, fault E OpWriteBack w0 = None) →
  only_result_grows doc_id record result w
    (SimpleIngestComponent.reconcile E doc_id (JDict record) (JDict result)
       missing_fields w).2
  ∧ only_result_grows doc_id record result w
      (ParallelizedIngestComponent.reconcile E doc_id (JDict record)
         (JDict result) missing_fields w).2.
Proof.
  intros _. split.
  - unfold SimpleIngestComponent.reconcile.
    rewrite run_bind. unfold ext at 1.
    destruct (fault E OpLoadCompanyConfig w); cbn [snd]; [by left|].
    rewrite run_bind.
    match goal with |- context [fold_each ?bs ?a ?f w] =>
      assert (respects (same_on result_files)
                (fold_each bs a f : M world unit _)) as Hloop
        by frame_same;
      specialize (Hloop w);
      destruct (fold_each bs a f w) as [[all|e|[]] w1]
    end; cbn [snd] in *; try (by left).
    rewrite run_bind. unfold ext at 1.
    destruct (fault E OpDumpsRag w1); cbn [snd]; [by left|].
    by apply write_back_grows.
  - unfold ParallelizedIngestComponent.reconcile.
    rewrite run_bind. unfold ext at 1.
    destruct (fault E OpLoadCompanyConfig w); cbn [snd]; [by left|].
    rewrite run_bind.
    match goal with |- context [_extract_with_rag E ?d ?f ?cfg w] =>
      assert (respects (same_on result_files)
                (_extract_with_rag E d f cfg : M world unit _)) as Hcall
        by frame_same;
      specialize (Hcall w);
      destruct (_extract_with_rag E d f cfg w) as [[rag|e|[]] w1]
    end; cbn [snd] in *; try (by left).
    destruct rag as [| | | | |rag]; try (by left).
    rewrite run_mret_bind, run_bind. unfold ext at 1.
    destruct (fault E OpDumpsRag w1); cbn [snd]; [by left|].
    by apply write_back_grows.
Qed.
End WriteBack.

Lemma reconcile_only_grows_result_witness :
  only_result_grows "doc-1" Scenario2.stored_result Scenario2.found_fields
    empty_world
    (SimpleIngestComponent.reconcile (Scenario.collaborators Scenario.no_fault 3)
       "doc-1" (JDict Scenario2.stored_result) (JDict Scenario2.found_fields)
       (Scenario.field_names 3) empty_world).2.
Proof.
  by destruct (reconcile_only_grows_result
                 (Scenario.collaborators Scenario.no_fault 3) "doc-1"
                 Scenario2.stored_result Scenario2.found_fields
                 (Scenario.field_names 3) empty_world ltac:(done)) as [H _].
Defined.
